(** * Calculator: the shunting-yard parser and postfix evaluator

    A shallow embedding of [mathparser.py] (symbols, the registry
    [MathEvaluator], [parse], [postfit_evaluate]) and of the parts of
    [main_tasks.py] that build the standard registry and user-defined
    functions, followed by the properties of the specification that
    were checked against it. *)

From Stdlib Require Import ZArith String Ascii List DecimalString.
From Stdlib Require Import PrimFloat SpecFloat FloatOps.
From stdpp Require Import gmap strings list.

Local Open Scope string_scope.
Local Open Scope list_scope.
Local Open Scope Z_scope.

(** ** The Python runtime the program relies on

    Exceptions, numbers ([int] and [float]), and the [str], [list]
    and conversion builtins that the source calls.  Strings are Rocq
    strings, read as Python strings over the code points below 256. *)

Module Py.

Inductive Exception : Type :=
  | TypeError (msg : string)
  | ValueError (msg : string)
  | KeyError (key : string)
  | IndexError (msg : string)
  | ZeroDivisionError (msg : string)
  | OverflowError (msg : string)
  | OperatorException (msg : string)
  | OperandException (msg : string).

(** A computation that returns a value or raises. *)
Inductive result (A : Type) : Type :=
  | Ok (a : A)
  | Raise (e : Exception).
Arguments Ok {A} a.
Arguments Raise {A} e.

Definition bind {A B} (r : result A) (k : A → result B) : result B :=
  match r with
  | Ok a => k a
  | Raise e => Raise e
  end.

Definition raises {A} (r : result A) : Prop := ∃ e, r = Raise e.

(** [NumericType = Union[int, float]]: unbounded integers and
    binary64 floats. *)
Inductive NumericType : Type :=
  | PyInt (z : Z)
  | PyFloat (f : float).

(** *** Characters and strings *)

Definition code (c : ascii) : Z := Z.of_N (N_of_ascii c).

(** [str.isspace] on one character below 256: the characters on
    which [str.split()] splits. *)
Definition isspace (c : ascii) : bool :=
  let n := code c in
  ((9 <=? n) && (n <=? 13)) || ((28 <=? n) && (n <=? 32))
  || (n =? 133) || (n =? 160).

(** The characters [float] strips from both ends of its argument. *)
Definition float_space (c : ascii) : bool :=
  let n := code c in
  ((9 <=? n) && (n <=? 13)) || (n =? 32) || (n =? 133) || (n =? 160).

Definition digit_of (c : ascii) : option Z :=
  let n := code c in
  if (48 <=? n) && (n <=? 57) then Some (n - 48) else None.

(** The lower case of an ASCII letter, as [float] uses it to read
    [inf], [nan] and the exponent mark. *)
Definition lower (c : ascii) : ascii :=
  let n := code c in
  if (65 <=? n) && (n <=? 90) then ascii_of_N (Z.to_N (n + 32)) else c.

(** [c.lower()] on the code points below 256. *)
Definition lower_char (c : ascii) : ascii :=
  let n := code c in
  if ((65 <=? n) && (n <=? 90)) || ((192 <=? n) && (n <=? 214))
     || ((216 <=? n) && (n <=? 222))
  then ascii_of_N (Z.to_N (n + 32)) else c.

(** [s.lower()] *)
Fixpoint str_lower (s : string) : string :=
  match s with
  | EmptyString => EmptyString
  | String c s' => String (lower_char c) (str_lower s')
  end.

(** [sub in s] *)
Fixpoint contains (sub s : string) : bool :=
  String.prefix sub s
  || match s with
     | EmptyString => false
     | String _ s' => contains sub s'
     end.

(** The scan of [s.split(sep)] for a non-empty [sep]: [skip] counts
    the characters of a separator just matched that are still to be
    passed over, [cur] is the piece being collected. *)
Fixpoint split_scan (sep s : string) (skip : nat) (cur : string) : list string :=
  match s with
  | EmptyString => [cur]
  | String c s' =>
      match skip with
      | S k => split_scan sep s' k cur
      | O =>
          if String.prefix sep s
          then cur :: split_scan sep s' (Nat.pred (String.length sep)) ""
          else split_scan sep s' O (cur +:+ String c "")
      end
  end.

(** [s.split(sep)]; an empty separator is a [ValueError]. *)
Definition split (s sep : string) : result (list string) :=
  match sep with
  | EmptyString => Raise (ValueError "empty separator")
  | _ => Ok (split_scan sep s O "")
  end.

(** [sep.join(parts)] *)
Definition join (sep : string) (parts : list string) : string :=
  String.concat sep parts.

Fixpoint split_whitespace_scan (s cur : string) : list string :=
  match s with
  | EmptyString => if String.eqb cur "" then [] else [cur]
  | String c s' =>
      if isspace c
      then (if String.eqb cur "" then split_whitespace_scan s' ""
            else cur :: split_whitespace_scan s' "")
      else split_whitespace_scan s' (cur +:+ String c "")
  end.

(** [s.split()] *)
Definition split_whitespace (s : string) : list string :=
  split_whitespace_scan s "".

(** [list(s)]: the characters of [s] as one-character strings. *)
Fixpoint chars (s : string) : list string :=
  match s with
  | EmptyString => []
  | String c s' => String c "" :: chars s'
  end.

(** [s[:n]] for [n >= 0] *)
Fixpoint take (n : nat) (s : string) : string :=
  match n, s with
  | S k, String c s' => String c (take k s')
  | _, _ => ""
  end.

(** [s[n:]] for [n >= 0] *)
Fixpoint drop (n : nat) (s : string) : string :=
  match n, s with
  | S k, String _ s' => drop k s'
  | _, _ => s
  end.

(** [s[-1]] *)
Fixpoint last_char (s : string) : result string :=
  match s with
  | EmptyString => Raise (IndexError "string index out of range")
  | String c EmptyString => Ok (String c "")
  | String _ s' => last_char s'
  end.

(** [seq[i]] with Python's negative indices. *)
Definition index {A} (l : list A) (i : Z) : result A :=
  let n := Z.of_nat (length l) in
  let j := if i <? 0 then i + n else i in
  if (0 <=? j) && (j <? n)
  then match nth_error l (Z.to_nat j) with
       | Some a => Ok a
       | None => Raise (IndexError "index out of range")
       end
  else Raise (IndexError "index out of range").

(** *** Numbers *)

(** The binary64 float nearest to [n / d] (ties to even), for
    [0 <= n] and [0 < d], with the sign [neg].  The quotient is taken
    with at least 55 significant bits and a sticky bit, so that one
    rounding of it is the rounding of the exact ratio. *)
Definition round_ratio (neg : bool) (n d : Z) : float :=
  if n =? 0 then (if neg then neg_zero else zero)
  else
    let k := Z.max 0 (Z.log2 d - Z.log2 n + 56) in
    let q := (n * 2 ^ k) / d in
    let r := (n * 2 ^ k) mod d in
    let m := 2 * q + (if r =? 0 then 0 else 1) in
    SF2Prim (binary_normalize prec emax (if neg then - m else m) (- (k + 1)) false).

(** The float nearest to [m * 10 ^ e] for [0 <= m]. *)
Definition round_decimal (neg : bool) (m e : Z) : float :=
  if 0 <=? e then round_ratio neg (m * 10 ^ e) 1
  else round_ratio neg m (10 ^ (- e)).

(** [float(z)] for an [int]. *)
Definition float_of_int (z : Z) : result float :=
  let f := round_ratio (z <? 0) (Z.abs z) 1 in
  if PrimFloat.is_infinity f
  then Raise (OverflowError "int too large to convert to float")
  else Ok f.

Definition as_float (x : NumericType) : result float :=
  match x with
  | PyInt z => float_of_int z
  | PyFloat f => Ok f
  end.

(** [x.is_integer()] on a float. *)
Definition float_is_integer (f : float) : bool :=
  match Prim2SF f with
  | S754_zero _ => true
  | S754_finite _ m e => (0 <=? e) || (Z.pos m mod 2 ^ (- e) =? 0)
  | _ => false
  end.

(** [int(f)]: truncation towards zero. *)
Definition int_of_float (f : float) : result Z :=
  match Prim2SF f with
  | S754_zero _ => Ok 0
  | S754_finite s m e =>
      let a := if 0 <=? e then Z.pos m * 2 ^ e else Z.pos m / 2 ^ (- e) in
      Ok (if s then - a else a)
  | S754_infinity _ => Raise (OverflowError "cannot convert float infinity to integer")
  | S754_nan => Raise (ValueError "cannot convert float NaN to integer")
  end.

(** *** [float(s)] on a string *)

Fixpoint lstrip (s : string) : string :=
  match s with
  | String c s' => if float_space c then lstrip s' else s
  | EmptyString => s
  end.

Definition strip (s : string) : string :=
  String.rev (lstrip (String.rev (lstrip s))).

Definition lowercase (s : string) : string :=
  String.string_of_list_ascii (List.map lower (String.list_ascii_of_string s)).

(** The rest of a digit part, [(["_"] digit)*]: the value so far, the
    number of digits read, and what follows. *)
Fixpoint digits_tail (s : string) (acc n : Z) : Z * Z * string :=
  match s with
  | String c s' =>
      match digit_of c with
      | Some d => digits_tail s' (10 * acc + d) (n + 1)
      | None =>
          if Ascii.eqb c "_"
          then match s' with
               | String c2 s'' =>
                   match digit_of c2 with
                   | Some d => digits_tail s'' (10 * acc + d) (n + 1)
                   | None => (acc, n, s)
                   end
               | EmptyString => (acc, n, s)
               end
          else (acc, n, s)
      end
  | EmptyString => (acc, n, s)
  end.

(** [digitpart ::= digit (["_"] digit)*] *)
Definition digitpart (s : string) : option (Z * Z * string) :=
  match s with
  | String c s' =>
      match digit_of c with
      | Some d => Some (digits_tail s' d 1)
      | None => None
      end
  | EmptyString => None
  end.

Definition sign_of (s : string) : bool * string :=
  match s with
  | String "+" s' => (false, s')
  | String "-" s' => (true, s')
  | _ => (false, s)
  end.

(** [exponent ::= ("e" | "E") [sign] digitpart], to the end of the
    string; no exponent at all counts as exponent 0. *)
Definition exponent (s : string) : option Z :=
  match s with
  | EmptyString => Some 0
  | String c s' =>
      if Ascii.eqb (lower c) "e"
      then let '(neg, s1) := sign_of s' in
           match digitpart s1 with
           | Some (e, _, EmptyString) => Some (if neg then - e else e)
           | _ => None
           end
      else None
  end.

(** [number ::= [digitpart] "." digitpart | digitpart ["."]] followed
    by the exponent: the decimal mantissa and the power of ten. *)
Definition floatnumber (s : string) : option (Z * Z) :=
  let '(ip, s1) :=
    match digitpart s with
    | Some (m, _, rest) => (Some m, rest)
    | None => (None, s)
    end in
  let '(fp, s2) :=
    match s1 with
    | String "." s' =>
        match digitpart s' with
        | Some (m, n, rest) => (Some (m, n), rest)
        | None => (None, s')
        end
    | _ => (None, s1)
    end in
  match exponent s2 with
  | None => None
  | Some e =>
      match ip, fp with
      | None, None => None
      | Some i, None => Some (i, e)
      | None, Some (m, n) => Some (m, e - n)
      | Some i, Some (m, n) => Some (i * 10 ^ n + m, e - n)
      end
  end.

(** [float(s)] for a string [s]. *)
Definition float_of_str (s : string) : result float :=
  let '(neg, body) := sign_of (strip s) in
  let low := lowercase body in
  if String.eqb low "inf" || String.eqb low "infinity"
  then Ok (if neg then neg_infinity else infinity)
  else if String.eqb low "nan" then Ok nan
  else match floatnumber body with
       | Some (m, e) => Ok (round_decimal neg m e)
       | None => Raise (ValueError "could not convert string to float")
       end.

(** [int(s)] for a one-character string [s], as [func_operation]
    applies it to the last character of a placeholder. *)
Definition int_of_char (s : string) : result Z :=
  match s with
  | String c EmptyString =>
      match digit_of c with
      | Some d => Ok d
      | None => Raise (ValueError "invalid literal for int() with base 10")
      end
  | _ => Raise (ValueError "invalid literal for int() with base 10")
  end.

(** *** [str(x)] on a number *)

(** [str(z)] for an [int] within the limit that CPython puts on the
    digits of this conversion (4300 by default since 3.11); beyond it
    CPython raises [ValueError]. *)
Definition str_of_int (z : Z) : string :=
  NilZero.string_of_int (Z.to_int z).

(** [10 ^ k <= n / d], for any integer [k]. *)
Definition pow10_le (k n d : Z) : bool :=
  if 0 <=? k then 10 ^ k * d <=? n else d <=? n * 10 ^ (- k).

(** The decimal point position of [n / d]: the [k] with
    [10 ^ (k - 1) <= n / d < 10 ^ k], searched upwards from an
    underestimate of the logarithm. *)
Fixpoint decpt_from (fuel : nat) (k n d : Z) : Z :=
  match fuel with
  | O => k
  | S fuel' => if pow10_le k n d then decpt_from fuel' (k + 1) n d else k
  end.

Definition decpt (n d : Z) : Z :=
  decpt_from 8 (((Z.log2 n - Z.log2 d - 1) * 30103) / 100000 - 1) n d.

(** The decimal [digits * 10 ^ x] with [p] significant digits that
    [repr] would print for the float [f = n / d], if one with [p]
    digits reads back as [f]: the nearer of the two neighbours of
    [n / d] among those that do (the even one on a tie). *)
Definition shortest_at (f : float) (n d p : Z) : option (Z * Z) :=
  let x := decpt n d - p in
  let num := if 0 <=? x then n else n * 10 ^ (- x) in
  let den := if 0 <=? x then d * 10 ^ x else d in
  let lo := num / den in
  let r := num mod den in
  let ok v := PrimFloat.eqb (round_decimal false v x) f in
  if r =? 0 then Some (lo, x)
  else match ok lo, ok (lo + 1) with
       | true, false => Some (lo, x)
       | false, true => Some (lo + 1, x)
       | true, true =>
           if 2 * r <? den then Some (lo, x)
           else if den <? 2 * r then Some (lo + 1, x)
           else Some (if Z.even lo then lo else lo + 1, x)
       | false, false => None
       end.

Fixpoint shortest_from (fuel : nat) (f : float) (n d p : Z) : Z * Z :=
  match fuel with
  | O => (0, 0)
  | S fuel' =>
      match shortest_at f n d p with
      | Some r => r
      | None => shortest_from fuel' f n d (p + 1)
      end
  end.

Fixpoint strip_zeros (fuel : nat) (m x : Z) : Z * Z :=
  match fuel with
  | O => (m, x)
  | S fuel' =>
      if (m mod 10 =? 0) && negb (m =? 0) then strip_zeros fuel' (m / 10) (x + 1)
      else (m, x)
  end.

Fixpoint zeros (n : nat) : string :=
  match n with
  | O => ""
  | S k => String "0" (zeros k)
  end.

(** The text of a positive finite float from its shortest digits
    [ds] and decimal point position [dp]: positional notation when
    [-4 < dp <= 16], exponent notation otherwise. *)
Definition format_repr (ds : string) (dp : Z) : string :=
  let nd := Z.of_nat (String.length ds) in
  if (-4 <? dp) && (dp <=? 16) then
    if dp <=? 0 then "0." +:+ zeros (Z.to_nat (- dp)) +:+ ds
    else if nd <=? dp then ds +:+ zeros (Z.to_nat (dp - nd)) +:+ ".0"
    else take (Z.to_nat dp) ds +:+ "." +:+ drop (Z.to_nat dp) ds
  else
    let e := dp - 1 in
    let es := str_of_int (Z.abs e) in
    take 1 ds
    +:+ (if 1 <? nd then "." +:+ drop 1 ds else "")
    +:+ "e" +:+ (if e <? 0 then "-" else "+")
    +:+ (if Z.abs e <? 10 then "0" +:+ es else es).

(** [repr(f)]: the shortest decimal that reads back as [f]. *)
Definition repr_float (f : float) : string :=
  match Prim2SF f with
  | S754_nan => "nan"
  | S754_infinity s => if s then "-inf" else "inf"
  | S754_zero s => if s then "-0.0" else "0.0"
  | S754_finite s m e =>
      let n := if 0 <=? e then Z.pos m * 2 ^ e else Z.pos m in
      let d := if 0 <=? e then 1 else 2 ^ (- e) in
      let '(ds, x) := shortest_from 17 (PrimFloat.abs f) n d 1 in
      let '(ds', x') := strip_zeros 400 ds x in
      let txt := str_of_int ds' in
      (if s then "-" else "")
      +:+ format_repr txt (x' + Z.of_nat (String.length txt))
  end.

(** [str(x)] *)
Definition str (x : NumericType) : string :=
  match x with
  | PyInt z => str_of_int z
  | PyFloat f => repr_float f
  end.

(** *** The [operator] module on numbers *)

Definition arith (on_int : Z → Z → Z) (on_float : float → float → float)
    (a b : NumericType) : result NumericType :=
  match a, b with
  | PyInt x, PyInt y => Ok (PyInt (on_int x y))
  | _, _ =>
      bind (as_float a) (fun fa =>
      bind (as_float b) (fun fb => Ok (PyFloat (on_float fa fb))))
  end.

(** [operator.add], [operator.sub], [operator.mul] *)
Definition add := arith Z.add PrimFloat.add.
Definition sub := arith Z.sub PrimFloat.sub.
Definition mul := arith Z.mul PrimFloat.mul.

(** [operator.truediv] on Python's own [int] and [float].  A numpy
    float, as numpy's functions return it, divides by zero to an
    infinity instead of raising; such values are not told apart from
    Python floats here. *)
Definition truediv (a b : NumericType) : result NumericType :=
  match a, b with
  | PyInt x, PyInt y =>
      if y =? 0 then Raise (ZeroDivisionError "division by zero")
      else
        let f := round_ratio (negb (Bool.eqb (x <? 0) (y <? 0))) (Z.abs x) (Z.abs y) in
        if PrimFloat.is_infinity f
        then Raise (OverflowError "integer division result too large for a float")
        else Ok (PyFloat f)
  | _, _ =>
      bind (as_float a) (fun fa =>
      bind (as_float b) (fun fb =>
        if PrimFloat.is_zero fb then Raise (ZeroDivisionError "float division by zero")
        else Ok (PyFloat (PrimFloat.div fa fb))))
  end.

End Py.

(** ** mathparser.py *)

Module mathparser.
Import Py.

Definition dquote : string := String (ascii_of_nat 34) "".

(** *** Symbols *)

Inductive Associativity : Type := RIGHT | LEFT | SPECIAL.

(** [NVarMathFunction]: a token, the operation on [n_var] numbers
    and the arity. *)
Record NVarMathFunction : Type := {
  token : string;
  operation : list NumericType → result NumericType;
  n_var : Z
}.

(** [NVarMathFunction.__init__] *)
Definition NVarMathFunction_init (token : string)
    (operation : list NumericType → result NumericType) (n_var : Z)
    : result NVarMathFunction :=
  if String.eqb token ""
  then Raise (ValueError "Character representation must not be empty!")
  else if n_var <? 1
  then Raise (ValueError "Number of variables for a n-variable function must be at least 1!")
  else Ok {| token := token; operation := operation; n_var := n_var |}.

(** [NVarMathFunction.__call__] *)
Definition call (self : NVarMathFunction) (args : list NumericType)
    : result NumericType :=
  if negb (Z.of_nat (length args) =? n_var self)
  then Raise (OperandException
                ("Too many inputs given, expected " +:+ str_of_int (n_var self) +:+ " inputs"))
  else operation self args.

(** [SingleVarMathFunction.__init__] *)
Definition SingleVarMathFunction_init (token : string)
    (operation : list NumericType → result NumericType) : result NVarMathFunction :=
  NVarMathFunction_init token operation 1.

(** [UnaryOperator]: a single-variable function with an
    associativity, LEFT or RIGHT. *)
Record UnaryOperator : Type := {
  unary_function : NVarMathFunction;
  unary_associativity : Associativity
}.

(** [UnaryOperator.__init__]; the associativity is set first. *)
Definition UnaryOperator_init (token : string)
    (operation : list NumericType → result NumericType) (associativity : string)
    : result UnaryOperator :=
  bind (if String.eqb associativity "left" then Ok LEFT
        else if String.eqb associativity "right" then Ok RIGHT
        else Raise (TypeError "Associativity must be a string literal of 'left' or 'right'"))
       (fun a =>
  bind (SingleVarMathFunction_init token operation) (fun f =>
  Ok {| unary_function := f; unary_associativity := a |})).

(** [BinaryOperator]: a two-variable function with a precedence and
    an associativity. *)
Record BinaryOperator : Type := {
  binary_function : NVarMathFunction;
  precedence : Z;
  associativity : Associativity
}.

(** [BinaryOperator.__init__] *)
Definition BinaryOperator_init (token : string)
    (operation : list NumericType → result NumericType) (precedence : Z)
    (associativity : string) : result BinaryOperator :=
  bind (if String.eqb associativity "left" then Ok LEFT
        else if String.eqb associativity "right" then Ok RIGHT
        else if String.eqb associativity "both" then Ok SPECIAL
        else Raise (TypeError
                      "Associativity must be a string literal of 'left', 'right' or 'both'"))
       (fun a =>
  bind (NVarMathFunction_init token operation 2) (fun f =>
  Ok {| binary_function := f; precedence := precedence; associativity := a |})).

(** [Operator = Union[UnaryOperator, BinaryOperator]] *)
Inductive Operator : Type :=
  | Unary (u : UnaryOperator)
  | Binary (b : BinaryOperator).

(** An operator seen as the [NVarMathFunction] it inherits from. *)
Definition as_function (op : Operator) : NVarMathFunction :=
  match op with
  | Unary u => unary_function u
  | Binary b => binary_function b
  end.

(** [isinstance(op, UnaryOperator)] *)
Definition is_unary (op : Operator) : bool :=
  match op with
  | Unary _ => true
  | Binary _ => false
  end.

Record MathConstant : Type := {
  const_token : string;
  value : NumericType
}.

(** [MathConstant.__init__] *)
Definition MathConstant_init (token : string) (value : NumericType)
    : result MathConstant :=
  if String.eqb token ""
  then Raise (ValueError "Character representation of constant must not be an empty string!")
  else Ok {| const_token := token; value := value |}.

(** *** The registry *)

Record MathEvaluator : Type := {
  _operators : gmap string Operator;
  _functions : gmap string NVarMathFunction;
  _constants : gmap string MathConstant;
  _implicit_operation : option Operator
}.

Definition set_operators (self : MathEvaluator) (m : gmap string Operator) :=
  {| _operators := m; _functions := _functions self;
     _constants := _constants self; _implicit_operation := _implicit_operation self |}.
Definition set_functions (self : MathEvaluator) (m : gmap string NVarMathFunction) :=
  {| _operators := _operators self; _functions := m;
     _constants := _constants self; _implicit_operation := _implicit_operation self |}.
Definition set_constants (self : MathEvaluator) (m : gmap string MathConstant) :=
  {| _operators := _operators self; _functions := _functions self;
     _constants := m; _implicit_operation := _implicit_operation self |}.
Definition set_implicit_operation (self : MathEvaluator) (o : option Operator) :=
  {| _operators := _operators self; _functions := _functions self;
     _constants := _constants self; _implicit_operation := o |}.

(** [key in d] for a dict [d] *)
Definition has_key {A} (d : gmap string A) (key : string) : bool :=
  match d !! key with
  | Some _ => true
  | None => false
  end.

(** The methods that change the registry return the registry after
    the call together with the outcome, so that what a failed call
    leaves behind is part of the model. *)

(** [MathEvaluator.add_operator] *)
Definition add_operator (self : MathEvaluator) (operator : Operator)
    : MathEvaluator * result unit :=
  let tok := token (as_function operator) in
  if has_key (_operators self) tok
  then (self, Raise (ValueError ("Operator token '" +:+ tok +:+ "' already exists!")))
  else (set_operators self (<[tok := operator]> (_operators self)), Ok tt).

(** [MathEvaluator.add_function] *)
Definition add_function (self : MathEvaluator) (func : NVarMathFunction)
    : MathEvaluator * result unit :=
  if has_key (_operators self) (token func)
  then (self, Raise (ValueError ("Function token '" +:+ token func +:+ "' already exists!")))
  else (set_functions self (<[token func := func]> (_functions self)), Ok tt).

(** [MathEvaluator.add_constant] *)
Definition add_constant (self : MathEvaluator) (constant : MathConstant)
    : MathEvaluator * result unit :=
  if has_key (_constants self) (const_token constant)
  then (self, Raise (ValueError
                       ("Constant token '" +:+ const_token constant +:+ "' already exists!")))
  else (set_constants self (<[const_token constant := constant]> (_constants self)), Ok tt).

(** The setter of the [implicit_operation] property. *)
Definition implicit_operation_setter (self : MathEvaluator)
    (implicit_operation_token : string) : MathEvaluator * result unit :=
  match _operators self !! implicit_operation_token with
  | Some op => (set_implicit_operation self (Some op), Ok tt)
  | None =>
      (self, Raise (OperatorException
                      ("Token of binary operator does not exist '"
                       +:+ implicit_operation_token +:+ "'")))
  end.

(** A [for x in xs: self.add(x)] loop of [__init__]: the first
    failure ends the construction. *)
Fixpoint add_each {A} (add : MathEvaluator → A → MathEvaluator * result unit)
    (self : MathEvaluator) (xs : list A) : result MathEvaluator :=
  match xs with
  | [] => Ok self
  | x :: xs' =>
      match add self x with
      | (self', Ok _) => add_each add self' xs'
      | (_, Raise e) => Raise e
      end
  end.

Definition empty_evaluator : MathEvaluator :=
  {| _operators := ∅; _functions := ∅; _constants := ∅; _implicit_operation := None |}.

(** [MathEvaluator.__init__] *)
Definition MathEvaluator_init (operators : list Operator)
    (functions : list NVarMathFunction) (constants : list MathConstant)
    (implicit_operation_token : string) : result MathEvaluator :=
  bind (add_each add_operator empty_evaluator operators) (fun self =>
  bind (add_each add_function self functions) (fun self =>
  bind (add_each add_constant self constants) (fun self =>
  Ok (set_implicit_operation self (_operators self !! implicit_operation_token))))).

(** [is_numeric] *)
Definition is_numeric (string : string) : bool :=
  match float_of_str string with
  | Ok _ => true
  | Raise _ => false
  end.

(** *** The tokenizer *)

Definition recognised_tokens (self : MathEvaluator) : gset string :=
  dom (_operators self) ∪ dom (_functions self) ∪ dom (_constants self).

(** One round of the first loop of [_shuntyard_format_string]: a
    recognised token that occurs in the string is set off by spaces
    wherever it occurs. *)
Definition isolate (string token : string) : result String.string :=
  if contains token string
  then bind (split string token) (fun temp =>
       Ok (join (" " +:+ token +:+ " ") temp))
  else Ok string.

Fixpoint isolate_each (order : list string) (string : string)
    : result String.string :=
  match order with
  | [] => Ok string
  | token :: order' => bind (isolate string token) (isolate_each order')
  end.

(** The second loop: a chunk that is a recognised token or a number
    is one token, any other chunk is cut into its characters. *)
Fixpoint classify (self : MathEvaluator) (subs output : list string) : list string :=
  match subs with
  | [] => output
  | sub :: subs' =>
      if bool_decide (sub ∈ recognised_tokens self) || is_numeric sub
      then classify self subs' (output ++ [sub])
      else classify self subs' (output ++ chars sub)
  end.

(** [MathEvaluator._shuntyard_format_string].  The first loop runs
    over a Python set, whose iteration order the language leaves
    open: [order] is the order in which the recognised tokens are
    visited. *)
Definition _shuntyard_format_string (self : MathEvaluator) (order : list string)
    (string : string) : result (list String.string) :=
  bind (isolate_each order string) (fun string =>
  Ok (classify self (split_whitespace string) [])).

(** The orders in which the set of recognised tokens can be visited. *)
Definition iteration_order (self : MathEvaluator) (order : list string) : Prop :=
  order ≡ₚ elements (recognised_tokens self).

(** *** The shunting-yard converter

    [opt_stack] is only used as a stack ([append], [pop], [[-1]]): it
    is a list with the top of the stack, [opt_stack[-1]], at its
    head.  [val_stack] is the output, appended to at its end. *)

(** [check_implicit_operation] *)
Definition check_implicit_operation (self : MathEvaluator) (substr : list string)
    (index : nat) (opt_stack : list string) : result (list string) :=
  if (index =? 0)%nat then Ok opt_stack
  else match substr !! (index - 1)%nat with
       | None => Raise (IndexError "list index out of range")
       | Some previous =>
           if is_numeric previous
           then match _implicit_operation self with
                | Some op => Ok (token (as_function op) :: opt_stack)
                | None => Ok opt_stack
                end
           else Ok opt_stack
       end.

(** [operator_condition] *)
Definition operator_condition (operator_1 operator_2 : Operator) : bool :=
  match operator_1, operator_2 with
  | Binary b1, Binary b2 =>
      let lower_precedence := precedence b1 <? precedence b2 in
      let left_associative :=
        (precedence b1 =? precedence b2)
        && match associativity b1 with
           | LEFT | SPECIAL => true
           | RIGHT => false
           end in
      lower_precedence || left_associative
  | _, _ => negb (is_unary operator_1) && is_unary operator_2
  end.

(** The [while] loop run when the token read is the operator
    [incoming]. *)
Fixpoint pop_operators (self : MathEvaluator) (incoming : Operator)
    (opt_stack val_stack : list string) : result (list string * list string) :=
  match opt_stack with
  | [] => Ok (opt_stack, val_stack)
  | top :: rest =>
      if String.eqb top "(" then Ok (opt_stack, val_stack)
      else match _operators self !! top with
           | None => Raise (KeyError top)
           | Some op =>
               if operator_condition incoming op
               then pop_operators self incoming rest (val_stack ++ [top])
               else Ok (opt_stack, val_stack)
           end
  end.

(** The loops run on [','] and on [')']: pop to the output down to
    the nearest ['('], which stays; an exhausted stack is a
    mismatched parenthesis. *)
Fixpoint pop_until_paren (paren : string) (opt_stack val_stack : list string)
    : result (list string * list string) :=
  match opt_stack with
  | [] => Raise (OperandException ("Mismatched parenthesis for '" +:+ paren +:+ "'"))
  | top :: rest =>
      if String.eqb top "(" then Ok (opt_stack, val_stack)
      else pop_until_paren paren rest (val_stack ++ [top])
  end.

(** The body of the [for] loop of [parse]. *)
Definition parse_token (self : MathEvaluator) (substr : list string) (i : nat)
    (string : string) (opt_stack val_stack : list String.string)
    : result (list String.string * list String.string) :=
  if is_numeric string then Ok (opt_stack, val_stack ++ [string])
  else if has_key (_constants self) string then
    bind (check_implicit_operation self substr i opt_stack) (fun opt_stack =>
    Ok (opt_stack, val_stack ++ [string]))
  else if has_key (_functions self) string then
    bind (check_implicit_operation self substr i opt_stack) (fun opt_stack =>
    Ok (string :: opt_stack, val_stack))
  else match _operators self !! string with
  | Some incoming =>
    bind (pop_operators self incoming opt_stack val_stack) (fun '(opt_stack, val_stack) =>
    Ok (string :: opt_stack, val_stack))
  | None =>
  if String.eqb string "," then
    pop_until_paren "(" opt_stack val_stack
  else if String.eqb string "(" then
    Ok (string :: opt_stack, val_stack)
  else if String.eqb string ")" then
    bind (pop_until_paren ")" opt_stack val_stack) (fun '(opt_stack, val_stack) =>
    let opt_stack := tail opt_stack in
    match opt_stack with
    | top :: rest =>
        if has_key (_functions self) top then Ok (rest, val_stack ++ [top])
        else Ok (opt_stack, val_stack)
    | [] => Ok (opt_stack, val_stack)
    end)
  else
    Raise (ValueError ("Unrecognised token, has not been implemented yet "
                       +:+ dquote +:+ string +:+ dquote))
  end.

(** [for i, string in enumerate(substr)] from position [i] on. *)
Fixpoint parse_tokens (self : MathEvaluator) (substr : list string) (i : nat)
    (rest : list string) (opt_stack val_stack : list string)
    : result (list string * list string) :=
  match rest with
  | [] => Ok (opt_stack, val_stack)
  | string :: rest' =>
      bind (parse_token self substr i string opt_stack val_stack)
           (fun '(opt_stack, val_stack) =>
      parse_tokens self substr (S i) rest' opt_stack val_stack)
  end.

(** The final [while opt_stack] loop. *)
Fixpoint drain (opt_stack val_stack : list string) : result (list string) :=
  match opt_stack with
  | [] => Ok val_stack
  | top :: rest =>
      if String.eqb top "("
      then Raise (OperandException "Mismatched parenthesis for '('")
      else drain rest (val_stack ++ [top])
  end.

(** [parse] after the tokenizer: the conversion of the token list
    [substr] to postfix order. *)
Definition shunting_yard (self : MathEvaluator) (substr : list string)
    : result (list string) :=
  bind (parse_tokens self substr 0 substr [] []) (fun '(opt_stack, val_stack) =>
  drain opt_stack val_stack).

(** [MathEvaluator.parse] *)
Definition parse (self : MathEvaluator) (order : list string) (expr : string)
    : result (list string) :=
  bind (_shuntyard_format_string self order expr) (shunting_yard self).

(** *** The postfix evaluator

    [values] is a stack as well, with its top at the head. *)

(** [for _ in range(n): temp.append(values.pop())]; [None] is the
    [IndexError] of a [pop] from an empty list. *)
Fixpoint pop_values (n : nat) (values temp : list NumericType)
    : option (list NumericType * list NumericType) :=
  match n with
  | O => Some (values, temp)
  | S n' =>
      match values with
      | [] => None
      | v :: values' => pop_values n' values' (temp ++ [v])
      end
  end.

(** The branch of [postfit_evaluate] for a token that names the
    operator or function [refer]. *)
Definition apply_symbol (refer : NVarMathFunction) (char : string)
    (values : list NumericType) : result (list NumericType) :=
  match pop_values (Z.to_nat (n_var refer)) values [] with
  | None => Raise (OperandException ("Too few operands to evaluate '" +:+ char +:+ "'"))
  | Some (values, temp) =>
      let temp := rev temp in
      bind (call refer temp) (fun r => Ok (r :: values))
  end.

(** [refer]: the operator named by the token if there is one, the
    function otherwise. *)
Definition lookup_symbol (self : MathEvaluator) (char : string)
    : option NVarMathFunction :=
  match _operators self !! char with
  | Some op => Some (as_function op)
  | None => _functions self !! char
  end.

(** The body of the [for] loop of [postfit_evaluate]. *)
Definition evaluate_token (self : MathEvaluator) (char : string)
    (values : list NumericType) : result (list NumericType) :=
  match lookup_symbol self char with
  | Some refer => apply_symbol refer char values
  | None =>
      match _constants self !! char with
      | Some c => Ok (value c :: values)
      | None =>
          match float_of_str char with
          | Ok f => Ok (PyFloat f :: values)
          | Raise (ValueError _) =>
              Raise (OperandException ("Non-numeric value was given: '" +:+ char +:+ "'"))
          | Raise e => Raise e
          end
      end
  end.

Fixpoint evaluate_tokens (self : MathEvaluator) (expr : list string)
    (values : list NumericType) : result (list NumericType) :=
  match expr with
  | [] => Ok values
  | char :: expr' =>
      bind (evaluate_token self char values) (evaluate_tokens self expr')
  end.

(** [MathEvaluator.postfit_evaluate] *)
Definition postfit_evaluate (self : MathEvaluator) (expr : list string)
    : result NumericType :=
  match expr with
  | [] => Ok (PyInt 0)
  | _ =>
      bind (evaluate_tokens self expr []) (fun values =>
      match values with
      | [v] => Ok v
      | _ => Raise (OperandException "Too many operands was given")
      end)
  end.

End mathparser.

(** ** main_tasks.py *)

Module main_tasks.
Import Py mathparser.

(** The library functions of which only the call is known here:
    numpy's trigonometry on a number, the division of the integer 1
    by a numpy float, and [operator.pow]. *)
Record External : Type := {
  np_sin : NumericType → result NumericType;
  np_cos : NumericType → result NumericType;
  np_tan : NumericType → result NumericType;
  np_one_over : NumericType → result NumericType;
  opt_pow : NumericType → NumericType → result NumericType
}.

(** A Python function of one, or two, positional parameters as an
    operation on the argument list. *)
Definition unary_call (f : NumericType → result NumericType)
    (args : list NumericType) : result NumericType :=
  match args with
  | [x] => f x
  | _ => Raise (TypeError "wrong number of positional arguments")
  end.

Definition binary_call (f : NumericType → NumericType → result NumericType)
    (args : list NumericType) : result NumericType :=
  match args with
  | [x; y] => f x y
  | _ => Raise (TypeError "wrong number of positional arguments")
  end.

(** [_factorial].  On an [int] argument, [is_integer()] is taken to
    hold, as it does since Python 3.12; before 3.12 an [int] has no
    such method and the call on an [int] ends in [AttributeError].
    The float case does not depend on the version. *)
Definition _factorial (num : NumericType) : result NumericType :=
  bind (match num with
        | PyInt z => Ok z
        | PyFloat f =>
            if negb (float_is_integer f) then Raise (TypeError "")
            else int_of_float f
        end) (fun num =>
  let result := fold_left Z.mul (seqZ 2 (num + 1 - 2)) 1 in
  Ok (PyInt result)).

(** [np.pi] and [np.e] *)
Definition pi : PrimFloat.float := 0x1.921fb54442d18p+1%float.
Definition e : PrimFloat.float := 0x1.5bf0a8b145769p+1%float.

Section Symbols.
Context (ext : External).

Definition FACTORIAL := UnaryOperator_init "!" (unary_call _factorial) "left".

Definition ADDITION := BinaryOperator_init "+" (binary_call add) 0 "both".
Definition SUBTRACTION := BinaryOperator_init "-" (binary_call sub) 0 "both".
Definition MULTIPLICATION := BinaryOperator_init "*" (binary_call mul) 1 "both".
Definition DIVISION := BinaryOperator_init "/" (binary_call truediv) 1 "left".
Definition EXPONENTIATION := BinaryOperator_init "^" (binary_call (opt_pow ext)) 2 "right".

Definition SIN := SingleVarMathFunction_init "sin" (unary_call (np_sin ext)).
Definition COS := SingleVarMathFunction_init "cos" (unary_call (np_cos ext)).
Definition TAN := SingleVarMathFunction_init "tan" (unary_call (np_tan ext)).
Definition COT :=
  SingleVarMathFunction_init "cot"
    (unary_call (fun x => bind (np_tan ext x) (np_one_over ext))).

Definition PI := MathConstant_init "pi" (PyFloat pi).
Definition EULER := MathConstant_init "e" (PyFloat e).

(** The elements of a list literal, evaluated left to right. *)
Fixpoint sequence {A} (items : list (result A)) : result (list A) :=
  match items with
  | [] => Ok []
  | item :: items' =>
      bind item (fun a => bind (sequence items') (fun l => Ok (a :: l)))
  end.

Definition binary (b : result BinaryOperator) : result Operator :=
  bind b (fun b => Ok (Binary b)).
Definition unary (u : result UnaryOperator) : result Operator :=
  bind u (fun u => Ok (Unary u)).

Definition OPERATORS : result (list Operator) :=
  sequence [binary ADDITION; binary SUBTRACTION; binary MULTIPLICATION;
            binary DIVISION; binary EXPONENTIATION; unary FACTORIAL].
Definition FUNCTIONS : result (list NVarMathFunction) :=
  sequence [SIN; COS; TAN; COT].
Definition CONSTANTS : result (list MathConstant) :=
  sequence [PI; EULER].

(** [my_eval = MathEvaluator(OPERATORS, FUNCTIONS, CONSTANTS, MULTIPLICATION.token)] *)
Definition my_eval : result MathEvaluator :=
  bind OPERATORS (fun operators =>
  bind FUNCTIONS (fun functions =>
  bind CONSTANTS (fun constants =>
  bind MULTIPLICATION (fun multiplication =>
  MathEvaluator_init operators functions constants
    (token (binary_function multiplication)))))).

(** [_evaluate]: parse the lower-cased input, evaluate the postfix
    list, and return a result without fractional part as an [int]
    ([is_integer()] holding of every [int], as in [_factorial]: on an
    [int] result this is Python 3.12 or later; a float result does not
    depend on the version). *)
Definition _evaluate (self : MathEvaluator) (order : list string) (input : string)
    : result NumericType :=
  bind (parse self order (str_lower input)) (fun postfix =>
  bind (postfit_evaluate self postfix) (fun result =>
  match result with
  | PyInt z => Ok (PyInt z)
  | PyFloat f =>
      if float_is_integer f then bind (int_of_float f) (fun z => Ok (PyInt z))
      else Ok (PyFloat f)
  end)).

(** *** The Add and Edit tab *)

(** [[MathConstant(f'x_{i+1}', 0) for i in range(9)]] *)
Definition dummy_variables : result (list MathConstant) :=
  sequence (List.map (fun i => MathConstant_init ("x_" +:+ str_of_int (i + 1)) (PyInt 0))
                     (seqZ 0 9)).

(** [self.func_eval] as [AddEdit.__init__] builds it. *)
Definition func_eval : result MathEvaluator :=
  bind OPERATORS (fun operators =>
  bind FUNCTIONS (fun functions =>
  bind CONSTANTS (fun constants =>
  bind dummy_variables (fun dummies =>
  bind MULTIPLICATION (fun multiplication =>
  MathEvaluator_init operators functions (constants ++ dummies)
    (token (binary_function multiplication))))))).

End Symbols.

(** One loop of [update_evaluator]: every entry of a map of the
    main evaluator whose key the function evaluator lacks is added
    to it; the entries are visited in the order of [items]. *)
Fixpoint merge_each {A} (has : MathEvaluator → string → bool)
    (add : MathEvaluator → A → MathEvaluator * result unit)
    (items : list (string * A)) (func_eval : MathEvaluator)
    : MathEvaluator * result unit :=
  match items with
  | [] => (func_eval, Ok tt)
  | (token, obj) :: items' =>
      if has func_eval token then merge_each has add items' func_eval
      else match add func_eval obj with
           | (func_eval', Ok _) => merge_each has add items' func_eval'
           | (func_eval', Raise e) => (func_eval', Raise e)
           end
  end.

(** [AddEdit.update_evaluator] *)
Definition update_evaluator (my_eval func_eval : MathEvaluator)
    : MathEvaluator * result unit :=
  match merge_each (fun ev => has_key (_constants ev)) add_constant
          (map_to_list (_constants my_eval)) func_eval with
  | (func_eval, Raise e) => (func_eval, Raise e)
  | (func_eval, Ok _) =>
  match merge_each (fun ev => has_key (_functions ev)) add_function
          (map_to_list (_functions my_eval)) func_eval with
  | (func_eval, Raise e) => (func_eval, Raise e)
  | (func_eval, Ok _) =>
      merge_each (fun ev => has_key (_operators ev)) add_operator
        (map_to_list (_operators my_eval)) func_eval
  end end.

(** [str.isalpha] and [str.isalnum] on the code points below 256. *)
Definition isalpha_char (c : ascii) : bool :=
  let n := code c in
  ((65 <=? n) && (n <=? 90)) || ((97 <=? n) && (n <=? 122))
  || (n =? 170) || (n =? 181) || (n =? 186)
  || ((192 <=? n) && (n <=? 214)) || ((216 <=? n) && (n <=? 246))
  || ((248 <=? n) && (n <=? 255)).

Definition isalnum_char (c : ascii) : bool :=
  let n := code c in
  isalpha_char c || ((48 <=? n) && (n <=? 57))
  || (n =? 178) || (n =? 179) || (n =? 185)
  || ((188 <=? n) && (n <=? 190)).

Definition isalpha (s : string) : bool :=
  negb (String.eqb s "") && forallb isalpha_char (list_ascii_of_string s).
Definition isalnum (s : string) : bool :=
  negb (String.eqb s "") && forallb isalnum_char (list_ascii_of_string s).

(** [is_valid_name] of the function tab, without its dialogs. *)
Definition is_valid_name (my_eval : MathEvaluator) (name : string) : bool :=
  let temp := split_scan "_" name O "" in
  let valid := isalpha (hd "" temp) in
  let valid :=
    match temp with
    | [_] => valid
    | [_; t1] => if (String.length t1 =? 1)%nat && isalnum t1 then valid else false
    | _ => false
    end in
  if has_key (_functions my_eval) name then false else valid.

(** The check of [proccess_expression] on the parsed tokens: a token
    that the main evaluator does not know and that is not numeric is
    a dummy variable, whose index must not exceed the number of
    variables.  [true] is the error flag. *)
Fixpoint check_variables (my_eval : MathEvaluator) (no_of_variables : Z)
    (result : list string) (error : bool) : Py.result bool :=
  match result with
  | [] => Ok error
  | string :: result' =>
      if negb (bool_decide (string ∈ recognised_tokens my_eval) || is_numeric string)
      then bind (last_char string) (fun c =>
           bind (int_of_char c) (fun k =>
           check_variables my_eval no_of_variables result'
             (if no_of_variables <? k then true else error)))
      else check_variables my_eval no_of_variables result' error
  end.

(** [proccess_expression]: the function evaluator after the update
    and the postfix template, [[]] standing for a reported error.
    Exceptions that the source does not catch are raised. *)
Definition proccess_expression (my_eval func_eval : MathEvaluator)
    (order : list string) (no_of_variables : Z) (expr : string)
    : MathEvaluator * result (list string) :=
  match update_evaluator my_eval func_eval with
  | (func_eval, Raise e) => (func_eval, Raise e)
  | (func_eval, Ok _) =>
      (func_eval,
       match parse func_eval order expr with
       | Raise (OperandException _) | Raise (ValueError _) => Ok []
       | Raise e => Raise e
       | Ok result =>
           bind (check_variables my_eval no_of_variables result false) (fun error =>
           Ok (if error then [] else result))
       end)
  end.

(** The [for] loop of [func_operation]: it writes into the list it
    walks, so the list comes back with the outcome.  [done] holds the
    entries already passed. *)
Fixpoint substitute (args : list NumericType) (done expression : list string)
    : list string * result unit :=
  match expression with
  | [] => (done, Ok tt)
  | token :: expression' =>
      if String.eqb (take 2 token) "x_"
      then match bind (last_char token) (fun c =>
                 bind (int_of_char c) (fun k => index args (k - 1))) with
           | Ok a => substitute args (done ++ [str a]) expression'
           | Raise e => (done ++ expression, Raise e)
           end
      else substitute args (done ++ [token]) expression'
  end.

(** [func_operation], called on [args] and [expression]: the list after
    the call and the value returned. *)
Definition func_operation (my_eval : MathEvaluator) (args : list NumericType)
    (expression : list string) : list string * result NumericType :=
  match substitute args [] expression with
  | (expression, Raise e) => (expression, Raise e)
  | (expression, Ok _) => (expression, postfit_evaluate my_eval expression)
  end.

(** A function made by the function tab: its name, its arity, and
    the list [func_expr] that its operation closes over.  Every call
    of the operation passes that one list to [func_operation]. *)
Record UserFunction : Type := {
  name : string;
  no_of_variables : Z;
  func_expr : list string
}.

(** [add_function] of the function tab, up to the registration of
    the new function: [None] when the name or the expression is
    refused. *)
Definition add_function (my_eval func_eval : MathEvaluator) (order : list string)
    (no_of_variables : Z) (name_input expression : string)
    : MathEvaluator * result (option UserFunction) :=
  if negb (is_valid_name my_eval name_input) then (func_eval, Ok None)
  else match proccess_expression my_eval func_eval order no_of_variables expression with
       | (func_eval, Raise e) => (func_eval, Raise e)
       | (func_eval, Ok []) => (func_eval, Ok None)
       | (func_eval, Ok expression) =>
           (func_eval,
            bind (NVarMathFunction_init name_input (fun _ => Raise (TypeError ""))
                    no_of_variables) (fun _ =>
            if has_key (_operators my_eval) name_input
            then Raise (ValueError ("Function token '" +:+ name_input +:+ "' already exists!"))
            else Ok (Some {| name := name_input; no_of_variables := no_of_variables;
                             func_expr := expression |})))
       end.

(** A call of [new_function] on [args]: the arity check of [__call__],
    then [func_operation] on the shared list.  The function comes
    back with the list as the call left it. *)
Definition invoke (my_eval : MathEvaluator) (f : UserFunction)
    (args : list NumericType) : UserFunction * result NumericType :=
  if negb (Z.of_nat (length args) =? no_of_variables f)
  then (f, Raise (OperandException
                    ("Too many inputs given, expected "
                     +:+ str_of_int (no_of_variables f) +:+ " inputs")))
  else let '(expression, r) := func_operation my_eval args (func_expr f) in
       ({| name := name f; no_of_variables := no_of_variables f;
           func_expr := expression |}, r).

(** [update_dummy_var] of the function tab, on the number of
    variables (the widths and the label it also sets belong to the
    window). *)
Definition update_dummy_var (add : bool) (no_of_variables : Z) : Z :=
  if add && (no_of_variables <? 9) then no_of_variables + 1
  else if negb add && (1 <? no_of_variables) then no_of_variables - 1
  else no_of_variables.

(** [update_label]: the text shown before the expression field. *)
Definition update_label (no_of_variables : Z) : string :=
  let new_label := "(x_1" in
  let new_label :=
    fold_left (fun label i => label +:+ ", x_" +:+ str_of_int (i + 1))
              (seqZ 1 (no_of_variables - 1)) new_label in
  new_label +:+ ") = ".

(** *** The constant tab *)

(** [my_eval.constants()]: [constants] is a property that returns a
    dict, and the call of a dict is a [TypeError]. *)
Definition call_constants (my_eval : MathEvaluator) : result (gmap string MathConstant) :=
  Raise (TypeError "'dict' object is not callable").

(** [is_valid_name] of the constant tab, without its dialogs. *)
Definition constant_is_valid_name (my_eval : MathEvaluator) (name : string) : result bool :=
  let temp := split_scan "_" name O "" in
  let valid := isalpha (hd "" temp) in
  let valid :=
    match temp with
    | [_] => valid
    | [_; t1] => if (String.length t1 =? 1)%nat && isalnum t1 then valid else false
    | _ => false
    end in
  bind (call_constants my_eval) (fun constants =>
  Ok (if has_key constants name then false else valid)).

(** [evaluate_input] of the constant tab: the value of the
    expression, [None] when its evaluation raises. *)
Definition evaluate_input (my_eval : MathEvaluator) (order : list string)
    (string_value : string) : option NumericType :=
  match _evaluate my_eval order string_value with
  | Ok result => Some result
  | Raise _ => None
  end.

(** [add_constant] of the constant tab: the main evaluator after
    the click and the outcome.  It goes on only when the value is
    [None], and [MathConstant] refuses [None]. *)
Definition tab_add_constant (my_eval : MathEvaluator) (order : list string)
    (name_input value_input : string) : MathEvaluator * result unit :=
  match constant_is_valid_name my_eval name_input with
  | Raise e => (my_eval, Raise e)
  | Ok false => (my_eval, Ok tt)
  | Ok true =>
      match evaluate_input my_eval order value_input with
      | Some _ => (my_eval, Ok tt)
      | None => (my_eval, Raise (TypeError "Value of constant must be numerical"))
      end
  end.

End main_tasks.

(** ** The conditions of the specification

    The failures that the specification names, as the exceptions the
    program raises for them, and the registries the examples of the
    specification speak of. *)

Import Py mathparser.

Definition DuplicateSymbol (kind token : string) : Exception :=
  ValueError (kind +:+ " token '" +:+ token +:+ "' already exists!").

Definition UnknownSymbol (token : string) : Exception :=
  OperatorException ("Token of binary operator does not exist '" +:+ token +:+ "'").

Definition InsufficientOperands (token : string) : Exception :=
  OperandException ("Too few operands to evaluate '" +:+ token +:+ "'").

(** The structural tokens of an expression. *)
Definition structural (token : string) : bool :=
  String.eqb token "(" || String.eqb token ")" || String.eqb token ",".

(** The computation returns. *)
Definition returns {A} (r : result A) : bool :=
  match r with
  | Ok _ => true
  | Raise _ => false
  end.

(** The value held by a [result] that is known to be [Ok]. *)
Definition the {A} (default : A) (r : result A) : A :=
  match r with
  | Ok a => a
  | Raise _ => default
  end.

(** The main evaluator [my_eval] and the function evaluator
    [func_eval] of [main_tasks.py]. *)
Definition standard (ext : main_tasks.External) : MathEvaluator :=
  the empty_evaluator (main_tasks.my_eval ext).
Definition authoring (ext : main_tasks.External) : MathEvaluator :=
  the empty_evaluator (main_tasks.func_eval ext).

(** An [External] whose functions always raise: the examples below
    that need a concrete one do not call them. *)
Definition unavailable : main_tasks.External :=
  {| main_tasks.np_sin := fun _ => Raise (TypeError "numpy.sin");
     main_tasks.np_cos := fun _ => Raise (TypeError "numpy.cos");
     main_tasks.np_tan := fun _ => Raise (TypeError "numpy.tan");
     main_tasks.np_one_over := fun _ => Raise (TypeError "numpy division");
     main_tasks.opt_pow := fun _ _ => Raise (TypeError "operator.pow") |}.


(** A second function under the token of the sine, and a function
    under the token of the addition. *)
Definition second_sine : NVarMathFunction :=
  {| token := "sin"; operation := fun _ => Ok (PyInt 0); n_var := 2 |}.
Definition plus_function : NVarMathFunction :=
  {| token := "+"; operation := fun _ => Ok (PyInt 0); n_var := 2 |}.

(** The token under which an operator is registered. *)
Definition operator_token (op : Operator) : string := token (as_function op).

(** The operators of [main_tasks.py], as a list. *)
Definition standard_operators (ext : main_tasks.External) : list Operator :=
  the [] (main_tasks.OPERATORS ext).
Definition standard_functions (ext : main_tasks.External) : list NVarMathFunction :=
  the [] (main_tasks.FUNCTIONS ext).
Definition standard_constants : list MathConstant :=
  the [] main_tasks.CONSTANTS.

(** The condition for popping the stack top as the specification
    words it: by the precedences, and on a tie by the associativity
    of the operator on top of the stack. *)
Definition claimed_pop (incoming top : BinaryOperator) : Prop :=
  precedence top > precedence incoming
  ∨ (precedence top = precedence incoming
     ∧ (associativity top = LEFT ∨ associativity top = SPECIAL)).

(** The condition as the program has it: on a tie the associativity
    of the incoming operator decides. *)
Definition pops (incoming top : BinaryOperator) : Prop :=
  precedence top > precedence incoming
  ∨ (precedence top = precedence incoming
     ∧ (associativity incoming = LEFT ∨ associativity incoming = SPECIAL)).

(** Two operators of one precedence: [a] groups to the right, [b] to
    the left, and a registry that holds both. *)
Definition right_a : BinaryOperator :=
  {| binary_function := {| token := "a"; operation := fun _ => Ok (PyInt 0); n_var := 2 |};
     precedence := 1; associativity := RIGHT |}.
Definition left_b : BinaryOperator :=
  {| binary_function := {| token := "b"; operation := fun _ => Ok (PyInt 0); n_var := 2 |};
     precedence := 1; associativity := LEFT |}.
Definition two_operators : MathEvaluator :=
  fst (add_operator (fst (add_operator empty_evaluator (Binary right_a))) (Binary left_b)).

(** The subtraction of the standard registry. *)
Definition subtraction : NVarMathFunction :=
  {| token := "-"; operation := main_tasks.binary_call sub; n_var := 2 |}.

(** The implicit operation, when set, is one of the registered
    operators.  Every registry made by the constructor and changed by
    the [add_] methods and the setter is of this kind. *)
Definition implicit_registered (self : MathEvaluator) : bool :=
  match _implicit_operation self with
  | Some op => has_key (_operators self) (operator_token op)
  | None => true
  end.

(** Every operator is filed under its own token. *)
Definition keyed (self : MathEvaluator) : Prop :=
  ∀ key op, _operators self !! key = Some op → operator_token op = key.

(** What may be on the output, and on the operator stack. *)
Definition on_output (token : string) : Prop := structural token = false.
Definition on_stack (token : string) : Prop := token = "(" ∨ structural token = false.

(** The registrations that put a structural token into the output:
    ['('] as a constant or a function, [')'] or [','] as a constant,
    a function or an operator. *)
Definition registers_structural (self : MathEvaluator) : bool :=
  has_key (_constants self) "(" || has_key (_functions self) "("
  || has_key (_constants self) ")" || has_key (_functions self) ")"
  || has_key (_operators self) ")"
  || has_key (_constants self) "," || has_key (_functions self) ","
  || has_key (_operators self) ",".

(** A registry whose only symbol is a constant named ['(']. *)
Definition paren_constant : MathEvaluator :=
  fst (add_constant empty_evaluator {| const_token := "("; value := PyInt 1 |}).

(** *** The order in which the tokenizer visits the tokens

    A test, for one input string, that the first loop of the
    tokenizer ends in the same string in whatever order the tokens
    are visited, each token once. *)

(** Isolating the token leaves the string as it is. *)
Definition unchanged (s token : string) : bool :=
  match isolate s token with
  | Ok s' => String.eqb s' s
  | Raise _ => false
  end.

(** The tokens [others] change neither [s] nor any string reached
    from [s] by isolating tokens of [active], each at most once. *)
Fixpoint stable (fuel : nat) (active others : list string) (s : string) : bool :=
  forallb (unchanged s) others
  && match fuel with
     | O => true
     | S fuel' =>
         forallb (fun t => match isolate s t with
                           | Ok s' => stable fuel' (filter (fun x => x ≠ t) active) others s'
                           | Raise _ => true
                           end) active
     end.

(** Every order of the tokens [tokens] takes [string] to [final]. *)
Definition orders_agree (tokens : list string) (string final : string) : bool :=
  forallb (fun order => match isolate_each order string with
                        | Ok s' => String.eqb s' final
                        | Raise _ => false
                        end) (permutations tokens).

Definition order_independent (self : MathEvaluator) (string final : string) : bool :=
  let tokens := elements (recognised_tokens self) in
  let active := List.filter (fun t => negb (unchanged string t)) tokens in
  let others := List.filter (unchanged string) tokens in
  stable (length active) active others string
  && orders_agree (filter (fun t => t ∈ active) tokens) string final.

(** The associativity of the unary operator filed under a token. *)
Definition unary_associativity_of (self : MathEvaluator) (token : string)
    : option Associativity :=
  match _operators self !! token with
  | Some (Unary u) => Some (unary_associativity u)
  | _ => None
  end.

(** The tokens in the order in which the model's set lists them. *)
Definition listed_order (self : MathEvaluator) : list string :=
  elements (recognised_tokens self).

(** A token of a template that [func_operation] leaves alone. *)
Definition no_placeholder (token : string) : Prop := take 2 token ≠ "x_".

(** The template of [f(x_1, x_2) = x_1 + x_2 * 2], and what is left
    of it after the call with 3 and 4. *)
Definition template : list string := ["x_1"; "x_2"; "2"; "*"; "+"].
Definition template_after_3_4 : list string := ["3.0"; "4.0"; "2"; "*"; "+"].

(** The standard registry with one more constant, named [inf]. *)
Definition inf_constant : MathConstant :=
  {| const_token := "inf"; value := PyFloat infinity |}.
Definition inf_registry : MathEvaluator :=
  fst (add_constant (standard unavailable) inf_constant).

(** The number of variables after a sequence of presses of the
    plus ([true]) and minus ([false]) buttons. *)
Definition presses (clicks : list bool) (no_of_variables : Z) : Z :=
  fold_left (fun n add => main_tasks.update_dummy_var add n) clicks no_of_variables.

(** The string without its whitespace characters. *)
Fixpoint squeeze (s : string) : string :=
  match s with
  | EmptyString => EmptyString
  | String c s' => if isspace c then squeeze s' else String c (squeeze s')
  end.

(** The string has no whitespace character. *)
Fixpoint blank_free (s : string) : bool :=
  match s with
  | EmptyString => true
  | String c s' => negb (isspace c) && blank_free s'
  end.

(** An operand of the converter: a numeric literal or a registered
    constant. *)
Definition operand (self : MathEvaluator) (token : string) : bool :=
  is_numeric token || has_key (_constants self) token.

(** The number of entries of the list that are the token. *)
Definition occurrences (token : string) (tokens : list string) : nat :=
  length (List.filter (String.eqb token) tokens).

(** What a token of a postfix list adds to the height of the value
    stack: a symbol takes its operands and leaves one value, any other
    token leaves one value. *)
Definition net (self : MathEvaluator) (char : string) : Z :=
  match lookup_symbol self char with
  | Some refer => 1 - Z.of_nat (Z.to_nat (n_var refer))
  | None => 1
  end.

Definition height (self : MathEvaluator) (expr : list string) : Z :=
  foldr (fun char h => net self char + h) 0 expr.

(** The character [x] does not occur in the string. *)
Fixpoint x_free (s : string) : bool :=
  match s with
  | EmptyString => true
  | String c s' => negb (Ascii.eqb c "x") && x_free s'
  end.

(** The token occurs in the token list, or it is the token of the
    implicit operation. *)
Definition from_input (self : MathEvaluator) (substr : list string) (t : string) : Prop :=
  t ∈ substr ∨ ∃ op, _implicit_operation self = Some op ∧ t = operator_token op.

(** The token is none of the converter's: not numeric, not
    registered, not structural. *)
Definition unrecognised (self : MathEvaluator) (t : string) : Prop :=
  is_numeric t = false ∧ (t ∉ recognised_tokens self) ∧ structural t = false.

(** The token names the operator, and nothing that the converter
    looks for before it looks for an operator. *)
Definition names_operator (self : MathEvaluator) (o : string) (op : Operator) : Prop :=
  is_numeric o = false ∧ has_key (_constants self) o = false
  ∧ has_key (_functions self) o = false ∧ _operators self !! o = Some op ∧ o ≠ "(".

(** The token names a function, and nothing that the converter looks
    for before it looks for a function. *)
Definition names_function (self : MathEvaluator) (f : string) : Prop :=
  is_numeric f = false ∧ has_key (_constants self) f = false
  ∧ has_key (_functions self) f = true.

(** Every symbol of the registry is filed under its own token, in
    each of the three maps. *)
Definition filed (self : MathEvaluator) : Prop :=
  map_Forall (fun key op => operator_token op = key) (_operators self)
  ∧ map_Forall (fun key func => token func = key) (_functions self)
  ∧ map_Forall (fun key c => const_token c = key) (_constants self).

(** The second registry has every token of the first, for a symbol
    of the same kind. *)
Definition covers (small big : MathEvaluator) : Prop :=
  dom (_operators small) ⊆ dom (_operators big)
  ∧ dom (_functions small) ⊆ dom (_functions big)
  ∧ dom (_constants small) ⊆ dom (_constants big).

(** An operator named ['('], of higher precedence than [a] and [b],
    and the registry that holds it besides them. *)
Definition open_operator : BinaryOperator :=
  {| binary_function := {| token := "("; operation := fun _ => Ok (PyInt 0); n_var := 2 |};
     precedence := 2; associativity := LEFT |}.
Definition three_operators : MathEvaluator :=
  fst (add_operator two_operators (Binary open_operator)).

(** The token names the symbol [refer] to the evaluator: an operator
    filed under the token or, when there is none, a function. *)
Definition names_symbol (self : MathEvaluator) (char : string)
    (refer : NVarMathFunction) : Prop :=
  (∃ op, _operators self !! char = Some op ∧ refer = as_function op)
  ∨ (_operators self !! char = None ∧ _functions self !! char = Some refer).

(** The computation fails for a lack of operands. *)
Definition fails_insufficient {A} (r : result A) : Prop :=
  ∃ token, r = Raise (InsufficientOperands token).

(** The failure for a lack of operands as the specification words it:
    reading a symbol fails in this way exactly when the stack holds
    fewer values than the arity of the symbol. *)
Definition claimed_insufficient (self : MathEvaluator) (char : string)
    (values : list NumericType) : Prop :=
  ∀ refer, names_symbol self char refer →
  (fails_insufficient (evaluate_token self char values)
   ↔ (length values < Z.to_nat (n_var refer))%nat).

(** The function object that the function tab registers for [f]: an
    [NVF] of the name and the number of variables whose operation
    passes its arguments to [func_operation] with the list
    [func_expr].  This is the function as its first call runs, the
    list still holding its placeholders; [my_eval] is the main
    evaluator that the call reads. *)
Definition registered (my_eval : MathEvaluator) (f : main_tasks.UserFunction)
    : NVarMathFunction :=
  {| token := main_tasks.name f;
     operation := fun args =>
       snd (main_tasks.func_operation my_eval args (main_tasks.func_expr f));
     n_var := main_tasks.no_of_variables f |}.

(** [g(x_1) = x_1 +], a function of one variable whose expression
    lacks an operand, and the main evaluator once the function tab has
    added it. *)
Definition underfed : main_tasks.UserFunction :=
  {| main_tasks.name := "g"; main_tasks.no_of_variables := 1;
     main_tasks.func_expr := ["x_1"; "+"] |}.
Definition with_underfed : MathEvaluator :=
  fst (add_function (standard unavailable) (registered (standard unavailable) underfed)).

(** The standard registry with a function of two operands under the
    token of the sine. *)
Definition two_place_sine : MathEvaluator :=
  fst (add_function (standard unavailable) second_sine).

(** ** The runtime model on known values

    The conversions between strings and floats, on inputs for which
    CPython's answers are known. *)

Section Runtime.

Lemma float_of_str_values :
  List.map float_of_str ["3"; "3.0"; " 3 "; "0.1"; "1e22"; "1_0"; ".5"; "5."; "1e999"; "-inf"]
  = [Ok 0x1.8p+1%float; Ok 0x1.8p+1%float; Ok 0x1.8p+1%float;
     Ok 0x1.999999999999ap-4%float; Ok 0x1.0f0cf064dd592p+73%float;
     Ok 0x1.4p+3%float; Ok 0x1p-1%float; Ok 0x1.4p+2%float;
     Ok infinity; Ok neg_infinity].
Proof. vm_compute. reflexivity. Qed.

Lemma float_of_str_refused :
  List.map is_numeric ["("; ")"; ","; ""; "."; "e5"; "1e"; "1__0"; "_1"; "1_"; "0x10"; "pi"; "x_1"]
  = List.map (fun _ => false) (seq 0 13).
Proof. vm_compute. reflexivity. Qed.

Lemma str_values :
  List.map str [PyFloat 0x1.8p+1; PyFloat 0x1p+2; PyFloat 0x1.999999999999ap-4;
                PyFloat 0x1.5555555555555p-2; PyFloat 0x1.1c37937e08p+53;
                PyFloat 0x1.c6bf52634p+49; PyFloat 0x1.4f8b588e368f1p-17;
                PyFloat 0x1.0000000000001p+50; PyFloat neg_zero; PyInt 6; PyInt (-5)]
  = ["3.0"; "4.0"; "0.1"; "0.3333333333333333"; "1e+16"; "1000000000000000.0";
     "1e-05"; "1125899906842624.2"; "-0.0"; "6"; "-5"].
Proof. vm_compute. reflexivity. Qed.

Lemma string_methods :
  split "abab" "ab" = Ok [""; ""; ""]
  ∧ split "aaa" "aa" = Ok [""; "a"]
  ∧ join " ! " ["3"; ""] = "3 ! "
  ∧ split_whitespace "  cos ( pi + 2 )  " = ["cos"; "("; "pi"; "+"; "2"; ")"]
  ∧ contains "pi" "2pi" = true ∧ contains "" "" = true
  ∧ str_lower "Sin(PI)" = "sin(pi)".
Proof. repeat split; vm_compute; reflexivity. Qed.

Lemma factorial_values :
  List.map main_tasks._factorial [PyFloat 0x1.8p+1; PyFloat 0; PyFloat 0x1.4p+2; PyFloat 0x1p-1]
  = [Ok (PyInt 6); Ok (PyInt 1); Ok (PyInt 120); Raise (TypeError "")].
Proof. vm_compute. reflexivity. Qed.

End Runtime.

(** ** The registry *)

Section Registry.
Implicit Types (self : MathEvaluator) (func : NVarMathFunction) (constant : MathConstant).

Lemma has_key_true {A} (d : gmap string A) key : has_key d key = true ↔ is_Some (d !! key).
Proof.
  unfold has_key. destruct (d !! key); split; intros H; eauto.
  - discriminate.
  - destruct H as [? H]. discriminate.
Qed.

(** The two evaluators of [main_tasks.py] are built without an
    exception. *)
Lemma returns_the {A} (default : A) (r : result A) : returns r = true → r = Ok (the default r).
Proof. by destruct r. Qed.

Lemma my_eval_built ext : main_tasks.my_eval ext = Ok (standard ext).
Proof. apply returns_the. vm_compute. reflexivity. Qed.

Lemma func_eval_built ext : main_tasks.func_eval ext = Ok (authoring ext).
Proof. apply returns_the. vm_compute. reflexivity. Qed.

(** The symbols used as examples below are what the constructors
    return. *)
Lemma examples_constructed :
  NVarMathFunction_init "sin" (fun _ => Ok (PyInt 0)) 2 = Ok second_sine
  ∧ NVarMathFunction_init "+" (fun _ => Ok (PyInt 0)) 2 = Ok plus_function
  ∧ BinaryOperator_init "a" (fun _ => Ok (PyInt 0)) 1 "right" = Ok right_a
  ∧ BinaryOperator_init "b" (fun _ => Ok (PyInt 0)) 1 "left" = Ok left_b
  ∧ MathConstant_init "inf" (PyFloat infinity) = Ok inf_constant
  ∧ snd (add_constant empty_evaluator {| const_token := "("; value := PyInt 1 |}) = Ok tt
  ∧ snd (add_constant (standard unavailable) inf_constant) = Ok tt.
Proof. repeat split; reflexivity. Qed.

(** [add_function] consults the operators: it raises exactly when
    the token names an operator, whatever the functions hold. *)
Lemma add_function_raises self func :
  raises (snd (add_function self func)) ↔ is_Some (_operators self !! token func).
Proof.
  unfold add_function. rewrite <- has_key_true.
  destruct (has_key (_operators self) (token func)); simpl; split.
  - done.
  - intros _. by eexists.
  - intros [e He]. discriminate.
  - done.
Qed.


(** C1 (the code departs from the claim).  The main evaluator holds
    the function [sin] and the operator [+].  Adding a second
    function under the token [sin] succeeds and replaces the first,
    although the token is in the function map; adding a function
    under the token [+] fails as a duplicate, although the function
    map has no such token. *)
Theorem C1_add_function_consults_operators (ext : main_tasks.External) :
  (n_var <$> _functions (standard ext) !! "sin" = Some 1
   ∧ snd (add_function (standard ext) second_sine) = Ok tt
   ∧ n_var <$> _functions (fst (add_function (standard ext) second_sine)) !! "sin" = Some 2)
  ∧ (_functions (standard ext) !! "+" = None
     ∧ snd (add_function (standard ext) plus_function) = Raise (DuplicateSymbol "Function" "+")).
Proof. repeat split; vm_compute; reflexivity. Qed.

(** C7.  In a registry that holds a constant under a token, adding a
    second constant under that token raises the duplicate error, the
    registry after the call is the registry before it, and the token
    still resolves to the first constant. *)
Theorem C7_add_constant_duplicate self constant (first : MathConstant) :
  _constants self !! const_token constant = Some first →
  add_constant self constant
    = (self, Raise (DuplicateSymbol "Constant" (const_token constant)))
  ∧ _constants (fst (add_constant self constant)) !! const_token constant = Some first.
Proof.
  intros Hfirst. unfold add_constant, has_key. rewrite Hfirst. simpl. done.
Qed.

Lemma C7_add_constant_duplicate_witness :
  let first := {| const_token := "pi"; value := PyFloat main_tasks.pi |} in
  let second := {| const_token := "pi"; value := PyInt 3 |} in
  let self := fst (add_constant empty_evaluator first) in
  _constants self !! "pi" = Some first
  ∧ add_constant self second = (self, Raise (DuplicateSymbol "Constant" "pi"))
  ∧ value <$> _constants (fst (add_constant self second)) !! "pi"
    = Some (PyFloat main_tasks.pi).
Proof.
  intros first second self.
  assert (H : _constants self !! const_token second = Some first) by reflexivity.
  split; [exact H|].
  destruct (C7_add_constant_duplicate self second first H) as [Hcall Hkept].
  split; [exact Hcall|].
  simpl in Hkept. rewrite Hkept. reflexivity.
Defined.

(** The loops of the constructor: what each leaves in the operators. *)
Lemma add_each_operator_lookup ops : ∀ self self' tok,
  add_each add_operator self ops = Ok self' →
  tok ∉ (operator_token <$> ops) →
  _operators self' !! tok = _operators self !! tok.
Proof.
  induction ops as [|op ops IH]; intros self self' tok Hadd Hnot; simpl in *.
  - by inversion Hadd.
  - apply not_elem_of_cons in Hnot as [Hne Hnot].
    unfold add_operator in Hadd.
    destruct (has_key (_operators self) (token (as_function op))); [discriminate|].
    rewrite (IH _ _ _ Hadd Hnot). simpl.
    apply lookup_insert_ne. unfold operator_token in Hne. congruence.
Qed.

Lemma add_each_function_operators fns : ∀ self self',
  add_each add_function self fns = Ok self' → _operators self' = _operators self.
Proof.
  induction fns as [|f fns IH]; intros self self' Hadd; simpl in *.
  - by inversion Hadd.
  - unfold add_function in Hadd.
    destruct (has_key (_operators self) (token f)); [discriminate|].
    by rewrite (IH _ _ Hadd).
Qed.

Lemma add_each_constant_operators cs : ∀ self self',
  add_each add_constant self cs = Ok self' → _operators self' = _operators self.
Proof.
  induction cs as [|c cs IH]; intros self self' Hadd; simpl in *.
  - by inversion Hadd.
  - unfold add_constant in Hadd.
    destruct (has_key (_constants self) (const_token c)); [discriminate|].
    by rewrite (IH _ _ Hadd).
Qed.

(** C9.  Whenever the constructor accepts the three lists of symbols
    at all, it also accepts them with an implicit operation token
    that none of the operators carries, and leaves the implicit
    operation unset; the setter, given the same token on the
    evaluator so built, raises the unknown-symbol error and leaves the
    evaluator as it was. *)
Theorem C9_unknown_implicit_token ops fns cs (tok tok' : string) (built : MathEvaluator) :
  MathEvaluator_init ops fns cs tok' = Ok built →
  tok ∉ (operator_token <$> ops) →
  ∃ self, MathEvaluator_init ops fns cs tok = Ok self
          ∧ _implicit_operation self = None
          ∧ implicit_operation_setter self tok = (self, Raise (UnknownSymbol tok)).
Proof.
  unfold MathEvaluator_init. intros Hbuilt Hnot.
  destruct (add_each add_operator empty_evaluator ops) as [s1|] eqn:H1; [|discriminate].
  simpl in *.
  destruct (add_each add_function s1 fns) as [s2|] eqn:H2; [|discriminate].
  simpl in *.
  destruct (add_each add_constant s2 cs) as [s3|] eqn:H3; [|discriminate].
  simpl in *.
  assert (Hnone : _operators s3 !! tok = None).
  { rewrite (add_each_constant_operators _ _ _ H3), (add_each_function_operators _ _ _ H2),
      (add_each_operator_lookup _ _ _ _ H1 Hnot). apply lookup_empty. }
  eexists. split; [reflexivity|]. rewrite Hnone. split; [reflexivity|].
  unfold implicit_operation_setter. simpl. rewrite Hnone. reflexivity.
Qed.


Lemma C9_unknown_implicit_token_witness :
  let ops := standard_operators unavailable in
  let fns := standard_functions unavailable in
  let cs := standard_constants in
  MathEvaluator_init ops fns cs "*" = Ok (standard unavailable)
  ∧ ("#" ∉ (operator_token <$> ops))
  ∧ (∃ self, MathEvaluator_init ops fns cs "#" = Ok self
             ∧ _implicit_operation self = None
             ∧ implicit_operation_setter self "#" = (self, Raise (UnknownSymbol "#"))).
Proof.
  intros ops fns cs.
  assert (H1 : MathEvaluator_init ops fns cs "*" = Ok (standard unavailable))
    by reflexivity.
  assert (H2 : "#" ∉ (operator_token <$> ops))
    by (apply (bool_decide_unpack _); vm_compute; reflexivity).
  split; [exact H1|]. split; [exact H2|].
  exact (C9_unknown_implicit_token ops fns cs "#" "*" (standard unavailable) H1 H2).
Defined.

(** *** What the constructors and the methods maintain *)

Lemma NVarMathFunction_init_token t op n func :
  NVarMathFunction_init t op n = Ok func → token func = t ∧ t ≠ "".
Proof.
  unfold NVarMathFunction_init. destruct (String.eqb t "") eqn:Ht; [discriminate|].
  destruct (n <? 1); [discriminate|]. intros H. inversion H; subst. simpl.
  split; [done|]. by apply String.eqb_neq.
Qed.

Lemma UnaryOperator_init_token t op a u :
  UnaryOperator_init t op a = Ok u → operator_token (Unary u) ≠ "".
Proof.
  unfold UnaryOperator_init, SingleVarMathFunction_init, bind.
  destruct (if String.eqb a "left" then _ else _); [|discriminate].
  destruct (NVarMathFunction_init t op 1) as [func|] eqn:Hf; [|discriminate].
  intros H. inversion H; subst. unfold operator_token. simpl.
  apply NVarMathFunction_init_token in Hf as [-> Hne]. done.
Qed.

Lemma BinaryOperator_init_token t op p a b :
  BinaryOperator_init t op p a = Ok b → operator_token (Binary b) ≠ "".
Proof.
  unfold BinaryOperator_init, bind.
  destruct (if String.eqb a "left" then _ else _); [|discriminate].
  destruct (NVarMathFunction_init t op 2) as [func|] eqn:Hf; [|discriminate].
  intros H. inversion H; subst. unfold operator_token. simpl.
  apply NVarMathFunction_init_token in Hf as [-> Hne]. done.
Qed.

Lemma MathConstant_init_token t v constant :
  MathConstant_init t v = Ok constant → const_token constant ≠ "".
Proof.
  unfold MathConstant_init. destruct (String.eqb t "") eqn:Ht; [discriminate|].
  intros H. inversion H; subst. simpl. by apply String.eqb_neq.
Qed.

(** No method files a symbol under a token other than its own, so
    the empty string never becomes a recognised token. *)
Lemma add_operator_tokens self op :
  recognised_tokens (fst (add_operator self op))
  ⊆ recognised_tokens self ∪ {[operator_token op]}.
Proof.
  unfold add_operator, recognised_tokens, operator_token.
  destruct (has_key _ _); simpl; intros x Hx.
  - apply elem_of_union. by left.
  - rewrite dom_insert_L in Hx. rewrite !elem_of_union in Hx. rewrite !elem_of_union. tauto.
Qed.

Lemma add_function_tokens self func :
  recognised_tokens (fst (add_function self func))
  ⊆ recognised_tokens self ∪ {[token func]}.
Proof.
  unfold add_function, recognised_tokens.
  destruct (has_key _ _); simpl; intros x Hx.
  - apply elem_of_union. by left.
  - rewrite dom_insert_L in Hx. rewrite !elem_of_union in Hx. rewrite !elem_of_union. tauto.
Qed.

Lemma add_constant_tokens self constant :
  recognised_tokens (fst (add_constant self constant))
  ⊆ recognised_tokens self ∪ {[const_token constant]}.
Proof.
  unfold add_constant, recognised_tokens.
  destruct (has_key _ _); simpl; intros x Hx.
  - apply elem_of_union. by left.
  - rewrite dom_insert_L in Hx. rewrite !elem_of_union in Hx. rewrite !elem_of_union. tauto.
Qed.

Lemma add_operator_keyed self op : keyed self → keyed (fst (add_operator self op)).
Proof.
  unfold add_operator, keyed. intros Hkeyed key op'.
  destruct (has_key _ _); simpl; [apply Hkeyed|].
  rewrite lookup_insert. case_decide as Heq.
  - intros H. inversion H; subst. done.
  - apply Hkeyed.
Qed.

Lemma add_operator_implicit self op :
  implicit_registered self = true → implicit_registered (fst (add_operator self op)) = true.
Proof.
  unfold add_operator, implicit_registered.
  destruct (has_key (_operators self) _) eqn:Hhas; simpl; [done|].
  destruct (_implicit_operation self) as [imp|]; [|done].
  unfold has_key. rewrite lookup_insert. case_decide; [done|]. done.
Qed.

Lemma add_function_implicit self func :
  implicit_registered self = true → implicit_registered (fst (add_function self func)) = true.
Proof. unfold add_function, implicit_registered. by destruct (has_key _ _). Qed.

Lemma add_constant_implicit self constant :
  implicit_registered self = true → implicit_registered (fst (add_constant self constant)) = true.
Proof. unfold add_constant, implicit_registered. by destruct (has_key _ _). Qed.

Lemma setter_implicit self tok :
  keyed self → implicit_registered self = true →
  implicit_registered (fst (implicit_operation_setter self tok)) = true.
Proof.
  unfold implicit_operation_setter, implicit_registered. intros Hkeyed Hreg.
  destruct (_operators self !! tok) as [op|] eqn:Hop; simpl; [|done].
  rewrite (Hkeyed _ _ Hop). unfold has_key. by rewrite Hop.
Qed.

Lemma add_each_operator_keyed ops : ∀ self self',
  add_each add_operator self ops = Ok self' → keyed self → keyed self'.
Proof.
  induction ops as [|op ops IH]; intros self self' Hadd Hkeyed; simpl in Hadd.
  - by inversion Hadd; subst.
  - pose proof (add_operator_keyed self op Hkeyed) as Hstep.
    destruct (add_operator self op) as [self1 [[]|]]; [|discriminate].
    exact (IH _ _ Hadd Hstep).
Qed.

(** The constructor builds a registry in which the operators are
    filed under their tokens and the implicit operation is one of
    them. *)
Lemma MathEvaluator_init_registered ops fns cs tok self :
  MathEvaluator_init ops fns cs tok = Ok self →
  keyed self ∧ implicit_registered self = true.
Proof.
  unfold MathEvaluator_init. intros Hbuilt.
  destruct (add_each add_operator empty_evaluator ops) as [s1|] eqn:H1; [|discriminate].
  simpl in Hbuilt.
  destruct (add_each add_function s1 fns) as [s2|] eqn:H2; [|discriminate].
  simpl in Hbuilt.
  destruct (add_each add_constant s2 cs) as [s3|] eqn:H3; [|discriminate].
  simpl in Hbuilt. inversion Hbuilt; subst. clear Hbuilt.
  assert (Hkeyed : keyed s3).
  { unfold keyed.
    rewrite (add_each_constant_operators _ _ _ H3), (add_each_function_operators _ _ _ H2).
    apply (add_each_operator_keyed _ _ _ H1). intros key op Hop.
    simpl in Hop. by rewrite lookup_empty in Hop. }
  split; [exact Hkeyed|].
  unfold implicit_registered. simpl.
  destruct (_operators s3 !! tok) as [op|] eqn:Hop; [|done].
  rewrite (Hkeyed _ _ Hop). unfold has_key. by rewrite Hop.
Qed.

Lemma add_each_tokens {A} (add : MathEvaluator → A → MathEvaluator * result unit)
    (tok : A → string) :
  (∀ self x, recognised_tokens (fst (add self x)) ⊆ recognised_tokens self ∪ {[tok x]}) →
  ∀ xs self self', add_each add self xs = Ok self' →
  Forall (fun x => tok x ≠ "") xs →
  "" ∉ recognised_tokens self → "" ∉ recognised_tokens self'.
Proof.
  intros Hstep. induction xs as [|x xs IH]; intros self self' Hadd Hall Hnot; simpl in Hadd.
  - by inversion Hadd; subst.
  - inversion Hall as [|? ? Hx Hxs]; subst.
    pose proof (Hstep self x) as Hsub.
    destruct (add self x) as [self1 [[]|]]; [|discriminate].
    apply (IH _ _ Hadd Hxs). intros Hin. apply Hsub in Hin.
    apply elem_of_union in Hin as [Hin|Hin]; [done|].
    apply elem_of_singleton in Hin. done.
Qed.

(** Symbols made by the constructors have non-empty tokens, and a
    registry built from such symbols has no empty token. *)
Lemma MathEvaluator_init_nonempty ops fns cs tok self :
  Forall (fun op => operator_token op ≠ "") ops →
  Forall (fun func => token func ≠ "") fns →
  Forall (fun constant => const_token constant ≠ "") cs →
  MathEvaluator_init ops fns cs tok = Ok self →
  "" ∉ recognised_tokens self.
Proof.
  unfold MathEvaluator_init. intros Hops Hfns Hcs Hbuilt.
  destruct (add_each add_operator empty_evaluator ops) as [s1|] eqn:H1; [|discriminate].
  simpl in Hbuilt.
  destruct (add_each add_function s1 fns) as [s2|] eqn:H2; [|discriminate].
  simpl in Hbuilt.
  destruct (add_each add_constant s2 cs) as [s3|] eqn:H3; [|discriminate].
  simpl in Hbuilt. inversion Hbuilt; subst. clear Hbuilt.
  change (recognised_tokens (set_implicit_operation s3 (_operators s3 !! tok)))
    with (recognised_tokens s3).
  apply (add_each_tokens _ _ add_constant_tokens _ _ _ H3 Hcs).
  apply (add_each_tokens _ _ add_function_tokens _ _ _ H2 Hfns).
  apply (add_each_tokens _ _ add_operator_tokens _ _ _ H1 Hops).
  unfold recognised_tokens. simpl. rewrite !dom_empty_L, !elem_of_union.
  intros [[H|H]|H]; by apply elem_of_empty in H.
Qed.

End Registry.

(** ** The tokenizer *)

Section Tokenizer.

Lemma unchanged_spec (s t : string) : unchanged s t = true → isolate s t = Ok s.
Proof.
  unfold unchanged. destruct (isolate s t) as [s'|]; [|discriminate].
  intros H. by apply String.eqb_eq in H as ->.
Qed.

Lemma length_filter_lt (t : string) (active : list string) :
  t ∈ active → (length (filter (fun x => x ≠ t) active) < length active)%nat.
Proof.
  induction active as [|a active IH]; intros Hin; [by apply elem_of_nil in Hin|].
  rewrite filter_cons. case_decide as Hne.
  - apply elem_of_cons in Hin as [->|Hin]; [done|]. simpl. specialize (IH Hin). lia.
  - simpl. pose proof (length_filter (fun x => x ≠ t) active). lia.
Qed.

Lemma filter_agree (P Q : string → Prop) `{!∀ x, Decision (P x), !∀ x, Decision (Q x)}
    (l : list string) :
  (∀ x, x ∈ l → P x ↔ Q x) → filter P l = filter Q l.
Proof.
  induction l as [|a l IH]; intros Hiff; [done|].
  rewrite !filter_cons.
  assert (Ha : P a ↔ Q a) by (apply Hiff; by left).
  assert (Hl : filter P l = filter Q l) by (apply IH; intros x Hx; apply Hiff; by right).
  rewrite Hl. repeat case_decide; tauto.
Qed.

(** Tokens that change no string on the way can be left out. *)
Lemma isolate_each_stable others : ∀ order fuel active (s : string),
  stable fuel active others s = true →
  (length active ≤ fuel)%nat →
  NoDup order →
  (∀ t, t ∈ order → t ∈ active ∨ t ∈ others) →
  isolate_each order s = isolate_each (filter (fun t => t ∈ active) order) s.
Proof.
  induction order as [|t order IH]; intros fuel active s Hstable Hfuel Hnodup Hin; [done|].
  apply NoDup_cons in Hnodup as [Hfresh Hnodup].
  rewrite filter_cons. cbn [isolate_each]. case_decide as Hactive.
  - cbn [isolate_each]. destruct (isolate s t) as [s'|] eqn:Hstep; [|done]. simpl.
    destruct fuel as [|fuel].
    { destruct active; [by apply elem_of_nil in Hactive|simpl in Hfuel; lia]. }
    cbn [stable] in Hstable. apply andb_true_iff in Hstable as [_ Hstable].
    rewrite forallb_forall in Hstable.
    specialize (Hstable t (proj1 (list_elem_of_In _ _) Hactive)). rewrite Hstep in Hstable.
    rewrite (IH fuel (filter (fun x => x ≠ t) active) s' Hstable).
    + apply (f_equal (fun l => isolate_each l s')). apply filter_agree. intros x Hx.
      rewrite list_elem_of_filter. split; [tauto|]. intros Hxa. split; [|done].
      intros ->. done.
    + pose proof (length_filter_lt t active Hactive). lia.
    + done.
    + intros x Hx. destruct (Hin x) as [Hxa|Hxo]; [by right| |by right].
      left. apply list_elem_of_filter. split; [|done]. intros ->. done.
  - destruct (Hin t) as [Ht|Ht]; [by left|done|].
    assert (Hsame : isolate s t = Ok s).
    { apply unchanged_spec. destruct fuel; cbn [stable] in Hstable;
        apply andb_true_iff in Hstable as [Hall _]; rewrite forallb_forall in Hall;
        apply Hall, list_elem_of_In, Ht. }
    rewrite Hsame. simpl. apply (IH fuel active s Hstable Hfuel Hnodup).
    intros x Hx. apply Hin. by right.
Qed.

Lemma orders_agree_spec tokens (string final : string) order :
  orders_agree tokens string final = true → order ≡ₚ tokens →
  isolate_each order string = Ok final.
Proof.
  unfold orders_agree. rewrite forallb_forall. intros Hall Hperm.
  assert (Hin : order ∈ permutations tokens) by by apply permutations_Permutation.
  specialize (Hall order (proj1 (list_elem_of_In _ _) Hin)).
  destruct (isolate_each order string) as [s'|]; [|discriminate].
  by apply String.eqb_eq in Hall as ->.
Qed.

(** The first loop of the tokenizer comes to [final] in every
    iteration order, once the test has been run. *)
Lemma isolate_each_any_order self (string final : string) order :
  order_independent self string final = true →
  iteration_order self order →
  isolate_each order string = Ok final.
Proof.
  unfold order_independent, iteration_order.
  set (tokens := elements (recognised_tokens self)).
  set (active := List.filter _ tokens). set (others := List.filter _ tokens).
  rewrite andb_true_iff. intros [Hstable Hagree] Hperm.
  rewrite (isolate_each_stable others order (length active) active string Hstable).
  - apply (orders_agree_spec _ _ _ _ Hagree). by rewrite Hperm.
  - done.
  - rewrite Hperm. apply NoDup_elements.
  - intros t Ht. rewrite Hperm in Ht. apply list_elem_of_In in Ht.
    destruct (unchanged string t) eqn:Hu.
    + right. apply list_elem_of_In, filter_In. done.
    + left. apply list_elem_of_In, filter_In. by rewrite Hu.
Qed.

Lemma format_any_order self (string final : string) order :
  order_independent self string final = true →
  iteration_order self order →
  _shuntyard_format_string self order string
  = Ok (classify self (split_whitespace final) []).
Proof.
  intros Hind Horder. unfold _shuntyard_format_string.
  by rewrite (isolate_each_any_order _ _ _ _ Hind Horder).
Qed.

Lemma parse_any_order self (string final : string) order postfix :
  order_independent self string final = true →
  iteration_order self order →
  shunting_yard self (classify self (split_whitespace final) []) = Ok postfix →
  parse self order string = Ok postfix.
Proof.
  intros Hind Horder Hrun. unfold parse.
  by rewrite (format_any_order _ _ _ _ Hind Horder).
Qed.

Lemma listed_order_iteration self : iteration_order self (listed_order self).
Proof. unfold iteration_order, listed_order. reflexivity. Qed.

Lemma isolate_empty (t : string) : t ≠ "" → isolate "" t = Ok "".
Proof. intros Hne. unfold isolate. destruct t; [done|reflexivity]. Qed.

Lemma isolate_each_empty order : "" ∉ order → isolate_each order "" = Ok "".
Proof.
  induction order as [|t order IH]; intros Hnot; [done|].
  apply not_elem_of_cons in Hnot as [Hne Hnot].
  cbn [isolate_each]. rewrite isolate_empty by done. simpl. by apply IH.
Qed.

(** C8.  In a registry without an empty token (the constructors of
    the symbols refuse one), in whatever order the tokens are visited,
    [parse] of the empty string returns the empty list, and
    [postfit_evaluate] of the empty list returns the integer 0. *)
Theorem C8_empty_expression self (order : list string) :
  iteration_order self order →
  "" ∉ recognised_tokens self →
  parse self order "" = Ok [] ∧ postfit_evaluate self [] = Ok (PyInt 0).
Proof.
  intros Horder Hnonempty. split; [|reflexivity].
  unfold parse, _shuntyard_format_string.
  rewrite isolate_each_empty; [reflexivity|].
  unfold iteration_order in Horder. rewrite Horder. by rewrite elem_of_elements.
Qed.

Lemma C8_empty_expression_witness :
  iteration_order (standard unavailable) (listed_order (standard unavailable))
  ∧ ("" ∉ recognised_tokens (standard unavailable))
  ∧ parse (standard unavailable) (listed_order (standard unavailable)) "" = Ok []
  ∧ postfit_evaluate (standard unavailable) [] = Ok (PyInt 0).
Proof.
  assert (H1 := listed_order_iteration (standard unavailable)).
  assert (H2 : "" ∉ recognised_tokens (standard unavailable))
    by (apply (bool_decide_unpack _); vm_compute; reflexivity).
  split; [exact H1|]. split; [exact H2|].
  exact (C8_empty_expression (standard unavailable) _ H1 H2).
Defined.

End Tokenizer.

(** ** The converter *)

Section Converter.
Implicit Types (self : MathEvaluator) (incoming top : BinaryOperator).

Lemma operator_condition_binary incoming top :
  operator_condition (Binary incoming) (Binary top) = true ↔ pops incoming top.
Proof.
  unfold operator_condition, pops.
  rewrite orb_true_iff, andb_true_iff, Z.ltb_lt, Z.eqb_eq.
  destruct (associativity incoming); split.
  - intros [H|[_ H]]; [left; lia|discriminate].
  - intros [H|[_ [H|H]]]; [left; lia|discriminate..].
  - intros [H|[H _]]; [left; lia|]. right. split; [lia|by left].
  - intros [H|[H _]]; [left; lia|]. right. split; [lia|done].
  - intros [H|[H _]]; [left; lia|]. right. split; [lia|by right].
  - intros [H|[H _]]; [left; lia|]. right. split; [lia|done].
Qed.

(** C2, as the specification states it, fails: with [b] (left
    associative) on the stack and [a] (right associative, same
    precedence) coming in, the stated condition holds and the program
    does not pop. *)
Lemma C2_counterexample :
  ¬ (operator_condition (Binary right_a) (Binary left_b) = true ↔ claimed_pop right_a left_b).
Proof.
  intros [_ H]. assert (Hc : claimed_pop right_a left_b).
  { right. split; [reflexivity|]. by left. }
  specialize (H Hc). discriminate.
Qed.

(** C2, amended.  With a binary operator coming in and a binary
    operator on top of the stack that is filed under a token other
    than ['('], the top is popped to the output if and only if its
    precedence is strictly greater than the incoming operator's, or
    the precedences are equal and the incoming operator's
    associativity is LEFT or SPECIAL (both).  A top of the stack that
    reads ['('] is never popped, whatever operator is filed under that
    token. *)
Theorem C2_pop_condition self incoming top (t : string) (rest out : list string) :
  _operators self !! t = Some (Binary top) →
  (operator_condition (Binary incoming) (Binary top) = true ↔ pops incoming top)
  ∧ (t ≠ "(" → pops incoming top →
     pop_operators self (Binary incoming) (t :: rest) out
     = pop_operators self (Binary incoming) rest (out ++ [t]))
  ∧ (t ≠ "(" → ¬ pops incoming top →
     pop_operators self (Binary incoming) (t :: rest) out = Ok (t :: rest, out))
  ∧ (t = "(" →
     pop_operators self (Binary incoming) (t :: rest) out = Ok (t :: rest, out)).
Proof.
  intros Hlookup.
  split; [apply operator_condition_binary|].
  split; [|split].
  - intros Hparen Hpops. apply String.eqb_neq in Hparen.
    cbn [pop_operators]. rewrite Hparen, Hlookup.
    apply operator_condition_binary in Hpops. by rewrite Hpops.
  - intros Hparen Hpops. apply String.eqb_neq in Hparen.
    cbn [pop_operators]. rewrite Hparen, Hlookup.
    destruct (operator_condition (Binary incoming) (Binary top)) eqn:Hcond; [|done].
    apply operator_condition_binary in Hcond. by destruct Hpops.
  - intros ->. reflexivity.
Qed.

(** With [b] on the stack and [a] coming in, nothing is popped: the
    precedences are equal and [a] groups to the right.  With the
    operator ['('] on the stack and [a] coming in, the condition for
    popping holds and nothing is popped. *)
Lemma C2_pop_condition_witness :
  (_operators two_operators !! "b" = Some (Binary left_b)
   ∧ "b" ≠ "(" ∧ ¬ pops right_a left_b
   ∧ pop_operators two_operators (Binary right_a) ["b"] ["1"; "2"] = Ok (["b"], ["1"; "2"]))
  ∧ (_operators three_operators !! "(" = Some (Binary open_operator)
     ∧ pops right_a open_operator
     ∧ pop_operators three_operators (Binary right_a) ["("] ["1"; "2"]
       = Ok (["("], ["1"; "2"])).
Proof.
  assert (H1 : _operators two_operators !! "b" = Some (Binary left_b)) by reflexivity.
  assert (H2 : "b" ≠ "(") by discriminate.
  assert (H3 : ¬ pops right_a left_b).
  { unfold pops. cbn. intros [H|[_ [H|H]]]; [lia|discriminate..]. }
  assert (K1 : _operators three_operators !! "(" = Some (Binary open_operator))
    by reflexivity.
  assert (K2 : pops right_a open_operator) by (left; cbn; lia).
  split.
  - split; [exact H1|]. split; [exact H2|]. split; [exact H3|].
    destruct (C2_pop_condition two_operators right_a left_b "b" [] ["1"; "2"] H1)
      as (_ & _ & Hkeep & _).
    exact (Hkeep H2 H3).
  - split; [exact K1|]. split; [exact K2|].
    destruct (C2_pop_condition three_operators right_a open_operator "(" [] ["1"; "2"] K1)
      as (_ & _ & _ & Hparen).
    exact (Hparen eq_refl).
Defined.

(** The effect on an expression: [1 b 2 a 3] is converted with [a]
    applied first, the left-associative [b] staying on the stack when
    [a] comes in. *)
Lemma right_over_left_example :
  shunting_yard two_operators ["1"; "b"; "2"; "a"; "3"] = Ok ["1"; "2"; "3"; "a"; "b"].
Proof. vm_compute. reflexivity. Qed.


(** *** No structural token reaches the output *)

Lemma structural_cases t :
  structural t = true → t = "(" ∨ t = ")" ∨ t = ",".
Proof.
  unfold structural. rewrite !orb_true_iff, !String.eqb_eq. tauto.
Qed.

Lemma is_numeric_on_output t : is_numeric t = true → on_output t.
Proof.
  intros Hnum. unfold on_output. destruct (structural t) eqn:Hs; [|done].
  apply structural_cases in Hs as [-> | [-> | ->]]; vm_compute in Hnum; discriminate.
Qed.

Lemma key_on_output {A} (d : gmap string A) t :
  has_key d "(" = false → has_key d ")" = false → has_key d "," = false →
  has_key d t = true → on_output t.
Proof.
  intros H1 H2 H3 Ht. unfold on_output. destruct (structural t) eqn:Hs; [|done].
  apply structural_cases in Hs as [-> | [-> | ->]]; congruence.
Qed.

Lemma key_on_stack {A} (d : gmap string A) t :
  has_key d ")" = false → has_key d "," = false →
  has_key d t = true → on_stack t.
Proof.
  intros H2 H3 Ht. unfold on_stack. destruct (structural t) eqn:Hs; [|by right].
  apply structural_cases in Hs as [-> | [-> | ->]]; [by left|congruence..].
Qed.

Lemma on_stack_on_output t : on_stack t → String.eqb t "(" = false → on_output t.
Proof.
  intros [-> | H] Hne; [discriminate|done].
Qed.

Section Structural.
Context (self : MathEvaluator).
Hypothesis Hregistered : implicit_registered self = true.
Hypothesis Hplain : registers_structural self = false.

Lemma plain_keys :
  (has_key (_constants self) "(" = false ∧ has_key (_constants self) ")" = false
   ∧ has_key (_constants self) "," = false)
  ∧ (has_key (_functions self) "(" = false ∧ has_key (_functions self) ")" = false
     ∧ has_key (_functions self) "," = false)
  ∧ (has_key (_operators self) ")" = false ∧ has_key (_operators self) "," = false).
Proof.
  pose proof Hplain as H. unfold registers_structural in H.
  rewrite !orb_false_iff in H. tauto.
Qed.

Lemma check_implicit_operation_on_stack substr i opt_stack opt_stack' :
  check_implicit_operation self substr i opt_stack = Ok opt_stack' →
  Forall on_stack opt_stack → Forall on_stack opt_stack'.
Proof.
  unfold check_implicit_operation. intros Hcheck Hstack.
  destruct (i =? 0)%nat; [inversion Hcheck; subst; done|].
  destruct (substr !! (i - 1)%nat) as [previous|]; [|discriminate].
  destruct (is_numeric previous); [|inversion Hcheck; subst; done].
  pose proof Hregistered as Hreg. unfold implicit_registered in Hreg.
  destruct (_implicit_operation self) as [op|]; inversion Hcheck; subst; [|done].
  constructor; [|done].
  destruct plain_keys as (_ & _ & H2 & H3).
  exact (key_on_stack _ _ H2 H3 Hreg).
Qed.

Lemma pop_operators_invariant (incoming : Operator) : ∀ opt_stack val_stack opt_stack' val_stack',
  pop_operators self incoming opt_stack val_stack = Ok (opt_stack', val_stack') →
  Forall on_stack opt_stack → Forall on_output val_stack →
  Forall on_stack opt_stack' ∧ Forall on_output val_stack'.
Proof.
  induction opt_stack as [|top rest IH]; intros val_stack opt_stack' val_stack' Hpop Hs Ho.
  - inversion Hpop; subst. done.
  - cbn [pop_operators] in Hpop.
    destruct (String.eqb top "(") eqn:Hparen; [inversion Hpop; subst; done|].
    destruct (_operators self !! top) as [op|]; [|discriminate].
    destruct (operator_condition incoming op); [|inversion Hpop; subst; done].
    inversion Hs as [|? ? Htop Hrest]; subst.
    apply (IH _ _ _ Hpop Hrest).
    apply Forall_app. split; [done|]. constructor; [|done].
    by apply on_stack_on_output.
Qed.

Lemma pop_until_paren_invariant paren : ∀ opt_stack val_stack opt_stack' val_stack',
  pop_until_paren paren opt_stack val_stack = Ok (opt_stack', val_stack') →
  Forall on_stack opt_stack → Forall on_output val_stack →
  Forall on_stack opt_stack' ∧ Forall on_output val_stack'.
Proof.
  induction opt_stack as [|top rest IH]; intros val_stack opt_stack' val_stack' Hpop Hs Ho.
  - discriminate.
  - cbn [pop_until_paren] in Hpop.
    destruct (String.eqb top "(") eqn:Hparen; [inversion Hpop; subst; done|].
    inversion Hs as [|? ? Htop Hrest]; subst.
    apply (IH _ _ _ Hpop Hrest).
    apply Forall_app. split; [done|]. constructor; [|done].
    by apply on_stack_on_output.
Qed.

Lemma parse_token_invariant substr i (string : string) opt_stack val_stack opt_stack' val_stack' :
  parse_token self substr i string opt_stack val_stack = Ok (opt_stack', val_stack') →
  Forall on_stack opt_stack → Forall on_output val_stack →
  Forall on_stack opt_stack' ∧ Forall on_output val_stack'.
Proof.
  destruct plain_keys as ((C1 & C2 & C3) & (F1 & F2 & F3) & (O2 & O3)).
  unfold parse_token. intros Hstep Hs Ho.
  destruct (is_numeric string) eqn:Hnum.
  { inversion Hstep; subst. split; [done|].
    apply Forall_app. split; [done|]. constructor; [|done]. by apply is_numeric_on_output. }
  destruct (has_key (_constants self) string) eqn:Hconst.
  { destruct (check_implicit_operation self substr i opt_stack) as [stack1|] eqn:Hcheck;
      [|discriminate].
    inversion Hstep; subst. split.
    - by eapply check_implicit_operation_on_stack.
    - apply Forall_app. split; [done|]. constructor; [|done].
      exact (key_on_output _ _ C1 C2 C3 Hconst). }
  destruct (has_key (_functions self) string) eqn:Hfunc.
  { destruct (check_implicit_operation self substr i opt_stack) as [stack1|] eqn:Hcheck;
      [|discriminate].
    inversion Hstep; subst. split; [|done].
    constructor; [|by eapply check_implicit_operation_on_stack].
    right. exact (key_on_output _ _ F1 F2 F3 Hfunc). }
  destruct (_operators self !! string) as [incoming|] eqn:Hop.
  { destruct (pop_operators self incoming opt_stack val_stack) as [[stack1 out1]|] eqn:Hpop;
      [|discriminate].
    inversion Hstep; subst.
    destruct (pop_operators_invariant _ _ _ _ _ Hpop Hs Ho) as [Hs1 Ho1].
    split; [|done]. constructor; [|done].
    apply (key_on_stack (_operators self)); [done..|].
    unfold has_key. by rewrite Hop. }
  destruct (String.eqb string ",").
  { by eapply pop_until_paren_invariant. }
  destruct (String.eqb string "(") eqn:Hopen.
  { inversion Hstep; subst. split; [|done]. constructor; [|done].
    left. by apply String.eqb_eq. }
  destruct (String.eqb string ")"); [|discriminate].
  destruct (pop_until_paren ")" opt_stack val_stack) as [[stack1 out1]|] eqn:Hpop;
    [|discriminate].
  destruct (pop_until_paren_invariant _ _ _ _ _ Hpop Hs Ho) as [Hs1 Ho1].
  cbn [bind] in Hstep.
  assert (Htail : Forall on_stack (tail stack1)).
  { destruct stack1; [done|]. by inversion Hs1. }
  destruct (tail stack1) as [|top rest]; [inversion Hstep; subst; done|].
  destruct (has_key (_functions self) top) eqn:Htop; inversion Hstep; subst; [|done].
  inversion Htail; subst. split; [done|].
  apply Forall_app. split; [done|]. constructor; [|done].
  exact (key_on_output _ _ F1 F2 F3 Htop).
Qed.

Lemma parse_tokens_invariant substr : ∀ rest i opt_stack val_stack opt_stack' val_stack',
  parse_tokens self substr i rest opt_stack val_stack = Ok (opt_stack', val_stack') →
  Forall on_stack opt_stack → Forall on_output val_stack →
  Forall on_stack opt_stack' ∧ Forall on_output val_stack'.
Proof.
  induction rest as [|string rest IH]; intros i opt_stack val_stack opt_stack' val_stack' Hrun Hs Ho.
  - inversion Hrun; subst. done.
  - cbn [parse_tokens] in Hrun.
    destruct (parse_token self substr i string opt_stack val_stack) as [[stack1 out1]|] eqn:Hstep;
      [|discriminate].
    destruct (parse_token_invariant _ _ _ _ _ _ _ Hstep Hs Ho) as [Hs1 Ho1].
    exact (IH _ _ _ _ _ Hrun Hs1 Ho1).
Qed.

Lemma drain_invariant : ∀ opt_stack val_stack postfix,
  drain opt_stack val_stack = Ok postfix →
  Forall on_stack opt_stack → Forall on_output val_stack → Forall on_output postfix.
Proof.
  induction opt_stack as [|top rest IH]; intros val_stack postfix Hdrain Hs Ho.
  - inversion Hdrain; subst. done.
  - cbn [drain] in Hdrain.
    destruct (String.eqb top "(") eqn:Hparen; [discriminate|].
    inversion Hs as [|? ? Htop Hrest]; subst.
    apply (IH _ _ Hdrain Hrest).
    apply Forall_app. split; [done|]. constructor; [|done].
    by apply on_stack_on_output.
Qed.

Lemma shunting_yard_on_output substr postfix :
  shunting_yard self substr = Ok postfix → Forall on_output postfix.
Proof.
  unfold shunting_yard. intros Hrun.
  destruct (parse_tokens self substr 0 substr [] []) as [[stack out]|] eqn:Hscan;
    [|discriminate].
  destruct (parse_tokens_invariant _ _ _ _ _ _ _ Hscan) as [Hs Ho]; [done..|].
  by eapply drain_invariant.
Qed.

End Structural.





(** *** The implicit operation *)

(** C5, as the specification states it, fails: a constant may be
    named like a numeric literal.  With the constant [inf] in the
    standard registry, whose implicit operation is [*], the token
    [inf] read after the numeric token [2] is taken for a number, and
    nothing is pushed on the operator stack. *)
Lemma C5_counterexample :
  ¬ (has_key (_constants inf_registry) "inf" = true →
     is_numeric "2" = true →
     ∀ op, _implicit_operation inf_registry = Some op →
           parse_token inf_registry ["2"; "inf"] 1 "inf" [] ["2"]
           = Ok ([operator_token op], ["2"; "inf"])).
Proof.
  intros H.
  assert (H1 : has_key (_constants inf_registry) "inf" = true) by (vm_compute; reflexivity).
  assert (H2 : is_numeric "2" = true) by (vm_compute; reflexivity).
  assert (Hset : operator_token <$> _implicit_operation inf_registry = Some "*")
    by (vm_compute; reflexivity).
  destruct (_implicit_operation inf_registry) as [op|] eqn:Hop; [|discriminate].
  specialize (H H1 H2 op eq_refl).
  assert (Hstep : parse_token inf_registry ["2"; "inf"] 1 "inf" [] ["2"] = Ok ([], ["2"; "inf"]))
    by (vm_compute; reflexivity).
  rewrite Hstep in H. discriminate.
Qed.

(** The whole expression ["2inf"] is converted to [2 inf], without
    the multiplication. *)
Lemma inf_constant_example order :
  iteration_order inf_registry order → parse inf_registry order "2inf" = Ok ["2"; "inf"].
Proof.
  intros Horder.
  apply (parse_any_order _ _ "2 inf " _ _); [vm_compute; reflexivity|done|].
  vm_compute. reflexivity.
Qed.

(** C5, amended.  When the token read is a constant and not itself a
    numeric literal (numeric literals are recognised first), the
    token before it is numeric and an implicit operation is set, the
    converter pushes the token of the implicit operation on the
    operator stack and appends the constant to the output.  In the
    standard registry, whose implicit operation is [*], ["2pi"] is
    converted to [2 pi *] in every iteration order, and that
    evaluates to the float product of 2 and pi. *)
Theorem C5_implicit_operation_before_constant (ext : main_tasks.External)
    self (substr : list string) (j : nat) (string previous : string) (op : Operator)
    (opt_stack val_stack : list String.string) (order : list String.string) :
  is_numeric string = false →
  has_key (_constants self) string = true →
  _implicit_operation self = Some op →
  substr !! j = Some previous →
  is_numeric previous = true →
  iteration_order (standard ext) order →
  parse_token self substr (S j) string opt_stack val_stack
  = Ok (operator_token op :: opt_stack, val_stack ++ [string])
  ∧ (operator_token <$> _implicit_operation (standard ext) = Some "*"
     ∧ parse (standard ext) order "2pi" = Ok ["2"; "pi"; "*"]
     ∧ postfit_evaluate (standard ext) ["2"; "pi"; "*"]
       = Ok (PyFloat (PrimFloat.mul 2 main_tasks.pi))).
Proof.
  intros Hstring Hconst Himplicit Hprev Hnum Horder. split.
  - unfold parse_token, check_implicit_operation.
    rewrite Hstring, Hconst. cbn [Nat.eqb].
    replace (S j - 1)%nat with j by lia.
    rewrite Hprev, Hnum, Himplicit. reflexivity.
  - split; [vm_compute; reflexivity|]. split.
    + apply (parse_any_order _ _ "2 pi " _ _); [vm_compute; reflexivity|done|].
      vm_compute. reflexivity.
    + vm_compute. reflexivity.
Qed.

Lemma C5_implicit_operation_before_constant_witness :
  let self := standard unavailable in
  let op := Binary {| binary_function :=
                        {| token := "*"; operation := main_tasks.binary_call mul; n_var := 2 |};
                      precedence := 1; associativity := SPECIAL |} in
  is_numeric "pi" = false
  ∧ has_key (_constants self) "pi" = true
  ∧ _implicit_operation self = Some op
  ∧ ["2"; "pi"] !! 0%nat = Some "2"
  ∧ is_numeric "2" = true
  ∧ iteration_order self (listed_order self)
  ∧ parse_token self ["2"; "pi"] 1 "pi" [] ["2"] = Ok (["*"], ["2"; "pi"])
  ∧ parse self (listed_order self) "2pi" = Ok ["2"; "pi"; "*"]
  ∧ postfit_evaluate self ["2"; "pi"; "*"] = Ok (PyFloat (PrimFloat.mul 2 main_tasks.pi)).
Proof.
  intros self op.
  assert (H1 : is_numeric "pi" = false) by (vm_compute; reflexivity).
  assert (H2 : has_key (_constants self) "pi" = true) by (vm_compute; reflexivity).
  assert (H3 : _implicit_operation self = Some op) by reflexivity.
  assert (H4 : ["2"; "pi"] !! 0%nat = Some "2") by reflexivity.
  assert (H5 : is_numeric "2" = true) by (vm_compute; reflexivity).
  assert (H6 := listed_order_iteration self).
  destruct (C5_implicit_operation_before_constant unavailable self ["2"; "pi"] 0 "pi" "2" op
              [] ["2"] (listed_order self) H1 H2 H3 H4 H5 H6) as (Hstep & _ & Hparse & Hvalue).
  repeat (split; [assumption|]). assumption.
Defined.

End Converter.

(** ** The evaluator *)

Section Evaluator.
Implicit Types (self : MathEvaluator) (refer : NVarMathFunction).
Implicit Types (values temp : list NumericType).

Lemma pop_values_enough n : ∀ values temp,
  (n ≤ length values)%nat →
  pop_values n values temp = Some (skipn n values, temp ++ firstn n values).
Proof.
  induction n as [|n IH]; intros values temp Hlen; simpl.
  - by rewrite app_nil_r.
  - destruct values as [|v values]; simpl in *; [lia|].
    rewrite IH by lia. by rewrite <- app_assoc.
Qed.

Lemma pop_values_underflow n : ∀ values temp,
  (length values < n)%nat → pop_values n values temp = None.
Proof.
  induction n as [|n IH]; intros values temp Hlen; simpl; [lia|].
  destruct values as [|v values]; simpl in *; [done|]. apply IH. lia.
Qed.

Lemma evaluate_tokens_app self : ∀ (a b : list string) values,
  evaluate_tokens self (a ++ b) values
  = bind (evaluate_tokens self a values) (evaluate_tokens self b).
Proof.
  induction a as [|char a IH]; intros b values; [done|].
  cbn [app evaluate_tokens].
  destruct (evaluate_token self char values) as [values1|e]; [|done].
  cbn [bind]. apply IH.
Qed.

Lemma postfit_evaluate_nonempty self (expr : list string) :
  expr ≠ [] →
  postfit_evaluate self expr
  = bind (evaluate_tokens self expr []) (fun values =>
    match values with
    | [v] => Ok v
    | _ => Raise (OperandException "Too many operands was given")
    end).
Proof. by destruct expr. Qed.

Lemma names_symbol_lookup self (char : string) refer :
  names_symbol self char refer ↔ lookup_symbol self char = Some refer.
Proof.
  unfold names_symbol, lookup_symbol. destruct (_operators self !! char) as [op|]; split.
  - intros [(op' & Hop & ->)|[Hnone _]]; [by inversion Hop|discriminate].
  - intros Hop. inversion Hop; subst. left. by exists op.
  - intros [(op' & Hop & _)|[_ Hfunc]]; [discriminate|done].
  - intros Hfunc. by right.
Qed.

(** C6, as the specification states it, fails: the operation of a
    symbol may itself fail for a lack of operands.  With [g] in the
    registry, reading [g] on a stack that holds the one value that
    [g] takes ends in that failure. *)
Lemma C6_counterexample :
  ¬ claimed_insufficient with_underfed "g" [PyFloat 3].
Proof.
  intros Hclaim.
  assert (Hg : names_symbol with_underfed "g" (registered (standard unavailable) underfed)).
  { right. split; reflexivity. }
  destruct (Hclaim _ Hg) as [Hshort _].
  assert (Hfails : fails_insufficient (evaluate_token with_underfed "g" [PyFloat 3])).
  { exists "+". vm_compute. reflexivity. }
  specialize (Hshort Hfails). cbn in Hshort. lia.
Qed.

(** C6, amended.  When the evaluator, having read the tokens [before],
    comes to a token that names an operator, or else a function, of
    arity [n]: if the stack holds fewer than [n] values the evaluation
    fails with the too-few-operands error of that token; otherwise it
    takes exactly the [n] topmost values off the stack, passes them to
    the operation in the order in which they were pushed (the reverse
    of the order in which they come off), and goes on with the one
    result pushed, or fails with whatever the operation raises.  So
    reading the token fails with an exception exactly when the stack
    is too short and the exception is that error, or the stack is long
    enough and the operation raises the exception, which may be a
    too-few-operands error of its own. *)
Theorem C6_operands_of_a_symbol self (before after : list string) (char : string)
    refer values :
  names_symbol self char refer →
  evaluate_tokens self before [] = Ok values →
  let n := Z.to_nat (n_var refer) in
  let args := rev (firstn n values) in
  ((length values < n)%nat →
   postfit_evaluate self (before ++ char :: after) = Raise (InsufficientOperands char))
  ∧ ((n ≤ length values)%nat →
     length args = n
     ∧ evaluate_tokens self (before ++ char :: after) []
       = bind (call refer args) (fun r => evaluate_tokens self after (r :: skipn n values)))
  ∧ (∀ e, evaluate_token self char values = Raise e
          ↔ ((length values < n)%nat ∧ e = InsufficientOperands char)
            ∨ ((n ≤ length values)%nat ∧ call refer args = Raise e)).
Proof.
  intros Hrefer Hbefore n args. apply names_symbol_lookup in Hrefer.
  assert (Hrun : evaluate_tokens self (before ++ char :: after) []
                 = bind (evaluate_token self char values) (evaluate_tokens self after)).
  { rewrite evaluate_tokens_app, Hbefore. reflexivity. }
  assert (Hshort : (length values < n)%nat →
                   evaluate_token self char values = Raise (InsufficientOperands char)).
  { intros Hlen. unfold evaluate_token, apply_symbol. rewrite Hrefer. fold n.
    by rewrite pop_values_underflow. }
  assert (Hlong : (n ≤ length values)%nat →
                  evaluate_token self char values
                  = bind (call refer args) (fun r => Ok (r :: skipn n values))).
  { intros Hlen. unfold evaluate_token, apply_symbol. rewrite Hrefer. fold n.
    by rewrite pop_values_enough. }
  split; [|split].
  - intros Hlen. rewrite postfit_evaluate_nonempty by (by destruct before).
    by rewrite Hrun, (Hshort Hlen).
  - intros Hlen. split.
    + unfold args. rewrite length_rev, length_firstn. lia.
    + rewrite Hrun, (Hlong Hlen). by destruct (call refer args).
  - intros e. destruct (decide (length values < n)%nat) as [Hlen|Hlen].
    + rewrite (Hshort Hlen). split.
      * intros Heq. inversion Heq; subst. by left.
      * intros [[_ ->]|[Hge _]]; [done|lia].
    + rewrite Hlong by lia. split.
      * intros Heq. right. split; [lia|].
        destruct (call refer args); cbn [bind] in Heq; [discriminate|by inversion Heq].
      * intros [[Hlt _]|[_ ->]]; [lia|done].
Qed.

(** An operator: the subtraction read after [7 3 1] takes 3 and 1 in
    this order and leaves 2 above 7, and read after [1] alone it
    fails.  A function: the two-place sine read after [1 2] takes both
    values. *)
Lemma C6_operands_of_a_symbol_witness :
  let self := standard unavailable in
  (names_symbol self "-" subtraction
   ∧ evaluate_tokens self ["7"; "3"; "1"] [] = Ok [PyFloat 1; PyFloat 3; PyFloat 7]
   ∧ evaluate_tokens self (["7"; "3"; "1"] ++ ["-"]) []
     = bind (call subtraction [PyFloat 3; PyFloat 1]) (fun r => Ok [r; PyFloat 7])
   ∧ evaluate_tokens self ["1"] [] = Ok [PyFloat 1]
   ∧ postfit_evaluate self (["1"] ++ ["-"]) = Raise (InsufficientOperands "-"))
  ∧ (names_symbol two_place_sine "sin" second_sine
     ∧ evaluate_tokens two_place_sine ["1"; "2"] [] = Ok [PyFloat 2; PyFloat 1]
     ∧ evaluate_tokens two_place_sine (["1"; "2"] ++ ["sin"]) []
       = bind (call second_sine [PyFloat 1; PyFloat 2]) (fun r => Ok [r])).
Proof.
  intros self.
  assert (H1 : names_symbol self "-" subtraction).
  { left. exists (Binary {| binary_function := subtraction; precedence := 0;
                            associativity := SPECIAL |}). split; reflexivity. }
  assert (H2 : evaluate_tokens self ["7"; "3"; "1"] [] = Ok [PyFloat 1; PyFloat 3; PyFloat 7])
    by (vm_compute; reflexivity).
  assert (H3 : evaluate_tokens self ["1"] [] = Ok [PyFloat 1]) by (vm_compute; reflexivity).
  assert (K1 : names_symbol two_place_sine "sin" second_sine).
  { right. split; reflexivity. }
  assert (K2 : evaluate_tokens two_place_sine ["1"; "2"] [] = Ok [PyFloat 2; PyFloat 1])
    by (vm_compute; reflexivity).
  split.
  - split; [exact H1|]. split; [exact H2|].
    destruct (C6_operands_of_a_symbol self ["7"; "3"; "1"] [] "-" subtraction _ H1 H2)
      as (_ & Henough & _).
    destruct (Henough ltac:(simpl; lia)) as [_ Hstep].
    split; [exact Hstep|]. split; [exact H3|].
    destruct (C6_operands_of_a_symbol self ["1"] [] "-" subtraction _ H1 H3)
      as (Hshort & _ & _).
    exact (Hshort ltac:(simpl; lia)).
  - split; [exact K1|]. split; [exact K2|].
    destruct (C6_operands_of_a_symbol two_place_sine ["1"; "2"] [] "sin" second_sine _ K1 K2)
      as (_ & Henough & _).
    destruct (Henough ltac:(simpl; lia)) as [_ Hstep].
    exact Hstep.
Defined.

End Evaluator.

(** ** The examples of the specification *)

Section Examples.
Context (ext : main_tasks.External).

(** C4 (the code departs from the claim).  In the standard registry
    [!] is a unary operator with associativity LEFT.  ["3!"] is
    converted to [3 !] and evaluates to the integer 6, and so is
    ["!3"]: the converter never looks at the associativity of a unary
    operator, so the prefix use is accepted and means the same. *)
Theorem C4_factorial_on_either_side (order : list string) :
  iteration_order (standard ext) order →
  unary_associativity_of (standard ext) "!" = Some LEFT
  ∧ parse (standard ext) order "3!" = Ok ["3"; "!"]
  ∧ postfit_evaluate (standard ext) ["3"; "!"] = Ok (PyInt 6)
  ∧ parse (standard ext) order "!3" = Ok ["3"; "!"]
  ∧ main_tasks._evaluate (standard ext) order "!3" = Ok (PyInt 6).
Proof.
  intros Horder.
  assert (Hpost : parse (standard ext) order "3!" = Ok ["3"; "!"]).
  { apply (parse_any_order _ _ "3 ! " _ _); [vm_compute; reflexivity|done|].
    vm_compute. reflexivity. }
  assert (Hpre : parse (standard ext) order "!3" = Ok ["3"; "!"]).
  { apply (parse_any_order _ _ " ! 3" _ _); [vm_compute; reflexivity|done|].
    vm_compute. reflexivity. }
  split; [vm_compute; reflexivity|]. split; [exact Hpost|].
  split; [vm_compute; reflexivity|]. split; [exact Hpre|].
  unfold main_tasks._evaluate. change (str_lower "!3") with "!3".
  rewrite Hpre. vm_compute. reflexivity.
Qed.

(** *** The function tab *)

Lemma merge_each_present {A} (has : MathEvaluator → string → bool)
    (add : MathEvaluator → A → MathEvaluator * result unit)
    (items : list (string * A)) (func_eval : MathEvaluator) :
  forallb (fun item => has func_eval (fst item)) items = true →
  main_tasks.merge_each has add items func_eval = (func_eval, Ok tt).
Proof.
  induction items as [|[token obj] items IH]; intros Hall; [done|].
  simpl in Hall. apply andb_true_iff in Hall as [Hhas Hall].
  cbn [main_tasks.merge_each]. rewrite Hhas. by apply IH.
Qed.

(** The function evaluator already holds every symbol of the main
    evaluator, so the update leaves it as it is. *)
Lemma update_evaluator_authoring :
  main_tasks.update_evaluator (standard ext) (authoring ext) = (authoring ext, Ok tt).
Proof.
  unfold main_tasks.update_evaluator.
  rewrite merge_each_present by (vm_compute; reflexivity).
  rewrite merge_each_present by (vm_compute; reflexivity).
  rewrite merge_each_present by (vm_compute; reflexivity).
  reflexivity.
Qed.

(** Once no entry of the list begins with [x_], the loop of
    [func_operation] changes nothing, whatever the arguments. *)
Lemma substitute_no_placeholder args : ∀ expression done,
  Forall no_placeholder expression →
  main_tasks.substitute args done expression = (done ++ expression, Ok tt).
Proof.
  induction expression as [|token expression IH]; intros done Hall.
  - by rewrite app_nil_r.
  - inversion Hall as [|? ? Htoken Hrest]; subst. cbn [main_tasks.substitute].
    apply String.eqb_neq in Htoken. rewrite Htoken.
    rewrite IH by done. by rewrite <- app_assoc.
Qed.

(** So a function whose list holds no placeholder any more returns
    the same value for all arguments of the right number. *)
Lemma invoke_ignores_arguments self (f : main_tasks.UserFunction)
    (args args' : list NumericType) :
  Forall no_placeholder (main_tasks.func_expr f) →
  length args = length args' →
  main_tasks.invoke self f args = main_tasks.invoke self f args'.
Proof.
  intros Hall Hlen. unfold main_tasks.invoke, main_tasks.func_operation.
  rewrite Hlen, !substitute_no_placeholder by done. reflexivity.
Qed.

(** C3 (the code departs from the claim).  The function tab accepts
    [f(x_1, x_2) = x_1 + x_2 * 2] and keeps the postfix list
    [x_1 x_2 2 * +].  The first call, with 3 and 4, writes the
    arguments into that list and returns 11.  The list is the one
    every call uses: it now reads [3.0 4.0 2 * +], and the call with
    1 and 1 returns 11 again, not the 3 that the same call returns on
    the list as it was stored. *)
Theorem C3_template_is_overwritten (order : list string) :
  iteration_order (authoring ext) order →
  ∃ f : main_tasks.UserFunction,
    main_tasks.add_function (standard ext) (authoring ext) order 2 "f" "x_1 + x_2 * 2"
    = (authoring ext, Ok (Some f))
    ∧ main_tasks.func_expr f = template
    ∧ snd (main_tasks.invoke (standard ext) f [PyFloat 3; PyFloat 4]) = Ok (PyFloat 11)
    ∧ main_tasks.func_expr (fst (main_tasks.invoke (standard ext) f [PyFloat 3; PyFloat 4]))
      = template_after_3_4
    ∧ snd (main_tasks.invoke (standard ext)
             (fst (main_tasks.invoke (standard ext) f [PyFloat 3; PyFloat 4]))
             [PyFloat 1; PyFloat 1]) = Ok (PyFloat 11)
    ∧ snd (main_tasks.invoke (standard ext) f [PyFloat 1; PyFloat 1]) = Ok (PyFloat 3).
Proof.
  intros Horder.
  assert (Hparse : parse (authoring ext) order "x_1 + x_2 * 2" = Ok template).
  { apply (parse_any_order _ _ " x_1   +   x_2   *  2" _ _);
      [vm_compute; reflexivity|done|]. vm_compute. reflexivity. }
  assert (Hname : main_tasks.is_valid_name (standard ext) "f" = true)
    by (vm_compute; reflexivity).
  assert (Hcheck : main_tasks.check_variables (standard ext) 2 template false = Ok false)
    by (vm_compute; reflexivity).
  assert (Hfree : has_key (_operators (standard ext)) "f" = false)
    by (vm_compute; reflexivity).
  exists {| main_tasks.name := "f"; main_tasks.no_of_variables := 2;
            main_tasks.func_expr := template |}.
  split.
  { unfold main_tasks.add_function, main_tasks.proccess_expression.
    rewrite Hname, update_evaluator_authoring, Hparse, Hcheck. cbn [negb bind template].
    rewrite Hfree. reflexivity. }
  split; [reflexivity|].
  repeat split; vm_compute; reflexivity.
Qed.

End Examples.

Lemma C4_factorial_on_either_side_witness :
  let self := standard unavailable in
  iteration_order self (listed_order self)
  ∧ parse self (listed_order self) "!3" = Ok ["3"; "!"]
  ∧ main_tasks._evaluate self (listed_order self) "!3" = Ok (PyInt 6).
Proof.
  intros self.
  assert (H := listed_order_iteration self).
  destruct (C4_factorial_on_either_side unavailable (listed_order self) H)
    as (_ & _ & _ & Hparse & Hvalue).
  split; [exact H|]. split; [exact Hparse|exact Hvalue].
Defined.

Lemma C3_template_is_overwritten_witness :
  let self := standard unavailable in
  iteration_order (authoring unavailable) (listed_order (authoring unavailable))
  ∧ (∃ f : main_tasks.UserFunction,
       main_tasks.add_function self (authoring unavailable)
         (listed_order (authoring unavailable)) 2 "f" "x_1 + x_2 * 2"
       = (authoring unavailable, Ok (Some f))
       ∧ main_tasks.func_expr f = template
       ∧ snd (main_tasks.invoke self f [PyFloat 3; PyFloat 4]) = Ok (PyFloat 11)
       ∧ main_tasks.func_expr (fst (main_tasks.invoke self f [PyFloat 3; PyFloat 4]))
         = template_after_3_4
       ∧ snd (main_tasks.invoke self
                (fst (main_tasks.invoke self f [PyFloat 3; PyFloat 4]))
                [PyFloat 1; PyFloat 1]) = Ok (PyFloat 11)
       ∧ snd (main_tasks.invoke self f [PyFloat 1; PyFloat 1]) = Ok (PyFloat 3)).
Proof.
  intros self.
  assert (H := listed_order_iteration (authoring unavailable)).
  split; [exact H|].
  exact (C3_template_is_overwritten unavailable (listed_order (authoring unavailable)) H).
Defined.

(** *** A function whose expression lacks an operand *)

(** The tab accepts [g(x_1) = x_1 +] as a function of one variable. *)
Lemma underfed_accepted (order : list string) :
  iteration_order (authoring unavailable) order →
  main_tasks.add_function (standard unavailable) (authoring unavailable) order 1 "g" "x_1 +"
  = (authoring unavailable, Ok (Some underfed)).
Proof.
  intros Horder.
  assert (Hparse : parse (authoring unavailable) order "x_1 +" = Ok ["x_1"; "+"]).
  { apply (parse_any_order _ _ " x_1   + " _ _); [vm_compute; reflexivity|done|].
    vm_compute. reflexivity. }
  assert (Hname : main_tasks.is_valid_name (standard unavailable) "g" = true)
    by (vm_compute; reflexivity).
  assert (Hcheck : main_tasks.check_variables (standard unavailable) 1 ["x_1"; "+"] false
                   = Ok false) by (vm_compute; reflexivity).
  assert (Hfree : has_key (_operators (standard unavailable)) "g" = false)
    by (vm_compute; reflexivity).
  unfold main_tasks.add_function, main_tasks.proccess_expression.
  rewrite Hname, (update_evaluator_authoring unavailable), Hparse, Hcheck. cbn [negb bind].
  rewrite Hfree. reflexivity.
Qed.

(** Its call on one number fails for a lack of operands, of its [+],
    in the main evaluator as it is before the function is added and
    as it is afterwards. *)
Lemma underfed_call :
  snd (main_tasks.invoke (standard unavailable) underfed [PyFloat 3])
  = Raise (InsufficientOperands "+")
  ∧ snd (main_tasks.invoke with_underfed underfed [PyFloat 3])
    = Raise (InsufficientOperands "+").
Proof. split; vm_compute; reflexivity. Qed.

(** ** Further properties of the registry *)

Section Construction.
Implicit Types (self : MathEvaluator) (ops : list Operator).
Implicit Types (fns : list NVarMathFunction) (cs : list MathConstant).

Lemma returns_bind {A B} (r : result A) (k : A → result B) :
  returns (bind r k) = true ↔ ∃ a, r = Ok a ∧ returns (k a) = true.
Proof.
  destruct r as [a|e]; simpl; split.
  - intros H. by exists a.
  - by intros (a' & [= ->] & H).
  - discriminate.
  - by intros (a' & [=] & _).
Qed.

(** The loop over the operators returns exactly when no token comes
    twice and none is in the registry already; it then holds every
    operator under its token and leaves the other tokens alone. *)
Lemma add_operator_fresh self op :
  _operators self !! operator_token op = None →
  add_operator self op
  = (set_operators self (<[operator_token op := op]> (_operators self)), Ok tt).
Proof.
  intros H. unfold add_operator, has_key, operator_token in *. cbv zeta. by rewrite H.
Qed.

Lemma add_operator_taken self op :
  is_Some (_operators self !! operator_token op) →
  snd (add_operator self op) = Raise (DuplicateSymbol "Operator" (operator_token op)).
Proof.
  intros [x H]. unfold add_operator, has_key, operator_token in *. cbv zeta. by rewrite H.
Qed.

Lemma add_each_operator_returns ops : ∀ self,
  returns (add_each add_operator self ops) = true
  ↔ NoDup (operator_token <$> ops)
    ∧ (∀ t, t ∈ (operator_token <$> ops) → _operators self !! t = None).
Proof.
  induction ops as [|op ops IH]; intros self; cbn [add_each fmap list_fmap].
  - split; [intros _|done]. split; [constructor|]. intros t Ht. by apply elem_of_nil in Ht.
  - destruct (_operators self !! operator_token op) as [x|] eqn:Hlook.
    + pose proof (add_operator_taken self op (ex_intro _ x Hlook)) as Hraise.
      destruct (add_operator self op) as [self1 [[]|e]]; [discriminate|].
      split; [discriminate|]. intros [_ Hfree].
      rewrite (Hfree (operator_token op)) in Hlook; [discriminate|by left].
    + rewrite (add_operator_fresh _ _ Hlook), IH. simpl. rewrite NoDup_cons.
      split.
      * intros [Hnodup Hfree]. split; [split; [|done]|].
        -- intros Hin. specialize (Hfree _ Hin). by rewrite lookup_insert_eq in Hfree.
        -- intros t Ht. apply elem_of_cons in Ht as [->|Ht]; [done|].
           specialize (Hfree _ Ht). rewrite lookup_insert in Hfree.
           case_decide; [discriminate|done].
      * intros [[Hfresh Hnodup] Hfree]. split; [done|].
        intros t Ht. rewrite lookup_insert_ne; [apply Hfree; by right|].
        intros Heq. apply Hfresh. by rewrite Heq.
Qed.

Lemma add_each_operator_members ops : ∀ self self',
  add_each add_operator self ops = Ok self' →
  (∀ op, op ∈ ops → _operators self' !! operator_token op = Some op)
  ∧ _functions self' = _functions self ∧ _constants self' = _constants self.
Proof.
  induction ops as [|op ops IH]; intros self self' Hadd.
  - inversion Hadd; subst. split; [|done]. intros op Hop. by apply elem_of_nil in Hop.
  - assert (Hret : returns (add_each add_operator self (op :: ops)) = true) by by rewrite Hadd.
    apply add_each_operator_returns in Hret as [Hnodup Hfree].
    cbn [fmap list_fmap] in Hnodup. apply NoDup_cons in Hnodup as [Hfresh _].
    cbn [add_each] in Hadd. rewrite add_operator_fresh in Hadd by (apply Hfree; by left).
    destruct (IH _ _ Hadd) as (Hmem & Hf & Hc). split; [|done].
    intros op' Hop'. apply elem_of_cons in Hop' as [->|Hop']; [|by apply Hmem].
    rewrite (add_each_operator_lookup _ _ _ _ Hadd Hfresh). simpl.
    apply lookup_insert_eq.
Qed.

Lemma add_each_function_returns fns : ∀ self,
  returns (add_each add_function self fns) = true
  ↔ ∀ func, func ∈ fns → _operators self !! token func = None.
Proof.
  induction fns as [|f fns IH]; intros self; simpl.
  - split; [|done]. intros _ func Hin. by apply elem_of_nil in Hin.
  - unfold add_function at 1.
    destruct (has_key (_operators self) (token f)) eqn:Hhas.
    + split; [discriminate|]. intros Hfree.
      apply has_key_true in Hhas as [x Hx]. rewrite Hfree in Hx; [discriminate|by left].
    + rewrite IH. simpl. split.
      * intros Hfree func Hin. apply elem_of_cons in Hin as [->|Hin]; [|by apply Hfree].
        unfold has_key in Hhas. by destruct (_operators self !! token f).
      * intros Hfree func Hin. apply Hfree. by right.
Qed.

Lemma add_each_function_constants fns : ∀ self self',
  add_each add_function self fns = Ok self' → _constants self' = _constants self.
Proof.
  induction fns as [|f fns IH]; intros self self' Hadd; simpl in *.
  - by inversion Hadd.
  - unfold add_function in Hadd.
    destruct (has_key (_operators self) (token f)); [discriminate|].
    by rewrite (IH _ _ Hadd).
Qed.

Lemma add_each_constant_returns cs : ∀ self,
  returns (add_each add_constant self cs) = true
  ↔ NoDup (const_token <$> cs)
    ∧ (∀ t, t ∈ (const_token <$> cs) → _constants self !! t = None).
Proof.
  induction cs as [|c cs IH]; intros self; simpl.
  - split; [intros _|done]. split; [constructor|]. intros t Ht. by apply elem_of_nil in Ht.
  - unfold add_constant at 1.
    destruct (has_key (_constants self) (const_token c)) eqn:Hhas.
    + split; [discriminate|]. intros [_ Hfree].
      apply has_key_true in Hhas as [x Hx].
      rewrite (Hfree (const_token c)) in Hx; [discriminate|by left].
    + rewrite IH. simpl. rewrite NoDup_cons.
      assert (Hnone : _constants self !! const_token c = None).
      { unfold has_key in Hhas. by destruct (_constants self !! const_token c). }
      split.
      * intros [Hnodup Hfree]. split; [split; [|done]|].
        -- intros Hin. specialize (Hfree _ Hin). by rewrite lookup_insert_eq in Hfree.
        -- intros t Ht. apply elem_of_cons in Ht as [->|Ht]; [done|].
           specialize (Hfree _ Ht). rewrite lookup_insert in Hfree.
           case_decide; [discriminate|done].
      * intros [[Hfresh Hnodup] Hfree]. split; [done|].
        intros t Ht. rewrite lookup_insert_ne; [apply Hfree; by right|].
        intros Heq. apply Hfresh. by rewrite Heq.
Qed.

(** The constructor accepts three lists of symbols exactly when no
    two operators share a token, no function carries the token of an
    operator, and no two constants share a token.  Two functions with
    one token, or a constant with the token of an operator or of a
    function, are let through. *)
Theorem MathEvaluator_init_returns ops fns cs (tok : string) :
  returns (MathEvaluator_init ops fns cs tok) = true
  ↔ NoDup (operator_token <$> ops)
    ∧ (∀ func, func ∈ fns → token func ∉ (operator_token <$> ops))
    ∧ NoDup (const_token <$> cs).
Proof.
  unfold MathEvaluator_init. rewrite returns_bind. split.
  - intros (s1 & H1 & Hrest). apply returns_bind in Hrest as (s2 & H2 & Hrest).
    apply returns_bind in Hrest as (s3 & H3 & _).
    assert (R1 : returns (add_each add_operator empty_evaluator ops) = true) by by rewrite H1.
    assert (R2 : returns (add_each add_function s1 fns) = true) by by rewrite H2.
    assert (R3 : returns (add_each add_constant s2 cs) = true) by by rewrite H3.
    apply add_each_operator_returns in R1 as [Hnodup _].
    apply add_each_constant_returns in R3 as [Hcs _].
    rewrite add_each_function_returns in R2.
    split; [done|]. split; [|done].
    intros func Hin Htok. apply list_elem_of_fmap in Htok as (op & Heq & Hop).
    destruct (add_each_operator_members _ _ _ H1) as (Hmem & _).
    specialize (Hmem op Hop). rewrite <- Heq in Hmem. rewrite (R2 func Hin) in Hmem.
    discriminate.
  - intros (Hops & Hfns & Hcs).
    destruct (add_each add_operator empty_evaluator ops) as [s1|] eqn:H1.
    2:{ assert (R : returns (add_each add_operator empty_evaluator ops) = true).
        { apply add_each_operator_returns. split; [done|]. intros t _. apply lookup_empty. }
        rewrite H1 in R. discriminate. }
    exists s1. split; [done|]. apply returns_bind.
    destruct (add_each add_function s1 fns) as [s2|] eqn:H2.
    2:{ assert (R : returns (add_each add_function s1 fns) = true).
        { apply add_each_function_returns. intros func Hin.
          rewrite (add_each_operator_lookup _ _ _ _ H1 (Hfns func Hin)). apply lookup_empty. }
        rewrite H2 in R. discriminate. }
    exists s2. split; [done|]. apply returns_bind.
    destruct (add_each add_constant s2 cs) as [s3|] eqn:H3.
    2:{ assert (R : returns (add_each add_constant s2 cs) = true).
        { apply add_each_constant_returns. split; [done|]. intros t _.
          rewrite (add_each_function_constants _ _ _ H2).
          destruct (add_each_operator_members _ _ _ H1) as (_ & _ & ->). apply lookup_empty. }
        rewrite H3 in R. discriminate. }
    exists s3. split; [done|]. reflexivity.
Qed.

Lemma add_each_constant_lookup cs : ∀ self self' (t : string),
  add_each add_constant self cs = Ok self' →
  t ∉ (const_token <$> cs) →
  _constants self' !! t = _constants self !! t
  ∧ _functions self' = _functions self.
Proof.
  induction cs as [|c cs IH]; intros self self' t Hadd Hnot; simpl in Hadd.
  - by inversion Hadd.
  - apply not_elem_of_cons in Hnot as [Hne Hnot]. unfold add_constant in Hadd.
    destruct (has_key (_constants self) (const_token c)); [discriminate|].
    destruct (IH _ _ t Hadd Hnot) as [-> ->]. simpl. split; [|done].
    by apply lookup_insert_ne.
Qed.

Lemma add_each_constant_members cs : ∀ self self',
  add_each add_constant self cs = Ok self' →
  ∀ c, c ∈ cs → _constants self' !! const_token c = Some c.
Proof.
  induction cs as [|c cs IH]; intros self self' Hadd.
  - intros c Hc. by apply elem_of_nil in Hc.
  - assert (Hret : returns (add_each add_constant self (c :: cs)) = true) by by rewrite Hadd.
    apply add_each_constant_returns in Hret as [Hnodup _].
    cbn [fmap list_fmap] in Hnodup. apply NoDup_cons in Hnodup as [Hfresh _].
    cbn [add_each] in Hadd. unfold add_constant in Hadd.
    destruct (has_key (_constants self) (const_token c)); [discriminate|].
    intros c' Hc'. apply elem_of_cons in Hc' as [->|Hc']; [|by apply (IH _ _ Hadd)].
    destruct (add_each_constant_lookup _ _ _ _ Hadd Hfresh) as [-> _]. simpl.
    apply lookup_insert_eq.
Qed.

Lemma add_each_constant_functions cs : ∀ self self',
  add_each add_constant self cs = Ok self' → _functions self' = _functions self.
Proof.
  induction cs as [|c cs IH]; intros self self' Hadd; simpl in Hadd.
  - by inversion Hadd.
  - unfold add_constant in Hadd.
    destruct (has_key (_constants self) (const_token c)); [discriminate|].
    by rewrite (IH _ _ Hadd).
Qed.

Lemma add_each_function_dom fns : ∀ self self',
  add_each add_function self fns = Ok self' →
  dom (_functions self') = dom (_functions self) ∪ list_to_set (token <$> fns).
Proof.
  induction fns as [|f fns IH]; intros self self' Hadd; simpl in Hadd.
  - inversion Hadd; subst. simpl. by rewrite union_empty_r_L.
  - unfold add_function in Hadd.
    destruct (has_key (_operators self) (token f)); [discriminate|].
    rewrite (IH _ _ Hadd). simpl. rewrite dom_insert_L.
    apply set_eq. intros x. rewrite !elem_of_union. tauto.
Qed.

(** What the constructor leaves in the registry it returns: every
    operator and every constant of the lists under its own token,
    the tokens of the functions of the list and no others in the
    function map, and as implicit operation what the operators hold
    under the token given. *)
Theorem MathEvaluator_init_resolves ops fns cs (tok : string) self :
  MathEvaluator_init ops fns cs tok = Ok self →
  (∀ op, op ∈ ops → _operators self !! operator_token op = Some op)
  ∧ (∀ c, c ∈ cs → _constants self !! const_token c = Some c)
  ∧ dom (_functions self) = list_to_set (token <$> fns)
  ∧ _implicit_operation self = _operators self !! tok.
Proof.
  unfold MathEvaluator_init. intros Hbuilt.
  destruct (add_each add_operator empty_evaluator ops) as [s1|] eqn:H1; [|discriminate].
  simpl in Hbuilt.
  destruct (add_each add_function s1 fns) as [s2|] eqn:H2; [|discriminate].
  simpl in Hbuilt.
  destruct (add_each add_constant s2 cs) as [s3|] eqn:H3; [|discriminate].
  simpl in Hbuilt. inversion Hbuilt; subst. clear Hbuilt. simpl.
  destruct (add_each_operator_members _ _ _ H1) as (Hops & Hf1 & _).
  split; [|split; [|split; [|done]]].
  - intros op Hop.
    rewrite (add_each_constant_operators _ _ _ H3), (add_each_function_operators _ _ _ H2).
    by apply Hops.
  - by apply (add_each_constant_members _ _ _ H3).
  - rewrite (add_each_constant_functions _ _ _ H3), (add_each_function_dom _ _ _ H2), Hf1.
    simpl.
    by rewrite dom_empty_L, union_empty_l_L.
Qed.

Lemma standard_built :
  MathEvaluator_init (standard_operators unavailable) (standard_functions unavailable)
    standard_constants "*" = Ok (standard unavailable).
Proof. reflexivity. Qed.

Lemma MathEvaluator_init_resolves_witness :
  let self := standard unavailable in
  (∀ op, op ∈ standard_operators unavailable → _operators self !! operator_token op = Some op)
  ∧ (∀ c, c ∈ standard_constants → _constants self !! const_token c = Some c)
  ∧ dom (_functions self) = list_to_set (token <$> standard_functions unavailable)
  ∧ _implicit_operation self = _operators self !! "*".
Proof.
  exact (MathEvaluator_init_resolves _ _ _ _ _ standard_built).
Defined.

Lemma MathEvaluator_init_registered_witness :
  keyed (standard unavailable) ∧ implicit_registered (standard unavailable) = true.
Proof.
  exact (MathEvaluator_init_registered _ _ _ _ _ standard_built).
Defined.

Lemma MathEvaluator_init_nonempty_witness :
  Forall (fun op => operator_token op ≠ "") (standard_operators unavailable)
  ∧ Forall (fun func => token func ≠ "") (standard_functions unavailable)
  ∧ Forall (fun constant => const_token constant ≠ "") standard_constants
  ∧ "" ∉ recognised_tokens (standard unavailable).
Proof.
  assert (H1 : Forall (fun op => operator_token op ≠ "") (standard_operators unavailable))
    by (apply (bool_decide_unpack _); vm_compute; reflexivity).
  assert (H2 : Forall (fun func => token func ≠ "") (standard_functions unavailable))
    by (apply (bool_decide_unpack _); vm_compute; reflexivity).
  assert (H3 : Forall (fun constant => const_token constant ≠ "") standard_constants)
    by (apply (bool_decide_unpack _); vm_compute; reflexivity).
  split; [exact H1|]. split; [exact H2|]. split; [exact H3|].
  exact (MathEvaluator_init_nonempty _ _ _ _ _ H1 H2 H3 standard_built).
Defined.

End Construction.

(** ** The factorial and the two tabs *)

Section Tabs.

Lemma factorial_product (k : nat) :
  fold_left Z.mul (seqZ 2 (Z.of_nat k)) 1 = Z.of_nat (fact (S k)).
Proof.
  induction k as [|k IH]; [reflexivity|].
  rewrite seqZ_S, fold_left_app, IH. cbn [fold_left].
  change (fact (S (S k))) with ((S (S k)) * fact (S k))%nat. lia.
Qed.

Lemma factorial_loop (z : Z) :
  fold_left Z.mul (seqZ 2 (z + 1 - 2)) 1 = Z.of_nat (fact (Z.to_nat z)).
Proof.
  destruct (decide (z ≤ 1)) as [Hsmall|Hbig].
  - rewrite seqZ_nil by lia.
    destruct (decide (z ≤ 0)) as [H0|H0].
    + replace (Z.to_nat z) with 0%nat by lia. reflexivity.
    + replace (Z.to_nat z) with 1%nat by lia. reflexivity.
  - replace (z + 1 - 2) with (Z.of_nat (Z.to_nat (z - 1))) by lia.
    rewrite factorial_product. f_equal. f_equal. lia.
Qed.

Lemma whole_float_to_int (f : float) :
  float_is_integer f = true → ∃ z, int_of_float f = Ok z.
Proof.
  unfold float_is_integer, int_of_float.
  destruct (Prim2SF f); intros Hwhole; try discriminate; by eexists.
Qed.

(** [_factorial] on a float: a float without fractional part has an
    integer value [z], and the result is the integer [z!] (1 when [z]
    is negative); any other float (a fractional part, an infinity, a
    NaN) is refused with [TypeError]. *)
Theorem factorial_of_float (f : float) :
  (float_is_integer f = true →
   ∃ z, int_of_float f = Ok z
        ∧ main_tasks._factorial (PyFloat f) = Ok (PyInt (Z.of_nat (fact (Z.to_nat z)))))
  ∧ (float_is_integer f = false →
     main_tasks._factorial (PyFloat f) = Raise (TypeError "")).
Proof.
  split; intros Hwhole; unfold main_tasks._factorial; rewrite Hwhole; [|reflexivity].
  destruct (whole_float_to_int f Hwhole) as [z Hz]. exists z. split; [done|].
  cbn [negb]. rewrite Hz. cbn [bind]. by rewrite factorial_loop.
Qed.

Lemma factorial_of_float_witness :
  (float_is_integer 5 = true
   ∧ ∃ z, int_of_float 5 = Ok z
          ∧ main_tasks._factorial (PyFloat 5) = Ok (PyInt (Z.of_nat (fact (Z.to_nat z)))))
  ∧ (float_is_integer 2.5 = false
     ∧ main_tasks._factorial (PyFloat 2.5) = Raise (TypeError "")).
Proof.
  assert (H1 : float_is_integer 5 = true) by (vm_compute; reflexivity).
  assert (H2 : float_is_integer 2.5 = false) by (vm_compute; reflexivity).
  split.
  - split; [exact H1|]. exact (proj1 (factorial_of_float 5) H1).
  - split; [exact H2|]. exact (proj2 (factorial_of_float 2.5) H2).
Defined.

(** Whatever buttons are pressed, the number of variables of the
    function tab stays between 1 and 9, the indices of the dummy
    variables [x_1] to [x_9]. *)
Theorem no_of_variables_in_range (clicks : list bool) (n : Z) :
  1 ≤ n ≤ 9 → 1 ≤ presses clicks n ≤ 9.
Proof.
  unfold presses. revert n. induction clicks as [|add clicks IH]; intros n Hn; [done|].
  cbn [fold_left]. apply IH. unfold main_tasks.update_dummy_var.
  destruct add; simpl.
  - destruct (n <? 9) eqn:H9; [apply Z.ltb_lt in H9|]; lia.
  - destruct (1 <? n) eqn:H1; [apply Z.ltb_lt in H1|]; lia.
Qed.

Lemma no_of_variables_in_range_witness :
  1 ≤ 1 ≤ 9
  ∧ 1 ≤ presses [true; true; false; true; true; true; true; true; true; true; true; true] 1 ≤ 9.
Proof.
  assert (H : 1 ≤ 1 ≤ 9) by lia.
  split; [exact H|]. exact (no_of_variables_in_range _ 1 H).
Defined.

(** The constant tab never registers a constant: for every name and
    every value typed in, its handler ends in a [TypeError] and the
    main evaluator is as it was.  The name check calls the dict that
    the [constants] property returns. *)
Theorem tab_add_constant_never_adds (my_eval : MathEvaluator) (order : list string)
    (name_input value_input : string) :
  ∃ msg, main_tasks.tab_add_constant my_eval order name_input value_input
         = (my_eval, Raise (TypeError msg)).
Proof. eexists. reflexivity. Qed.

End Tabs.

(** ** Further properties of the tokenizer *)

Section Characters.

Lemma app_cons (x : ascii) (a b : string) : String x a +:+ b = String x (a +:+ b).
Proof. reflexivity. Qed.

Lemma app_empty_l (a : string) : "" +:+ a = a.
Proof. reflexivity. Qed.

Lemma app_assoc_string (a b c : string) : (a +:+ b) +:+ c = a +:+ (b +:+ c).
Proof. induction a as [|x a IH]; [done|]. by rewrite !app_cons, IH. Qed.

Lemma app_empty_r (a : string) : a +:+ "" = a.
Proof. induction a as [|x a IH]; [done|]. by rewrite app_cons, IH. Qed.

Lemma squeeze_app (a b : string) : squeeze (a +:+ b) = squeeze a +:+ squeeze b.
Proof.
  induction a as [|x a IH]; [done|]. rewrite app_cons. cbn [squeeze].
  destruct (isspace x); [exact IH|]. by rewrite app_cons, IH.
Qed.

Lemma prefix_drop (sep : string) : ∀ s : string,
  String.prefix sep s = true →
  s = sep +:+ drop (String.length sep) s ∧ (String.length sep ≤ String.length s)%nat.
Proof.
  induction sep as [|x sep IH]; intros s Hprefix.
  - cbn [String.length drop]. rewrite app_empty_l. split; [by destruct s|lia].
  - destruct s as [|y s]; cbn [String.prefix] in Hprefix; [discriminate|].
    destruct (ascii_dec x y) as [->|]; [|discriminate].
    destruct (IH s Hprefix) as [Heq Hlen].
    cbn [String.length drop]. rewrite app_cons. split; [by rewrite <- Heq|lia].
Qed.

Lemma split_scan_cons (sep : string) : ∀ (s : string) k cur,
  ∃ x l, split_scan sep s k cur = x :: l.
Proof.
  induction s as [|c s IH]; intros k cur; cbn [split_scan]; [eexists _, _; reflexivity|].
  destruct k; [|apply IH].
  destruct (String.prefix sep (String c s)); [eexists _, _; reflexivity|apply IH].
Qed.

Lemma join_cons (sep x : string) (l : list string) :
  l ≠ [] → join sep (x :: l) = x +:+ sep +:+ join sep l.
Proof. destruct l; [done|reflexivity]. Qed.

(** [sep.join(s.split(sep))] is [s]. *)
Lemma split_scan_join (sep : string) : sep ≠ "" → ∀ (s : string) k cur,
  (k ≤ String.length s)%nat →
  join sep (split_scan sep s k cur) = cur +:+ drop k s.
Proof.
  intros Hsep. induction s as [|c s IH]; intros k cur Hk.
  - cbn [split_scan]. destruct k; cbn [join String.concat drop]; by rewrite app_empty_r.
  - cbn [split_scan]. destruct k as [|k].
    + destruct (String.prefix sep (String c s)) eqn:Hprefix.
      * destruct (prefix_drop _ _ Hprefix) as [Heq Hlen].
        destruct (split_scan_cons sep s (Nat.pred (String.length sep)) "") as (x & l & Hl).
        rewrite join_cons by (rewrite Hl; discriminate).
        cbn [String.length] in Hlen.
        rewrite IH by lia. rewrite app_empty_l. cbn [drop].
        destruct sep as [|y sep]; [done|].
        cbn [String.length drop Nat.pred] in *. by rewrite <- Heq.
      * rewrite IH by lia. cbn [drop]. by rewrite app_assoc_string.
    + cbn [String.length] in Hk. rewrite IH by lia. reflexivity.
Qed.

Lemma squeeze_join (sep : string) (parts : list string) :
  squeeze (join sep parts) = join (squeeze sep) (squeeze <$> parts).
Proof.
  induction parts as [|x parts IH]; [done|].
  destruct parts as [|y parts]; [done|].
  rewrite join_cons by done. rewrite !squeeze_app, IH.
  cbn [fmap list_fmap]. by rewrite (join_cons (squeeze sep) (squeeze x)).
Qed.

Lemma squeeze_spaced (t : string) : squeeze (" " +:+ t +:+ " ") = squeeze t.
Proof.
  rewrite !squeeze_app. change (squeeze " ") with "".
  by rewrite app_empty_l, app_empty_r.
Qed.

(** Isolating a token only puts spaces into the string. *)
Lemma isolate_squeeze (s t s' : string) : isolate s t = Ok s' → squeeze s' = squeeze s.
Proof.
  unfold isolate. destruct (contains t s); [|by intros [= ->]].
  unfold split. destruct t as [|c t]; [discriminate|]. cbn [bind]. intros [= <-].
  rewrite squeeze_join, squeeze_spaced, <- squeeze_join.
  rewrite split_scan_join; [done|discriminate|lia].
Qed.

Lemma isolate_each_squeeze order : ∀ s s' : string,
  isolate_each order s = Ok s' → squeeze s' = squeeze s.
Proof.
  induction order as [|t order IH]; intros s s' Hrun; simpl in Hrun.
  - by inversion Hrun.
  - destruct (isolate s t) as [s1|] eqn:Hstep; [|discriminate]. simpl in Hrun.
    rewrite (IH _ _ Hrun). by apply isolate_squeeze in Hstep.
Qed.

Lemma concat_empty_cons (x : string) (l : list string) :
  String.concat "" (x :: l) = x +:+ String.concat "" l.
Proof. destruct l; simpl; [by rewrite app_empty_r|done]. Qed.

Lemma concat_empty_app (l1 l2 : list string) :
  String.concat "" (l1 ++ l2) = String.concat "" l1 +:+ String.concat "" l2.
Proof.
  induction l1 as [|x l1 IH]; [done|].
  rewrite <- app_comm_cons, !concat_empty_cons, IH. by rewrite app_assoc_string.
Qed.

Lemma concat_chars (s : string) : String.concat "" (chars s) = s.
Proof.
  induction s as [|c s IH]; [done|].
  cbn [chars]. rewrite concat_empty_cons, IH. reflexivity.
Qed.

Lemma split_whitespace_scan_concat : ∀ s cur : string,
  String.concat "" (split_whitespace_scan s cur) = cur +:+ squeeze s.
Proof.
  induction s as [|c s IH]; intros cur; cbn [split_whitespace_scan squeeze].
  - destruct (String.eqb_spec cur "") as [->|]; simpl; [done|]. by rewrite app_empty_r.
  - destruct (isspace c).
    + destruct (String.eqb_spec cur "") as [->|]; [apply IH|].
      rewrite concat_empty_cons, IH. reflexivity.
    + rewrite IH, app_assoc_string. reflexivity.
Qed.

Lemma classify_concat self : ∀ subs output,
  String.concat "" (classify self subs output)
  = String.concat "" output +:+ String.concat "" subs.
Proof.
  induction subs as [|sub subs IH]; intros output; cbn [classify].
  - simpl. by rewrite app_empty_r.
  - rewrite concat_empty_cons.
    destruct (bool_decide _ || is_numeric sub); rewrite IH, concat_empty_app.
    + simpl. by rewrite app_assoc_string.
    + by rewrite concat_chars, app_assoc_string.
Qed.

(** The tokenizer neither drops nor invents a character: whenever it
    returns, in whatever order it visits the tokens, its tokens put
    together are the input without its whitespace. *)
Theorem tokenizer_keeps_characters self (order : list string) (s : string)
    (tokens : list string) :
  _shuntyard_format_string self order s = Ok tokens →
  String.concat "" tokens = squeeze s.
Proof.
  unfold _shuntyard_format_string. intros Hrun.
  destruct (isolate_each order s) as [s'|] eqn:Hiso; [|discriminate].
  simpl in Hrun. inversion Hrun; subst.
  rewrite classify_concat. unfold split_whitespace.
  rewrite split_whitespace_scan_concat. simpl.
  by apply (isolate_each_squeeze order).
Qed.

Lemma tokenizer_keeps_characters_witness :
  let self := standard unavailable in
  _shuntyard_format_string self (listed_order self) "cos(pi + 2) -3"
  = Ok ["cos"; "("; "pi"; "+"; "2"; ")"; "-"; "3"]
  ∧ String.concat "" ["cos"; "("; "pi"; "+"; "2"; ")"; "-"; "3"] = squeeze "cos(pi + 2) -3".
Proof.
  intros self.
  assert (H : _shuntyard_format_string self (listed_order self) "cos(pi + 2) -3"
              = Ok ["cos"; "("; "pi"; "+"; "2"; ")"; "-"; "3"]) by (vm_compute; reflexivity).
  split; [exact H|]. exact (tokenizer_keeps_characters _ _ _ _ H).
Defined.

Lemma blank_free_app (a b : string) :
  blank_free (a +:+ b) = blank_free a && blank_free b.
Proof.
  induction a as [|x a IH]; [done|]. rewrite app_cons. cbn [blank_free].
  by rewrite IH, andb_assoc.
Qed.

Lemma split_whitespace_scan_pieces : ∀ s cur : string,
  blank_free cur = true →
  Forall (fun t => t ≠ "" ∧ blank_free t = true) (split_whitespace_scan s cur).
Proof.
  induction s as [|c s IH]; intros cur Hcur; cbn [split_whitespace_scan].
  - destruct (String.eqb_spec cur "") as [->|Hne]; [constructor|]. by repeat constructor.
  - destruct (isspace c) eqn:Hspace.
    + destruct (String.eqb_spec cur "") as [->|Hne]; [by apply IH|].
      constructor; [done|]. by apply IH.
    + apply IH. rewrite blank_free_app, Hcur. cbn [blank_free]. by rewrite Hspace.
Qed.

Lemma chars_pieces (s : string) :
  blank_free s = true →
  Forall (fun t => String.length t = 1%nat ∧ blank_free t = true) (chars s).
Proof.
  induction s as [|c s IH]; intros Hs; cbn [chars]; [constructor|].
  cbn [blank_free] in Hs. apply andb_true_iff in Hs as [Hc Hs].
  constructor; [|by apply IH]. split; [done|]. cbn [blank_free]. by rewrite Hc.
Qed.

(** Every token the tokenizer returns is non-empty and free of
    whitespace, and it is a recognised token, a numeric literal, or a
    single character. *)
Theorem tokenizer_tokens self (order : list string) (s : string) (tokens : list string) :
  _shuntyard_format_string self order s = Ok tokens →
  Forall (fun t => t ≠ "" ∧ blank_free t = true
                   ∧ (t ∈ recognised_tokens self ∨ is_numeric t = true
                      ∨ String.length t = 1%nat)) tokens.
Proof.
  unfold _shuntyard_format_string. intros Hrun.
  destruct (isolate_each order s) as [s'|]; [|discriminate].
  simpl in Hrun. inversion Hrun; subst. clear Hrun.
  pose proof (split_whitespace_scan_pieces s' "" eq_refl) as Hpieces.
  fold (split_whitespace s') in Hpieces.
  assert (Hgen : ∀ subs output,
    Forall (fun t => t ≠ "" ∧ blank_free t = true) subs →
    Forall (fun t => t ≠ "" ∧ blank_free t = true
                     ∧ (t ∈ recognised_tokens self ∨ is_numeric t = true
                        ∨ String.length t = 1%nat)) output →
    Forall (fun t => t ≠ "" ∧ blank_free t = true
                     ∧ (t ∈ recognised_tokens self ∨ is_numeric t = true
                        ∨ String.length t = 1%nat)) (classify self subs output)).
  { induction subs as [|sub subs IH]; intros output Hsubs Hout; cbn [classify]; [done|].
    inversion Hsubs as [|? ? [Hne Hfree] Hrest]; subst.
    destruct (bool_decide (sub ∈ recognised_tokens self) || is_numeric sub) eqn:Hknown.
    - apply IH; [done|]. apply Forall_app. split; [done|].
      constructor; [|done]. split; [done|]. split; [done|].
      apply orb_true_iff in Hknown as [Hrec|Hnum]; [left|right; by left].
      by apply bool_decide_eq_true in Hrec.
    - apply IH; [done|]. apply Forall_app. split; [done|].
      eapply Forall_impl; [by apply chars_pieces|].
      intros t [Hlen Hblank]. split; [|split; [done|by right; right]].
      intros ->. discriminate. }
  by apply Hgen.
Qed.

Lemma tokenizer_tokens_witness :
  let self := standard unavailable in
  _shuntyard_format_string self (listed_order self) "2pi+$"
  = Ok ["2"; "pi"; "+"; "$"]
  ∧ Forall (fun t => t ≠ "" ∧ blank_free t = true
                     ∧ (t ∈ recognised_tokens self ∨ is_numeric t = true
                        ∨ String.length t = 1%nat)) ["2"; "pi"; "+"; "$"].
Proof.
  intros self.
  assert (H : _shuntyard_format_string self (listed_order self) "2pi+$"
              = Ok ["2"; "pi"; "+"; "$"]) by (vm_compute; reflexivity).
  split; [exact H|]. exact (tokenizer_tokens _ _ _ _ H).
Defined.

End Characters.

(** ** Further properties of the converter *)

Section Conversion.
Context (self : MathEvaluator).

(** What the loops of the converter do to the two stacks: they move
    the tokens above the nearest ['('] from the operator stack to the
    end of the output, in the order in which they are popped. *)
Lemma pop_operators_moves (incoming : Operator) :
  ∀ opt_stack val_stack opt_stack' val_stack',
  pop_operators self incoming opt_stack val_stack = Ok (opt_stack', val_stack') →
  ∃ moved, opt_stack = moved ++ opt_stack' ∧ val_stack' = val_stack ++ moved
           ∧ Forall (fun t => t ≠ "(") moved.
Proof.
  induction opt_stack as [|top rest IH]; intros val_stack opt_stack' val_stack' Hpop.
  - inversion Hpop; subst. exists []. rewrite !app_nil_r. split_and!; [done|done|constructor].
  - cbn [pop_operators] in Hpop.
    destruct (String.eqb_spec top "(") as [->|Hparen].
    { inversion Hpop; subst. exists []. rewrite !app_nil_r. split_and!; [done|done|constructor]. }
    destruct (_operators self !! top) as [op|]; [|discriminate].
    destruct (operator_condition incoming op).
    + destruct (IH _ _ _ Hpop) as (moved & -> & -> & Hmoved).
      exists (top :: moved).
      split_and!; [done|by rewrite <- app_assoc|by constructor].
    + inversion Hpop; subst. exists []. rewrite !app_nil_r. split_and!; [done|done|constructor].
Qed.

Lemma pop_until_paren_moves paren :
  ∀ opt_stack val_stack opt_stack' val_stack',
  pop_until_paren paren opt_stack val_stack = Ok (opt_stack', val_stack') →
  ∃ moved rest, opt_stack = moved ++ opt_stack' ∧ val_stack' = val_stack ++ moved
                ∧ Forall (fun t => t ≠ "(") moved ∧ opt_stack' = "(" :: rest.
Proof.
  induction opt_stack as [|top rest IH]; intros val_stack opt_stack' val_stack' Hpop.
  - discriminate.
  - cbn [pop_until_paren] in Hpop.
    destruct (String.eqb_spec top "(") as [->|Hparen].
    { inversion Hpop; subst. exists [], rest. rewrite !app_nil_r. split_and!; [done|done|constructor|done]. }
    destruct (IH _ _ _ Hpop) as (moved & rest' & -> & -> & Hmoved & ->).
    exists (top :: moved), rest'.
    split_and!; [done|by rewrite <- app_assoc|by constructor|done].
Qed.

Lemma drain_moves : ∀ opt_stack val_stack postfix,
  drain opt_stack val_stack = Ok postfix →
  postfix = val_stack ++ opt_stack ∧ Forall (fun t => t ≠ "(") opt_stack.
Proof.
  induction opt_stack as [|top rest IH]; intros val_stack postfix Hdrain.
  - inversion Hdrain; subst. by rewrite app_nil_r.
  - cbn [drain] in Hdrain.
    destruct (String.eqb_spec top "(") as [->|Hparen]; [discriminate|].
    destruct (IH _ _ Hdrain) as [-> Hrest].
    split; [by rewrite <- app_assoc|by constructor].
Qed.

Lemma check_implicit_operation_pushes substr i opt_stack opt_stack' :
  check_implicit_operation self substr i opt_stack = Ok opt_stack' →
  opt_stack' = opt_stack
  ∨ ∃ op, _implicit_operation self = Some op ∧ opt_stack' = operator_token op :: opt_stack.
Proof.
  unfold check_implicit_operation. intros Hcheck.
  destruct (i =? 0)%nat; [inversion Hcheck; by left|].
  destruct (substr !! (i - 1)%nat) as [previous|]; [|discriminate].
  destruct (is_numeric previous); [|inversion Hcheck; by left].
  destruct (_implicit_operation self) as [op|]; inversion Hcheck; [|by left].
  right. by exists op.
Qed.

(** *** The tokens of the postfix list *)

Lemma parse_token_from_input substr i (string : string)
    opt_stack val_stack opt_stack' val_stack' :
  string ∈ substr →
  parse_token self substr i string opt_stack val_stack = Ok (opt_stack', val_stack') →
  Forall (from_input self substr) opt_stack → Forall (from_input self substr) val_stack →
  Forall (from_input self substr) opt_stack' ∧ Forall (from_input self substr) val_stack'.
Proof.
  intros Hin Hstep Hs Ho.
  assert (Hstring : from_input self substr string) by by left.
  assert (Hchecked : ∀ stack1,
    check_implicit_operation self substr i opt_stack = Ok stack1 →
    Forall (from_input self substr) stack1).
  { intros stack1 Hcheck.
    destruct (check_implicit_operation_pushes _ _ _ _ Hcheck) as [->|(op & Hop & ->)];
      [done|].
    constructor; [|done]. right. by exists op. }
  unfold parse_token in Hstep.
  destruct (is_numeric string).
  { inversion Hstep; subst. split; [done|]. apply Forall_app. split; [done|]. by apply Forall_singleton. }
  destruct (has_key (_constants self) string).
  { destruct (check_implicit_operation self substr i opt_stack) as [stack1|] eqn:Hcheck;
      [|discriminate].
    inversion Hstep; subst. split; [by apply Hchecked|].
    apply Forall_app. split; [done|]. by apply Forall_singleton. }
  destruct (has_key (_functions self) string).
  { destruct (check_implicit_operation self substr i opt_stack) as [stack1|] eqn:Hcheck;
      [|discriminate].
    inversion Hstep; subst. split; [|done]. constructor; [done|by apply Hchecked]. }
  destruct (_operators self !! string) as [incoming|].
  { destruct (pop_operators self incoming opt_stack val_stack) as [[stack1 out1]|] eqn:Hpop;
      [|discriminate].
    inversion Hstep; subst.
    destruct (pop_operators_moves _ _ _ _ _ Hpop) as (moved & -> & -> & _).
    apply Forall_app in Hs as [Hmoved Hs].
    split; [by constructor|]. by apply Forall_app. }
  destruct (String.eqb string ",").
  { destruct (pop_until_paren_moves _ _ _ _ _ Hstep) as (moved & rest & -> & -> & _ & _).
    apply Forall_app in Hs as [Hmoved Hs]. split; [done|]. by apply Forall_app. }
  destruct (String.eqb string "(").
  { inversion Hstep; subst. split; [by constructor|done]. }
  destruct (String.eqb string ")"); [|discriminate].
  destruct (pop_until_paren ")" opt_stack val_stack) as [[stack1 out1]|] eqn:Hpop;
    [|discriminate].
  destruct (pop_until_paren_moves _ _ _ _ _ Hpop) as (moved & rest & -> & -> & _ & ->).
  apply Forall_app in Hs as [Hmoved Hs]. inversion Hs as [|? ? _ Hrest]; subst.
  cbn [bind tail] in Hstep.
  assert (Hout : Forall (from_input self substr) (val_stack ++ moved)) by by apply Forall_app.
  destruct rest as [|top rest]; [inversion Hstep; subst; done|].
  inversion Hrest as [|? ? Htop Hrest']; subst.
  destruct (has_key (_functions self) top); inversion Hstep; subst; [|done].
  split; [done|]. apply Forall_app. split; [done|]. by apply Forall_singleton.
Qed.

Lemma parse_tokens_from_input substr :
  ∀ rest i opt_stack val_stack opt_stack' val_stack',
  Forall (fun t => t ∈ substr) rest →
  parse_tokens self substr i rest opt_stack val_stack = Ok (opt_stack', val_stack') →
  Forall (from_input self substr) opt_stack → Forall (from_input self substr) val_stack →
  Forall (from_input self substr) opt_stack' ∧ Forall (from_input self substr) val_stack'.
Proof.
  induction rest as [|string rest IH];
    intros i opt_stack val_stack opt_stack' val_stack' Hrest Hrun Hs Ho.
  - inversion Hrun; subst. done.
  - cbn [parse_tokens] in Hrun. inversion Hrest as [|? ? Hin Hrest']; subst.
    destruct (parse_token self substr i string opt_stack val_stack)
      as [[stack1 out1]|] eqn:Hstep; [|discriminate].
    destruct (parse_token_from_input _ _ _ _ _ _ _ Hin Hstep Hs Ho) as [Hs1 Ho1].
    exact (IH _ _ _ _ _ Hrest' Hrun Hs1 Ho1).
Qed.

(** The converter invents no token: every token of the postfix list
    is a token of the input or the token of the implicit operation. *)
Theorem postfix_from_input (substr postfix : list string) :
  shunting_yard self substr = Ok postfix →
  Forall (from_input self substr) postfix.
Proof.
  unfold shunting_yard. intros Hrun.
  destruct (parse_tokens self substr 0 substr [] []) as [[stack out]|] eqn:Hscan;
    [|discriminate].
  cbn [bind] in Hrun.
  destruct (parse_tokens_from_input substr substr 0%nat [] [] stack out) as [Hs Ho];
    [by apply Forall_forall|done|done|done|].
  destruct (drain_moves _ _ _ Hrun) as [-> _]. by apply Forall_app.
Qed.

(** *** A token the converter does not know *)

Lemma not_recognised_lookup (t : string) :
  t ∉ recognised_tokens self →
  _operators self !! t = None ∧ _functions self !! t = None ∧ _constants self !! t = None.
Proof.
  unfold recognised_tokens. intros Hnew. split_and!; apply not_elem_of_dom; intros Hin;
    apply Hnew; apply elem_of_union.
  - left. apply elem_of_union. by left.
  - left. apply elem_of_union. by right.
  - by right.
Qed.

Lemma has_key_recognised (t : string) :
  has_key (_operators self) t = true ∨ has_key (_functions self) t = true
  ∨ has_key (_constants self) t = true →
  t ∈ recognised_tokens self.
Proof.
  intros Hkey. destruct (decide (t ∈ recognised_tokens self)) as [|Hnew]; [done|].
  destruct (not_recognised_lookup t Hnew) as (Ho & Hf & Hc).
  unfold has_key in Hkey. rewrite Ho, Hf, Hc in Hkey.
  destruct Hkey as [?|[?|?]]; discriminate.
Qed.

Lemma parse_token_unrecognised substr i (t : string) opt_stack val_stack :
  unrecognised self t →
  ∃ e, parse_token self substr i t opt_stack val_stack = Raise e.
Proof.
  intros (Hnum & Hnew & Hplain). unfold parse_token. rewrite Hnum.
  destruct (not_recognised_lookup t Hnew) as (Ho & Hf & Hc).
  unfold has_key. rewrite Hc, Hf, Ho.
  unfold structural in Hplain. rewrite !orb_false_iff in Hplain.
  destruct Hplain as [[H1 H2] H3]. rewrite H1, H2, H3. by eexists.
Qed.

Lemma parse_tokens_unrecognised substr (t : string) :
  unrecognised self t →
  ∀ rest i opt_stack val_stack, t ∈ rest →
  ∃ e, parse_tokens self substr i rest opt_stack val_stack = Raise e.
Proof.
  intros Ht. induction rest as [|string rest IH]; intros i opt_stack val_stack Hin.
  - by apply elem_of_nil in Hin.
  - cbn [parse_tokens].
    destruct (parse_token self substr i string opt_stack val_stack)
      as [[stack1 out1]|e] eqn:Hstep; [|by exists e].
    apply elem_of_cons in Hin as [->|Hin].
    + destruct (parse_token_unrecognised substr i string opt_stack val_stack Ht) as [e He].
      rewrite He in Hstep. discriminate.
    + cbn [bind]. by apply IH.
Qed.

(** A token that is not numeric, not registered and not structural
    makes the conversion fail, wherever it stands in the list. *)
Theorem unrecognised_token_raises (substr : list string) (t : string) :
  unrecognised self t → t ∈ substr →
  ∃ e, shunting_yard self substr = Raise e.
Proof.
  intros Ht Hin. unfold shunting_yard.
  destruct (parse_tokens_unrecognised substr t Ht substr 0%nat [] [] Hin) as [e He].
  rewrite He. by exists e.
Qed.

(** *** The order of the operands *)

Lemma filter_operand_moved (moved out : list string) :
  Forall (fun t => operand self t = false) moved →
  List.filter (operand self) (out ++ moved) = List.filter (operand self) out.
Proof.
  intros Hmoved. rewrite List.filter_app.
  assert (Hnone : List.filter (operand self) moved = []).
  { induction Hmoved as [|t moved Ht _ IH]; [done|]. cbn [List.filter]. by rewrite Ht. }
  by rewrite Hnone, app_nil_r.
Qed.

Section Operands.
Hypothesis Himplicit :
  ∀ op, _implicit_operation self = Some op → operand self (operator_token op) = false.

Lemma parse_token_operands substr i (string : string)
    opt_stack val_stack opt_stack' val_stack' :
  parse_token self substr i string opt_stack val_stack = Ok (opt_stack', val_stack') →
  Forall (fun t => operand self t = false) opt_stack →
  Forall (fun t => operand self t = false) opt_stack'
  ∧ List.filter (operand self) val_stack'
    = List.filter (operand self) val_stack ++ List.filter (operand self) [string].
Proof.
  intros Hstep Hs.
  assert (Hchecked : ∀ stack1,
    check_implicit_operation self substr i opt_stack = Ok stack1 →
    Forall (fun t => operand self t = false) stack1).
  { intros stack1 Hcheck.
    destruct (check_implicit_operation_pushes _ _ _ _ Hcheck) as [->|(op & Hop & ->)];
      [done|].
    constructor; [by apply Himplicit|done]. }
  unfold parse_token in Hstep. cbn [List.filter]. unfold operand at 4.
  destruct (is_numeric string) eqn:Hnum.
  { inversion Hstep; subst. split; [done|].
    rewrite List.filter_app. cbn [List.filter]. unfold operand at 2. by rewrite Hnum. }
  destruct (has_key (_constants self) string) eqn:Hconst.
  { destruct (check_implicit_operation self substr i opt_stack) as [stack1|] eqn:Hcheck;
      [|discriminate].
    inversion Hstep; subst. split; [by apply Hchecked|].
    rewrite List.filter_app. cbn [List.filter]. unfold operand at 2.
    by rewrite Hnum, Hconst. }
  assert (Hstring : operand self string = false).
  { unfold operand. by rewrite Hnum, Hconst. }
  cbn [orb]. rewrite app_nil_r.
  destruct (has_key (_functions self) string).
  { destruct (check_implicit_operation self substr i opt_stack) as [stack1|] eqn:Hcheck;
      [|discriminate].
    inversion Hstep; subst. split; [|done]. constructor; [done|by apply Hchecked]. }
  destruct (_operators self !! string) as [incoming|].
  { destruct (pop_operators self incoming opt_stack val_stack) as [[stack1 out1]|] eqn:Hpop;
      [|discriminate].
    inversion Hstep; subst.
    destruct (pop_operators_moves _ _ _ _ _ Hpop) as (moved & -> & -> & _).
    apply Forall_app in Hs as [Hmoved Hs].
    split; [by constructor|]. by apply filter_operand_moved. }
  destruct (String.eqb string ",").
  { destruct (pop_until_paren_moves _ _ _ _ _ Hstep) as (moved & rest & -> & -> & _ & _).
    apply Forall_app in Hs as [Hmoved Hs]. split; [done|]. by apply filter_operand_moved. }
  destruct (String.eqb string "(").
  { inversion Hstep; subst. split; [by constructor|done]. }
  destruct (String.eqb string ")"); [|discriminate].
  destruct (pop_until_paren ")" opt_stack val_stack) as [[stack1 out1]|] eqn:Hpop;
    [|discriminate].
  destruct (pop_until_paren_moves _ _ _ _ _ Hpop) as (moved & rest & -> & -> & _ & ->).
  apply Forall_app in Hs as [Hmoved Hs]. inversion Hs as [|? ? _ Hrest]; subst.
  cbn [bind tail] in Hstep.
  destruct rest as [|top rest].
  { inversion Hstep; subst. split; [done|]. by apply filter_operand_moved. }
  inversion Hrest as [|? ? Htop Hrest']; subst.
  destruct (has_key (_functions self) top); inversion Hstep; subst.
  - split; [done|]. rewrite <- app_assoc. apply filter_operand_moved.
    apply Forall_app. split; [done|]. by apply Forall_singleton.
  - split; [done|]. by apply filter_operand_moved.
Qed.

Lemma parse_tokens_operands substr :
  ∀ rest i opt_stack val_stack opt_stack' val_stack',
  parse_tokens self substr i rest opt_stack val_stack = Ok (opt_stack', val_stack') →
  Forall (fun t => operand self t = false) opt_stack →
  Forall (fun t => operand self t = false) opt_stack'
  ∧ List.filter (operand self) val_stack'
    = List.filter (operand self) val_stack ++ List.filter (operand self) rest.
Proof.
  induction rest as [|string rest IH];
    intros i opt_stack val_stack opt_stack' val_stack' Hrun Hs.
  - inversion Hrun; subst. by rewrite app_nil_r.
  - cbn [parse_tokens] in Hrun.
    destruct (parse_token self substr i string opt_stack val_stack)
      as [[stack1 out1]|] eqn:Hstep; [|discriminate].
    destruct (parse_token_operands _ _ _ _ _ _ _ Hstep Hs) as [Hs1 Ho1].
    destruct (IH _ _ _ _ _ Hrun Hs1) as [Hs2 Ho2].
    split; [done|]. rewrite Ho2, Ho1, <- app_assoc.
    change (string :: rest) with ([string] ++ rest). by rewrite List.filter_app.
Qed.

(** The conversion keeps the operands, the numeric literals and the
    constants, in the order of the input, when the token of the
    implicit operation is not itself an operand. *)
Theorem operands_keep_order (substr postfix : list string) :
  shunting_yard self substr = Ok postfix →
  List.filter (operand self) postfix = List.filter (operand self) substr.
Proof.
  unfold shunting_yard. intros Hrun.
  destruct (parse_tokens self substr 0 substr [] []) as [[stack out]|] eqn:Hscan;
    [|discriminate].
  cbn [bind] in Hrun.
  destruct (parse_tokens_operands _ _ _ _ _ _ _ Hscan) as [Hs Ho]; [done|].
  destruct (drain_moves _ _ _ Hrun) as [-> _].
  by rewrite filter_operand_moved.
Qed.

End Operands.

(** *** Parentheses *)

Lemma occurrences_app (t : string) (a b : list string) :
  occurrences t (a ++ b) = (occurrences t a + occurrences t b)%nat.
Proof. unfold occurrences. by rewrite List.filter_app, List.length_app. Qed.

Lemma occurrences_cons (t x : string) (l : list string) :
  occurrences t (x :: l) = (occurrences t [x] + occurrences t l)%nat.
Proof. apply (occurrences_app t [x] l). Qed.

Lemma occurrences_other (t x : string) : x ≠ t → occurrences t [x] = 0%nat.
Proof.
  intros Hne. unfold occurrences. cbn [List.filter].
  destruct (String.eqb_spec t x); [congruence|done].
Qed.

Lemma occurrences_same (t : string) : occurrences t [t] = 1%nat.
Proof. unfold occurrences. cbn [List.filter]. by rewrite String.eqb_refl. Qed.

Lemma occurrences_none (t : string) (l : list string) :
  Forall (fun x => x ≠ t) l → occurrences t l = 0%nat.
Proof.
  induction 1 as [|x l Hx _ IH]; [done|].
  by rewrite occurrences_cons, IH, occurrences_other.
Qed.

Section Parentheses.
Hypothesis Hopen : "(" ∉ recognised_tokens self.
Hypothesis Hclose : ")" ∉ recognised_tokens self.
Hypothesis Hregistered : implicit_registered self = true.

Lemma recognised_plain (t : string) :
  t ∈ recognised_tokens self →
  occurrences "(" [t] = 0%nat ∧ occurrences ")" [t] = 0%nat.
Proof.
  intros Hin. split; apply occurrences_other; intros ->; done.
Qed.

Lemma numeric_plain (t : string) :
  is_numeric t = true → occurrences "(" [t] = 0%nat ∧ occurrences ")" [t] = 0%nat.
Proof.
  intros Hnum. split; apply occurrences_other; intros ->; vm_compute in Hnum; discriminate.
Qed.

Lemma check_implicit_operation_parens substr i opt_stack opt_stack' :
  check_implicit_operation self substr i opt_stack = Ok opt_stack' →
  occurrences "(" opt_stack' = occurrences "(" opt_stack.
Proof.
  intros Hcheck.
  destruct (check_implicit_operation_pushes _ _ _ _ Hcheck) as [->|(op & Hop & ->)];
    [done|].
  pose proof Hregistered as Hreg. unfold implicit_registered in Hreg. rewrite Hop in Hreg.
  rewrite (occurrences_cons "(" _ opt_stack).
  destruct (recognised_plain (operator_token op)) as [-> _]; [|done].
  apply has_key_recognised. by left.
Qed.

Lemma parse_token_parens substr i (string : string)
    opt_stack val_stack opt_stack' val_stack' :
  parse_token self substr i string opt_stack val_stack = Ok (opt_stack', val_stack') →
  (occurrences "(" opt_stack' + occurrences ")" [string]
   = occurrences "(" opt_stack + occurrences "(" [string])%nat.
Proof.
  intros Hstep. unfold parse_token in Hstep.
  destruct (is_numeric string) eqn:Hnum.
  { inversion Hstep; subst. destruct (numeric_plain _ Hnum) as [-> ->]. done. }
  destruct (has_key (_constants self) string) eqn:Hconst.
  { destruct (check_implicit_operation self substr i opt_stack) as [stack1|] eqn:Hcheck;
      [|discriminate].
    inversion Hstep; subst.
    destruct (recognised_plain string) as [-> ->]; [apply has_key_recognised; tauto|].
    by rewrite (check_implicit_operation_parens _ _ _ _ Hcheck). }
  destruct (has_key (_functions self) string) eqn:Hfunc.
  { destruct (check_implicit_operation self substr i opt_stack) as [stack1|] eqn:Hcheck;
      [|discriminate].
    inversion Hstep; subst. rewrite (occurrences_cons "(" string stack1).
    destruct (recognised_plain string) as [-> ->]; [apply has_key_recognised; tauto|].
    by rewrite (check_implicit_operation_parens _ _ _ _ Hcheck). }
  destruct (_operators self !! string) as [incoming|] eqn:Hop.
  { destruct (pop_operators self incoming opt_stack val_stack) as [[stack1 out1]|] eqn:Hpop;
      [|discriminate].
    inversion Hstep; subst.
    destruct (pop_operators_moves _ _ _ _ _ Hpop) as (moved & -> & -> & Hmoved).
    rewrite (occurrences_cons "(" string stack1), occurrences_app, (occurrences_none _ _ Hmoved).
    destruct (recognised_plain string) as [-> ->]; [|done].
    apply has_key_recognised. left. unfold has_key. by rewrite Hop. }
  destruct (String.eqb_spec string ",") as [->|Hcomma].
  { destruct (pop_until_paren_moves _ _ _ _ _ Hstep) as (moved & rest & -> & -> & Hmoved & _).
    rewrite occurrences_app, (occurrences_none _ _ Hmoved).
    by rewrite !occurrences_other. }
  destruct (String.eqb_spec string "(") as [->|Hleft].
  { inversion Hstep; subst.
    rewrite (occurrences_cons "(" "(" opt_stack), occurrences_same, occurrences_other by done.
    lia. }
  destruct (String.eqb_spec string ")") as [->|Hright]; [|discriminate].
  destruct (pop_until_paren ")" opt_stack val_stack) as [[stack1 out1]|] eqn:Hpop;
    [|discriminate].
  destruct (pop_until_paren_moves _ _ _ _ _ Hpop) as (moved & rest & -> & -> & Hmoved & ->).
  cbn [bind tail] in Hstep.
  rewrite occurrences_app, (occurrences_none _ _ Hmoved), (occurrences_cons "(" "(" rest).
  rewrite !occurrences_same, occurrences_other by done.
  destruct rest as [|top rest]; [inversion Hstep; subst; cbn; lia|].
  destruct (has_key (_functions self) top) eqn:Htop; inversion Hstep; subst; [|lia].
  rewrite (occurrences_cons _ top).
  destruct (recognised_plain top) as [-> _]; [apply has_key_recognised; tauto|]. lia.
Qed.

Lemma parse_tokens_parens substr :
  ∀ rest i opt_stack val_stack opt_stack' val_stack',
  parse_tokens self substr i rest opt_stack val_stack = Ok (opt_stack', val_stack') →
  (occurrences "(" opt_stack' + occurrences ")" rest
   = occurrences "(" opt_stack + occurrences "(" rest)%nat.
Proof.
  induction rest as [|string rest IH];
    intros i opt_stack val_stack opt_stack' val_stack' Hrun.
  - inversion Hrun; subst. done.
  - cbn [parse_tokens] in Hrun.
    destruct (parse_token self substr i string opt_stack val_stack)
      as [[stack1 out1]|] eqn:Hstep; [|discriminate].
    pose proof (parse_token_parens _ _ _ _ _ _ _ Hstep) as H1.
    pose proof (IH _ _ _ _ _ Hrun) as H2.
    rewrite (occurrences_cons "(" string), (occurrences_cons ")" string). lia.
Qed.


End Parentheses.

End Conversion.

Lemma postfix_from_input_witness :
  let self := standard unavailable in
  shunting_yard self ["2"; "pi"] = Ok ["2"; "pi"; "*"]
  ∧ Forall (from_input self ["2"; "pi"]) ["2"; "pi"; "*"].
Proof.
  intros self.
  assert (H : shunting_yard self ["2"; "pi"] = Ok ["2"; "pi"; "*"])
    by (vm_compute; reflexivity).
  split; [exact H|]. exact (postfix_from_input self _ _ H).
Defined.

Lemma unrecognised_token_raises_witness :
  let self := standard unavailable in
  unrecognised self "$" ∧ "$" ∈ ["2"; "+"; "$"]
  ∧ ∃ e, shunting_yard self ["2"; "+"; "$"] = Raise e.
Proof.
  intros self.
  assert (H1 : unrecognised self "$").
  { split; [vm_compute; reflexivity|]. split; [|vm_compute; reflexivity].
    apply (bool_decide_unpack _). vm_compute. reflexivity. }
  assert (H2 : "$" ∈ ["2"; "+"; "$"]).
  { apply (bool_decide_unpack _). vm_compute. reflexivity. }
  split; [exact H1|]. split; [exact H2|].
  exact (unrecognised_token_raises self _ _ H1 H2).
Defined.

Lemma operands_keep_order_witness :
  let self := standard unavailable in
  (∀ op, _implicit_operation self = Some op → operand self (operator_token op) = false)
  ∧ shunting_yard self ["2"; "+"; "pi"; "*"; "3"] = Ok ["2"; "pi"; "3"; "*"; "+"]
  ∧ List.filter (operand self) ["2"; "pi"; "3"; "*"; "+"]
    = List.filter (operand self) ["2"; "+"; "pi"; "*"; "3"].
Proof.
  intros self.
  assert (H1 : ∀ op, _implicit_operation self = Some op
                     → operand self (operator_token op) = false).
  { intros op Hop.
    assert (Htoken : operator_token <$> _implicit_operation self = Some "*")
      by (vm_compute; reflexivity).
    rewrite Hop in Htoken. inversion Htoken as [Heq]. rewrite Heq.
    vm_compute. reflexivity. }
  assert (H2 : shunting_yard self ["2"; "+"; "pi"; "*"; "3"]
               = Ok ["2"; "pi"; "3"; "*"; "+"]) by (vm_compute; reflexivity).
  split; [exact H1|]. split; [exact H2|].
  exact (operands_keep_order self H1 _ _ H2).
Defined.


(** ** Further properties of the evaluator *)

Section Evaluation.
Context (self : MathEvaluator).

Lemma pop_values_length : ∀ (n : nat) values temp values' temp',
  pop_values n values temp = Some (values', temp') →
  length values = (n + length values')%nat.
Proof.
  induction n as [|n IH]; intros values temp values' temp' Hpop.
  - inversion Hpop; subst. done.
  - cbn [pop_values] in Hpop. destruct values as [|v values]; [discriminate|].
    cbn [length]. by rewrite (IH _ _ _ _ Hpop).
Qed.

Lemma evaluate_token_height (char : string) (values values' : list NumericType) :
  evaluate_token self char values = Ok values' →
  Z.of_nat (length values') = Z.of_nat (length values) + net self char.
Proof.
  unfold evaluate_token, net. intros Hstep.
  destruct (lookup_symbol self char) as [refer|].
  - unfold apply_symbol in Hstep.
    destruct (pop_values (Z.to_nat (n_var refer)) values []) as [[rest temp]|] eqn:Hpop;
      [|discriminate].
    destruct (call refer (rev temp)) as [r|]; [|discriminate].
    inversion Hstep; subst. apply pop_values_length in Hpop.
    cbn [length]. lia.
  - destruct (_constants self !! char) as [c|].
    + inversion Hstep; subst. cbn [length]. lia.
    + destruct (float_of_str char) as [f|[]]; inversion Hstep; subst. cbn [length]. lia.
Qed.

Lemma evaluate_tokens_height : ∀ (expr : list string) (values values' : list NumericType),
  evaluate_tokens self expr values = Ok values' →
  Z.of_nat (length values') = Z.of_nat (length values) + height self expr.
Proof.
  induction expr as [|char expr IH]; intros values values' Hrun.
  - inversion Hrun; subst. cbn. lia.
  - cbn [evaluate_tokens] in Hrun.
    destruct (evaluate_token self char values) as [values1|] eqn:Hstep; [|discriminate].
    apply evaluate_token_height in Hstep. apply IH in Hrun.
    cbn [height foldr]. fold (height self expr). lia.
Qed.

(** A postfix list that evaluates to a value is balanced: its tokens
    other than symbols exceed by one what its symbols consume, a
    symbol of [n] operands consuming [n - 1]. *)
Theorem evaluation_balance (expr : list string) (v : NumericType) :
  expr ≠ [] → postfit_evaluate self expr = Ok v → height self expr = 1.
Proof.
  intros Hne Hrun. unfold postfit_evaluate in Hrun.
  destruct expr as [|char expr]; [done|].
  destruct (evaluate_tokens self (char :: expr) []) as [values|] eqn:Hvalues;
    [|discriminate].
  apply evaluate_tokens_height in Hvalues. cbn [bind] in Hrun.
  destruct values as [|v1 [|v2 values]]; try discriminate.
  cbn [length] in Hvalues. lia.
Qed.

Lemma evaluate_token_operand (char : string) (values : list NumericType) :
  lookup_symbol self char = None → operand self char = true →
  ∃ v, evaluate_token self char values = Ok (v :: values).
Proof.
  unfold evaluate_token, operand, has_key, is_numeric. intros -> Hoperand.
  destruct (_constants self !! char) as [c|]; [by eexists|].
  rewrite orb_false_r in Hoperand.
  destruct (float_of_str char) as [f|]; [by eexists|discriminate].
Qed.

Lemma evaluate_tokens_operands : ∀ (expr : list string) (values : list NumericType),
  Forall (fun char => lookup_symbol self char = None ∧ operand self char = true) expr →
  ∃ values', evaluate_tokens self expr values = Ok values'
             ∧ length values' = (length expr + length values)%nat.
Proof.
  induction expr as [|char expr IH]; intros values Hall.
  - by exists values.
  - inversion Hall as [|? ? [Hplain Hoperand] Hrest]; subst.
    destruct (evaluate_token_operand char values Hplain Hoperand) as [v Hv].
    destruct (IH (v :: values) Hrest) as (values' & Hrun & Hlen).
    exists values'. cbn [evaluate_tokens]. rewrite Hv. cbn [bind].
    split; [done|]. rewrite Hlen. cbn [length]. lia.
Qed.

(** Operands alone do not make an expression: a postfix list of two or
    more numeric literals and constants, none of them also a symbol,
    is refused for its number of operands. *)
Theorem operands_alone_refused (expr : list string) :
  Forall (fun char => lookup_symbol self char = None ∧ operand self char = true) expr →
  (2 ≤ length expr)%nat →
  postfit_evaluate self expr = Raise (OperandException "Too many operands was given").
Proof.
  intros Hall Hlen.
  destruct (evaluate_tokens_operands expr [] Hall) as (values & Hrun & Hvalues).
  unfold postfit_evaluate. destruct expr as [|char expr]; [cbn in Hlen; lia|].
  rewrite Hrun. cbn [bind].
  destruct values as [|v1 [|v2 values]]; [done| |done].
  cbn [length] in Hvalues, Hlen. lia.
Qed.

End Evaluation.

Lemma evaluation_balance_witness :
  let self := standard unavailable in
  ["2"; "3"; "+"] ≠ [] ∧ postfit_evaluate self ["2"; "3"; "+"] = Ok (PyFloat 5)
  ∧ height self ["2"; "3"; "+"] = 1.
Proof.
  intros self.
  assert (H1 : ["2"; "3"; "+"] ≠ ([] : list string)) by discriminate.
  assert (H2 : postfit_evaluate self ["2"; "3"; "+"] = Ok (PyFloat 5))
    by (vm_compute; reflexivity).
  split; [exact H1|]. split; [exact H2|].
  exact (evaluation_balance self _ _ H1 H2).
Defined.

Lemma operands_alone_refused_witness :
  let self := standard unavailable in
  Forall (fun char => lookup_symbol self char = None ∧ operand self char = true) ["2"; "pi"]
  ∧ (2 ≤ length ["2"; "pi"])%nat
  ∧ postfit_evaluate self ["2"; "pi"]
    = Raise (OperandException "Too many operands was given").
Proof.
  intros self.
  assert (H1 : Forall (fun char => lookup_symbol self char = None
                                   ∧ operand self char = true) ["2"; "pi"]).
  { repeat constructor; vm_compute; reflexivity. }
  assert (H2 : (2 ≤ length ["2"; "pi"])%nat) by (simpl; lia).
  split; [exact H1|]. split; [exact H2|].
  exact (operands_alone_refused self _ H1 H2).
Defined.

(** ** Further properties of the function tab *)

Section Templates.

Lemma x_free_app (a b : string) : x_free (a +:+ b) = x_free a && x_free b.
Proof.
  induction a as [|c a IH]; [done|]. rewrite app_cons. cbn [x_free].
  by rewrite IH, andb_assoc.
Qed.

Lemma x_free_take : ∀ (n : nat) (s : string), x_free s = true → x_free (take n s) = true.
Proof.
  induction n as [|n IH]; intros [|c s] Hs; try done.
  cbn [x_free take] in *. apply andb_true_iff in Hs as [Hc Hs].
  by rewrite Hc, IH.
Qed.

Lemma x_free_drop : ∀ (n : nat) (s : string), x_free s = true → x_free (drop n s) = true.
Proof.
  induction n as [|n IH]; intros [|c s] Hs; try done.
  cbn [x_free drop] in *. apply andb_true_iff in Hs as [Hc Hs]. by apply IH.
Qed.

Lemma x_free_zeros (n : nat) : x_free (zeros n) = true.
Proof. induction n as [|n IH]; [done|]. cbn [zeros x_free]. by rewrite IH. Qed.

Lemma x_free_string_of_uint (d : Decimal.uint) :
  x_free (NilEmpty.string_of_uint d) = true.
Proof. induction d; cbn [NilEmpty.string_of_uint x_free]; rewrite ?IHd; done. Qed.

Lemma x_free_str_of_int (z : Z) : x_free (str_of_int z) = true.
Proof.
  unfold str_of_int, NilZero.string_of_int, NilZero.string_of_uint.
  destruct (Z.to_int z) as [d|d]; cbn [x_free].
  - destruct d; try done; apply x_free_string_of_uint.
  - destruct d; try done; apply x_free_string_of_uint.
Qed.

Lemma x_free_format_repr (ds : string) (dp : Z) :
  x_free ds = true → x_free (format_repr ds dp) = true.
Proof.
  intros Hds. unfold format_repr.
  repeat match goal with
         | |- context [if ?b then _ else _] => destruct b
         end;
    rewrite ?x_free_app, ?x_free_zeros, ?x_free_take, ?x_free_drop, ?x_free_str_of_int, ?Hds
      by done; done.
Qed.

Lemma x_free_repr_float (f : float) : x_free (repr_float f) = true.
Proof.
  unfold repr_float. destruct (Prim2SF f) as [[]|[]| |s m e]; try done.
  destruct (shortest_from _ _ _ _ _) as [ds x].
  destruct (strip_zeros _ _ _) as [ds' x'].
  rewrite x_free_app, x_free_format_repr by apply x_free_str_of_int.
  by destruct s.
Qed.

(** The text of a number holds no [x], so it is no placeholder. *)
Lemma str_no_placeholder (a : NumericType) : no_placeholder (str a).
Proof.
  assert (Hfree : x_free (str a) = true).
  { destruct a; [apply x_free_str_of_int|apply x_free_repr_float]. }
  unfold no_placeholder. destruct (str a) as [|c s]; [done|].
  cbn [x_free] in Hfree. apply andb_true_iff in Hfree as [Hc _].
  destruct s; cbn [take]; intros Heq; inversion Heq; subst; done.
Qed.

Lemma substitute_placeholders (args : list NumericType) :
  ∀ (expression done expression' : list string),
  main_tasks.substitute args done expression = (expression', Ok tt) →
  Forall no_placeholder done → Forall no_placeholder expression'.
Proof.
  induction expression as [|token expression IH]; intros done expression' Hrun Hdone.
  - inversion Hrun; subst. done.
  - cbn [main_tasks.substitute] in Hrun.
    destruct (String.eqb_spec (take 2 token) "x_") as [Hx|Hx].
    + destruct (bind (last_char token) _) as [a|]; [|discriminate].
      apply (IH _ _ Hrun). apply Forall_app. split; [done|].
      apply Forall_singleton, str_no_placeholder.
    + apply (IH _ _ Hrun). apply Forall_app. split; [done|]. by apply Forall_singleton.
Qed.

(** A function made by the function tab answers its first call, and
    from then on takes no notice of its arguments: the first call
    leaves no placeholder in the list that all calls share, so a later
    call with as many arguments leaves the list as it is and returns
    what the main evaluator of that moment makes of the list.  In the
    main evaluator of the first call that is the value of the first
    call. *)
Theorem later_calls_ignore_arguments (self self' : MathEvaluator)
    (f f' : main_tasks.UserFunction) (args args' : list NumericType) (v : NumericType) :
  main_tasks.invoke self f args = (f', Ok v) →
  length args' = length args →
  main_tasks.invoke self' f' args'
  = (f', postfit_evaluate self' (main_tasks.func_expr f'))
  ∧ postfit_evaluate self (main_tasks.func_expr f') = Ok v.
Proof.
  unfold main_tasks.invoke, main_tasks.func_operation. intros Hfirst Hlen.
  destruct (negb (Z.of_nat (length args) =? main_tasks.no_of_variables f)) eqn:Harity;
    [inversion Hfirst|].
  destruct (main_tasks.substitute args [] (main_tasks.func_expr f))
    as [expression [[]|e]] eqn:Hsub; [|inversion Hfirst].
  inversion Hfirst as [[Hf Hv]]. subst f'.
  cbn [main_tasks.no_of_variables main_tasks.func_expr main_tasks.name].
  rewrite Hlen, Harity.
  rewrite (substitute_no_placeholder args' expression [])
    by exact (substitute_placeholders args _ [] _ Hsub (Forall_nil_2 _)).
  cbn [app]. by rewrite Hv.
Qed.

(** *** The names the function tab accepts *)

(** A name is accepted only if no function has it and it is made of
    letters, or of letters, an underscore and one letter or digit. *)
Theorem is_valid_name_shape (my_eval : MathEvaluator) (name : string) :
  main_tasks.is_valid_name my_eval name = true →
  has_key (_functions my_eval) name = false
  ∧ (main_tasks.isalpha name = true
     ∨ ∃ (base : string) (c : ascii),
         name = base +:+ "_" +:+ String c ""
         ∧ main_tasks.isalpha base = true ∧ main_tasks.isalnum_char c = true).
Proof.
  unfold main_tasks.is_valid_name. intros Hvalid.
  destruct (has_key (_functions my_eval) name); [discriminate|]. split; [done|].
  assert (Hjoin : join "_" (split_scan "_" name 0 "") = name).
  { rewrite split_scan_join; [done|done|lia]. }
  destruct (split_scan "_" name 0 "") as [|base [|t1 [|t2 rest]]]; try discriminate.
  - left. cbn in Hjoin. by subst.
  - right. cbn [hd] in Hvalid.
    destruct ((String.length t1 =? 1)%nat && main_tasks.isalnum t1) eqn:Hone;
      [|discriminate].
    apply andb_true_iff in Hone as [Hlen Halnum].
    destruct t1 as [|c [|? ?]]; try discriminate.
    exists base, c. split; [by rewrite <- Hjoin|]. split; [done|].
    unfold main_tasks.isalnum in Halnum. cbn in Halnum.
    by rewrite andb_true_r in Halnum.
Qed.

(** *** The variables of an accepted expression *)

Lemma check_variables_flag (my_eval : MathEvaluator) (n : Z) :
  ∀ (tokens : list string) (error : bool),
  main_tasks.check_variables my_eval n tokens error = Ok false →
  error = false
  ∧ Forall (fun t => t ∈ recognised_tokens my_eval ∨ is_numeric t = true
                     ∨ ∃ c k, last_char t = Ok c ∧ int_of_char c = Ok k ∧ k ≤ n) tokens.
Proof.
  induction tokens as [|t tokens IH]; intros error Hcheck.
  - inversion Hcheck. by split.
  - cbn [main_tasks.check_variables] in Hcheck.
    destruct (bool_decide (t ∈ recognised_tokens my_eval) || is_numeric t) eqn:Hknown;
      cbn [negb] in Hcheck.
    + destruct (IH _ Hcheck) as [-> Hrest]. split; [done|]. constructor; [|done].
      apply orb_true_iff in Hknown as [Hrec|Hnum]; [left|right; by left].
      by apply bool_decide_eq_true in Hrec.
    + destruct (last_char t) as [c|] eqn:Hlast; [|discriminate]. cbn [bind] in Hcheck.
      destruct (int_of_char c) as [k|] eqn:Hint; [|discriminate]. cbn [bind] in Hcheck.
      destruct (IH _ Hcheck) as [Hflag Hrest].
      destruct (n <? k) eqn:Hlt; [discriminate|]. apply Z.ltb_ge in Hlt.
      split; [done|]. constructor; [|done]. right. right. by exists c, k.
Qed.

(** An expression that the function tab accepts names no variable
    beyond the number of variables chosen: each token of its postfix
    list is known to the main evaluator, or numeric, or ends in a
    digit that is at most that number. *)
Theorem accepted_expression_variables (my_eval func_eval func_eval' : MathEvaluator)
    (order : list string) (n : Z) (expr : string) (result : list string) :
  main_tasks.proccess_expression my_eval func_eval order n expr = (func_eval', Ok result) →
  Forall (fun t => t ∈ recognised_tokens my_eval ∨ is_numeric t = true
                   ∨ ∃ c k, last_char t = Ok c ∧ int_of_char c = Ok k ∧ k ≤ n) result.
Proof.
  unfold main_tasks.proccess_expression. intros Hrun.
  destruct (main_tasks.update_evaluator my_eval func_eval) as [fe [[]|e]];
    [|inversion Hrun].
  injection Hrun as Hfe Hresult. subst fe.
  destruct (parse func_eval' order expr) as [postfix|e].
  - destruct (main_tasks.check_variables my_eval n postfix false) as [[]|e] eqn:Hcheck;
      cbn [bind] in Hresult; inversion Hresult; subst; [constructor|].
    by destruct (check_variables_flag _ _ _ _ Hcheck).
  - destruct e; inversion Hresult; constructor.
Qed.

End Templates.

Lemma later_calls_ignore_arguments_witness :
  let self := standard unavailable in
  let f := {| main_tasks.name := "f"; main_tasks.no_of_variables := 2;
              main_tasks.func_expr := template |} in
  let f' := {| main_tasks.name := "f"; main_tasks.no_of_variables := 2;
               main_tasks.func_expr := template_after_3_4 |} in
  main_tasks.invoke self f [PyFloat 3; PyFloat 4] = (f', Ok (PyFloat 11))
  ∧ length [PyFloat 1; PyFloat 1] = length [PyFloat 3; PyFloat 4]
  ∧ main_tasks.invoke inf_registry f' [PyFloat 1; PyFloat 1]
    = (f', postfit_evaluate inf_registry template_after_3_4)
  ∧ postfit_evaluate self template_after_3_4 = Ok (PyFloat 11).
Proof.
  intros self f f'.
  assert (H1 : main_tasks.invoke self f [PyFloat 3; PyFloat 4] = (f', Ok (PyFloat 11)))
    by (vm_compute; reflexivity).
  assert (H2 : length [PyFloat 1; PyFloat 1] = length [PyFloat 3; PyFloat 4])
    by reflexivity.
  split; [exact H1|]. split; [exact H2|].
  exact (later_calls_ignore_arguments self inf_registry f f' _ _ _ H1 H2).
Defined.

Lemma is_valid_name_shape_witness :
  let self := standard unavailable in
  main_tasks.is_valid_name self "f_1" = true
  ∧ has_key (_functions self) "f_1" = false
  ∧ (main_tasks.isalpha "f_1" = true
     ∨ ∃ (base : string) (c : ascii),
         "f_1" = base +:+ "_" +:+ String c ""
         ∧ main_tasks.isalpha base = true ∧ main_tasks.isalnum_char c = true).
Proof.
  intros self.
  assert (H : main_tasks.is_valid_name self "f_1" = true) by (vm_compute; reflexivity).
  split; [exact H|]. exact (is_valid_name_shape self "f_1" H).
Defined.

Lemma accepted_expression_variables_witness :
  let my_eval := standard unavailable in
  let func_eval := authoring unavailable in
  main_tasks.proccess_expression my_eval func_eval (listed_order func_eval) 2 "x_1 + x_2 * 2"
  = (func_eval, Ok template)
  ∧ Forall (fun t => t ∈ recognised_tokens my_eval ∨ is_numeric t = true
                     ∨ ∃ c k, last_char t = Ok c ∧ int_of_char c = Ok k ∧ k ≤ 2) template.
Proof.
  intros my_eval func_eval.
  assert (H : main_tasks.proccess_expression my_eval func_eval (listed_order func_eval) 2
                "x_1 + x_2 * 2" = (func_eval, Ok template)).
  { unfold main_tasks.proccess_expression, my_eval, func_eval.
    rewrite update_evaluator_authoring.
    assert (Hparse : parse (authoring unavailable) (listed_order (authoring unavailable))
                       "x_1 + x_2 * 2" = Ok template) by (vm_compute; reflexivity).
    assert (Hcheck : main_tasks.check_variables (standard unavailable) 2 template false
                     = Ok false) by (vm_compute; reflexivity).
    rewrite Hparse, Hcheck. reflexivity. }
  split; [exact H|]. exact (accepted_expression_variables _ _ _ _ _ _ _ H).
Defined.

(** ** The conversion of the basic forms *)

Section Forms.
Context (self : MathEvaluator).

Lemma parse_token_numeric substr i (s : string) opt_stack val_stack :
  is_numeric s = true →
  parse_token self substr i s opt_stack val_stack = Ok (opt_stack, val_stack ++ [s]).
Proof. unfold parse_token. by intros ->. Qed.

Lemma parse_token_operator substr i (o : string) (op : Operator) opt_stack val_stack :
  names_operator self o op →
  parse_token self substr i o opt_stack val_stack
  = bind (pop_operators self op opt_stack val_stack) (fun '(opt_stack, val_stack) =>
    Ok (o :: opt_stack, val_stack)).
Proof. unfold parse_token. by intros (-> & -> & -> & -> & _). Qed.

(** How two binary operators in a row are grouped: in [x o1 y o2 z]
    the first operator is applied first exactly when the test
    [operator_condition] holds of the second and the first. *)
Theorem grouping_of_two_operators (x y z o1 o2 : string) (op1 op2 : Operator) :
  is_numeric x = true → is_numeric y = true → is_numeric z = true →
  names_operator self o1 op1 → names_operator self o2 op2 →
  shunting_yard self [x; o1; y; o2; z]
  = Ok (if operator_condition op2 op1 then [x; y; o1; z; o2] else [x; y; z; o2; o1]).
Proof.
  intros Hx Hy Hz H1 H2. unfold shunting_yard. cbn [parse_tokens].
  rewrite (parse_token_numeric _ _ x) by done. cbn [bind].
  rewrite (parse_token_operator _ _ o1 op1) by done. cbn [pop_operators bind].
  rewrite (parse_token_numeric _ _ y) by done. cbn [bind].
  rewrite (parse_token_operator _ _ o2 op2) by done. cbn [pop_operators].
  destruct H1 as (_ & _ & _ & Hop1 & Hne1). destruct H2 as (_ & _ & _ & _ & Hne2).
  apply String.eqb_neq in Hne1, Hne2. rewrite Hne1, Hop1.
  destruct (operator_condition op2 op1); cbn [bind app].
  - rewrite (parse_token_numeric _ _ z) by done. cbn [bind drain app]. by rewrite Hne2.
  - rewrite (parse_token_numeric _ _ z) by done. cbn [bind drain app]. by rewrite Hne2, Hne1.
Qed.

(** A call of a function on two numbers, [f ( x , y )], is converted
    to [x y f], in a registry that does not name the parentheses or
    the comma. *)
Theorem call_of_two_arguments (f x y : string) :
  names_function self f → is_numeric x = true → is_numeric y = true →
  "(" ∉ recognised_tokens self → ")" ∉ recognised_tokens self →
  "," ∉ recognised_tokens self →
  shunting_yard self [f; "("; x; ","; y; ")"] = Ok [x; y; f].
Proof.
  intros (Hnum & Hconst & Hfunc) Hx Hy Hopen Hclose Hcomma.
  destruct (not_recognised_lookup self _ Hopen) as (Ho1 & Hf1 & Hc1).
  destruct (not_recognised_lookup self _ Hclose) as (Ho2 & Hf2 & Hc2).
  destruct (not_recognised_lookup self _ Hcomma) as (Ho3 & Hf3 & Hc3).
  assert (Hf : f ≠ "(").
  { intros ->. unfold has_key in Hfunc. rewrite Hf1 in Hfunc. discriminate. }
  apply String.eqb_neq in Hf.
  unfold shunting_yard. cbn [parse_tokens].
  unfold parse_token at 1. rewrite Hnum, Hconst, Hfunc. cbn [check_implicit_operation Nat.eqb bind].
  unfold parse_token at 1. change (is_numeric "(") with false.
  unfold has_key at 1 2. rewrite Hc1, Hf1, Ho1. cbn [String.eqb Ascii.eqb Bool.eqb bind].
  rewrite (parse_token_numeric _ _ x) by done. cbn [bind app].
  unfold parse_token at 1. change (is_numeric ",") with false.
  unfold has_key at 1 2. rewrite Hc3, Hf3, Ho3.
  cbn [String.eqb Ascii.eqb Bool.eqb bind pop_until_paren].
  rewrite (parse_token_numeric _ _ y) by done. cbn [bind app].
  unfold parse_token at 1. change (is_numeric ")") with false.
  unfold has_key at 1 2. rewrite Hc2, Hf2, Ho2.
  cbn [String.eqb Ascii.eqb Bool.eqb bind pop_until_paren tail].
  rewrite Hfunc. cbn [bind drain app]. reflexivity.
Qed.

End Forms.

Lemma grouping_of_two_operators_witness :
  let self := standard unavailable in
  ∃ op1 op2 : Operator,
    names_operator self "+" op1 ∧ names_operator self "*" op2
    ∧ shunting_yard self ["1"; "+"; "2"; "*"; "3"]
      = Ok (if operator_condition op2 op1 then ["1"; "2"; "+"; "3"; "*"]
            else ["1"; "2"; "3"; "*"; "+"]).
Proof.
  intros self.
  assert (Hplus : has_key (_operators self) "+" = true) by (vm_compute; reflexivity).
  assert (Htimes : has_key (_operators self) "*" = true) by (vm_compute; reflexivity).
  unfold has_key in Hplus, Htimes.
  destruct (_operators self !! "+") as [op1|] eqn:H1; [|discriminate].
  destruct (_operators self !! "*") as [op2|] eqn:H2; [|discriminate].
  assert (N1 : names_operator self "+" op1).
  { split; [vm_compute; reflexivity|]. split; [vm_compute; reflexivity|].
    split; [vm_compute; reflexivity|]. split; [exact H1|discriminate]. }
  assert (N2 : names_operator self "*" op2).
  { split; [vm_compute; reflexivity|]. split; [vm_compute; reflexivity|].
    split; [vm_compute; reflexivity|]. split; [exact H2|discriminate]. }
  exists op1, op2. split; [exact N1|]. split; [exact N2|].
  apply (grouping_of_two_operators self "1" "2" "3" "+" "*" op1 op2);
    [vm_compute; reflexivity..|exact N1|exact N2].
Defined.

Lemma call_of_two_arguments_witness :
  let self := standard unavailable in
  names_function self "sin" ∧ is_numeric "1" = true ∧ is_numeric "2" = true
  ∧ ("(" ∉ recognised_tokens self) ∧ (")" ∉ recognised_tokens self)
  ∧ ("," ∉ recognised_tokens self)
  ∧ shunting_yard self ["sin"; "("; "1"; ","; "2"; ")"] = Ok ["1"; "2"; "sin"].
Proof.
  intros self.
  assert (H1 : names_function self "sin").
  { split; [vm_compute; reflexivity|]. split; vm_compute; reflexivity. }
  assert (H2 : is_numeric "1" = true) by (vm_compute; reflexivity).
  assert (H3 : is_numeric "2" = true) by (vm_compute; reflexivity).
  assert (H4 : "(" ∉ recognised_tokens self)
    by (apply (bool_decide_unpack _); vm_compute; reflexivity).
  assert (H5 : ")" ∉ recognised_tokens self)
    by (apply (bool_decide_unpack _); vm_compute; reflexivity).
  assert (H6 : "," ∉ recognised_tokens self)
    by (apply (bool_decide_unpack _); vm_compute; reflexivity).
  split; [exact H1|]. split; [exact H2|]. split; [exact H3|].
  split; [exact H4|]. split; [exact H5|]. split; [exact H6|].
  exact (call_of_two_arguments self "sin" "1" "2" H1 H2 H3 H4 H5 H6).
Defined.

(** ** The value the calculator shows *)

(** [_evaluate] on a float result of the evaluation: a float without
    fractional part is returned as the [int] of its value, any other
    float as it is.  So a float that [_evaluate] returns is never a
    whole number. *)
Theorem evaluate_float_result (self : MathEvaluator) (order : list string)
    (input : string) :
  (∀ postfix g,
     parse self order (str_lower input) = Ok postfix →
     postfit_evaluate self postfix = Ok (PyFloat g) →
     if float_is_integer g
     then ∃ z, int_of_float g = Ok z
               ∧ main_tasks._evaluate self order input = Ok (PyInt z)
     else main_tasks._evaluate self order input = Ok (PyFloat g))
  ∧ (∀ f, main_tasks._evaluate self order input = Ok (PyFloat f) →
          float_is_integer f = false).
Proof.
  unfold main_tasks._evaluate. split.
  - intros postfix g -> Hvalue. cbn [bind]. rewrite Hvalue. cbn [bind].
    destruct (float_is_integer g) eqn:Hwhole; [|reflexivity].
    destruct (whole_float_to_int g Hwhole) as [z Hz]. exists z. by rewrite Hz.
  - intros f Hrun.
    destruct (parse self order (str_lower input)) as [postfix|]; [|discriminate].
    cbn [bind] in Hrun.
    destruct (postfit_evaluate self postfix) as [[z|g]|]; try discriminate.
    cbn [bind] in Hrun.
    destruct (float_is_integer g) eqn:Hint.
    + destruct (int_of_float g); discriminate.
    + by inversion Hrun; subst.
Qed.

Lemma evaluate_float_result_witness :
  let self := standard unavailable in
  (parse self (listed_order self) (str_lower "1 + 2") = Ok ["1"; "2"; "+"]
   ∧ postfit_evaluate self ["1"; "2"; "+"] = Ok (PyFloat 3)
   ∧ main_tasks._evaluate self (listed_order self) "1 + 2" = Ok (PyInt 3))
  ∧ (parse self (listed_order self) (str_lower "0.5 + 2") = Ok ["0.5"; "2"; "+"]
     ∧ postfit_evaluate self ["0.5"; "2"; "+"] = Ok (PyFloat 2.5)
     ∧ main_tasks._evaluate self (listed_order self) "0.5 + 2" = Ok (PyFloat 2.5)
     ∧ float_is_integer 2.5 = false).
Proof.
  intros self.
  assert (H1 : parse self (listed_order self) (str_lower "1 + 2") = Ok ["1"; "2"; "+"])
    by (vm_compute; reflexivity).
  assert (H2 : postfit_evaluate self ["1"; "2"; "+"] = Ok (PyFloat 3))
    by (vm_compute; reflexivity).
  assert (K1 : parse self (listed_order self) (str_lower "0.5 + 2") = Ok ["0.5"; "2"; "+"])
    by (vm_compute; reflexivity).
  assert (K2 : postfit_evaluate self ["0.5"; "2"; "+"] = Ok (PyFloat 2.5))
    by (vm_compute; reflexivity).
  split.
  - split; [exact H1|]. split; [exact H2|].
    pose proof (proj1 (evaluate_float_result self (listed_order self) "1 + 2") _ _ H1 H2)
      as Hwhole.
    change (float_is_integer 3) with true in Hwhole. cbv beta iota in Hwhole.
    destruct Hwhole as (z & Hz & Hrun).
    assert (Hthree : int_of_float 3 = Ok 3) by (vm_compute; reflexivity).
    rewrite Hthree in Hz. inversion Hz; subst. exact Hrun.
  - split; [exact K1|]. split; [exact K2|].
    pose proof (proj1 (evaluate_float_result self (listed_order self) "0.5 + 2") _ _ K1 K2)
      as Hfrac.
    change (float_is_integer 2.5) with false in Hfrac. cbv beta iota in Hfrac.
    split; [exact Hfrac|].
    exact (proj2 (evaluate_float_result self (listed_order self) "0.5 + 2") _ Hfrac).
Defined.

(** ** The update of the function evaluator *)

Section Update.

Lemma covers_refl (ev : MathEvaluator) : covers ev ev.
Proof. by repeat split. Qed.

Lemma covers_trans (a b c : MathEvaluator) : covers a b → covers b c → covers a c.
Proof.
  intros (H1 & H2 & H3) (K1 & K2 & K3).
  split_and!; intros x Hx; [apply K1, H1|apply K2, H2|apply K3, H3]; done.
Qed.

Lemma has_key_dom {A} (d : gmap string A) (k : string) : has_key d k = true ↔ k ∈ dom d.
Proof.
  unfold has_key. rewrite elem_of_dom.
  destruct (d !! k); [split; [by eexists|done]|split; [done|intros [? ?]; done]].
Qed.

Lemma add_operator_covers ev op ev' :
  add_operator ev op = (ev', Ok tt) →
  covers ev ev' ∧ operator_token op ∈ dom (_operators ev').
Proof.
  unfold add_operator, operator_token. cbv zeta.
  destruct (has_key _ _); intros Hadd; inversion Hadd; subst; clear Hadd.
  cbn. rewrite dom_insert. split; [|set_solver].
  split_and!; set_solver.
Qed.

Lemma add_function_covers ev func ev' :
  add_function ev func = (ev', Ok tt) →
  covers ev ev' ∧ token func ∈ dom (_functions ev').
Proof.
  unfold add_function.
  destruct (has_key _ _); intros Hadd; inversion Hadd; subst; clear Hadd.
  cbn. rewrite dom_insert. split; [|set_solver].
  split_and!; set_solver.
Qed.

Lemma add_constant_covers ev c ev' :
  add_constant ev c = (ev', Ok tt) →
  covers ev ev' ∧ const_token c ∈ dom (_constants ev').
Proof.
  unfold add_constant.
  destruct (has_key _ _); intros Hadd; inversion Hadd; subst; clear Hadd.
  cbn. rewrite dom_insert. split; [|set_solver].
  split_and!; set_solver.
Qed.

Lemma merge_each_covers {A} (has : MathEvaluator → string → bool)
    (add : MathEvaluator → A → MathEvaluator * result unit)
    (tk : A → string) (d : MathEvaluator → gset string) :
  (∀ ev k, has ev k = true ↔ k ∈ d ev) →
  (∀ ev obj ev', add ev obj = (ev', Ok tt) → covers ev ev' ∧ tk obj ∈ d ev') →
  (∀ ev ev', covers ev ev' → d ev ⊆ d ev') →
  ∀ (items : list (string * A)) ev ev',
  main_tasks.merge_each has add items ev = (ev', Ok tt) →
  Forall (fun item => tk (snd item) = fst item) items →
  covers ev ev' ∧ Forall (fun item => fst item ∈ d ev') items.
Proof.
  intros Hhas Hadd Hmono.
  induction items as [|[key obj] items IH]; intros ev ev' Hrun Hfiled.
  - inversion Hrun; subst. split; [apply covers_refl|constructor].
  - inversion Hfiled as [|? ? Hkey Hrest]; subst. cbn [fst snd] in Hkey.
    cbn [main_tasks.merge_each] in Hrun.
    destruct (has ev key) eqn:Hin.
    + destruct (IH _ _ Hrun Hrest) as [Hcov Hall]. split; [done|].
      constructor; [|done]. cbn [fst]. apply (Hmono _ _ Hcov). by apply Hhas.
    + destruct (add ev obj) as [ev1 [[]|e]] eqn:Hstep; [|inversion Hrun].
      destruct (Hadd _ _ _ Hstep) as [Hcov1 Hnew].
      destruct (IH _ _ Hrun Hrest) as [Hcov Hall].
      split; [by eapply covers_trans|].
      constructor; [|done]. cbn [fst]. apply (Hmono _ _ Hcov). by rewrite <- Hkey.
Qed.

Lemma filed_items {A} (tk : A → string) (m : gmap string A) :
  map_Forall (fun key x => tk x = key) m →
  Forall (fun item => tk (snd item) = fst item) (map_to_list m).
Proof.
  intros Hm. apply Forall_forall. intros [key x] Hin.
  apply elem_of_map_to_list in Hin. cbn. by apply (Hm key x).
Qed.

Lemma items_dom {A} (m : gmap string A) (s : gset string) :
  Forall (fun item => fst item ∈ s) (map_to_list m) → dom m ⊆ s.
Proof.
  intros Hall key Hkey. apply elem_of_dom in Hkey as [x Hx].
  apply elem_of_map_to_list in Hx.
  by apply (proj1 (Forall_forall _ _) Hall (key, x)).
Qed.

(** A successful update leaves the function evaluator with every
    token it had and with every token of the main evaluator, each for
    a symbol of the same kind, when the main evaluator files each
    symbol under its own token. *)
Theorem update_evaluator_covers (my_eval func_eval func_eval' : MathEvaluator) :
  filed my_eval →
  main_tasks.update_evaluator my_eval func_eval = (func_eval', Ok tt) →
  covers func_eval func_eval' ∧ covers my_eval func_eval'.
Proof.
  intros (Hops & Hfns & Hcs). unfold main_tasks.update_evaluator. intros Hrun.
  destruct (main_tasks.merge_each _ add_constant _ func_eval) as [fe1 [[]|e]] eqn:H1;
    [|inversion Hrun].
  destruct (main_tasks.merge_each _ add_function _ fe1) as [fe2 [[]|e]] eqn:H2;
    [|inversion Hrun].
  apply (merge_each_covers _ _ const_token (fun ev => dom (_constants ev))) in H1
    as [C1 D1];
    [|intros; apply has_key_dom|apply add_constant_covers|by intros ? ? (_ & _ & ?)
     |by apply filed_items].
  apply (merge_each_covers _ _ token (fun ev => dom (_functions ev))) in H2
    as [C2 D2];
    [|intros; apply has_key_dom|apply add_function_covers|by intros ? ? (_ & ? & _)
     |by apply filed_items].
  apply (merge_each_covers _ _ operator_token (fun ev => dom (_operators ev))) in Hrun
    as [C3 D3];
    [|intros; apply has_key_dom|apply add_operator_covers|by intros ? ? (? & _ & _)
     |by apply filed_items].
  apply items_dom in D1, D2, D3.
  split; [by eapply covers_trans; [eapply covers_trans|]|].
  destruct C2 as (_ & _ & C2c). destruct C3 as (_ & C3f & C3c).
  split_and!; [done|set_solver|set_solver].
Qed.

End Update.

Lemma update_evaluator_covers_witness :
  let my_eval := standard unavailable in
  let func_eval := authoring unavailable in
  filed my_eval
  ∧ main_tasks.update_evaluator my_eval func_eval = (func_eval, Ok tt)
  ∧ covers func_eval func_eval ∧ covers my_eval func_eval.
Proof.
  intros my_eval func_eval.
  assert (H1 : filed my_eval).
  { split_and!; apply (bool_decide_unpack _); vm_compute; reflexivity. }
  assert (H2 : main_tasks.update_evaluator my_eval func_eval = (func_eval, Ok tt))
    by apply update_evaluator_authoring.
  split; [exact H1|]. split; [exact H2|].
  exact (update_evaluator_covers my_eval func_eval func_eval H1 H2).
Defined.
